(** * Vouch: sync-committee duties, relay auction and validating accounts

    A shallow embedding of four Go packages of the validator agent

    - [services/synccommitteemessenger/standard]  (New, Prepare, Message,
                                                   contribute, isAggregator,
                                                   specUint64)
    - [services/synccommitteeaggregator/standard] (New, SetBeaconBlockRoot,
                                                   Aggregate)
    - [services/blockrelay/standard]              (AuctionBlock, bestBuilderBid,
                                                   builderBid, verifyBidSignature,
                                                   bidsEqual)
    - [services/accountmanager/wallet]            (refreshAccounts,
                                                   ValidatingAccountsForEpoch...,
                                                   accountPathsToVerificationRegexes,
                                                   fetchAccountsForWallet,
                                                   AccountByPublicKey)

    and the properties of the specification that were checked against them.

    Conventions.  Go's unsigned 64-bit integers are [Z] with the wrap-around
    written out ([u64]); [big.Int] is [Z]; byte strings are [list Z] with
    entries in 0..255; Go maps are stdpp [gmap]s; a Go [error] is an
    [option string] ([None] is the nil error).  Calls to collaborators
    (beacon node, signers, submitters, metrics) thread an abstract world and
    are recorded in an event log, so that "X is never called" is a statement
    about the log.  A run-time panic is an explicit outcome. *)

From Stdlib Require Import ZArith List Bool Lia.
From stdpp Require Import gmap strings list fin_maps pretty.
Import ListNotations.

Local Open Scope Z_scope.

(* ===================================================================== *)
(** ** Go runtime conventions *)
(* ===================================================================== *)

Module Go.

(** A Go [error] value; [None] is [nil]. *)
Definition error := option string.

(** A call returning [(T, error)] where the caller looks at the value only
    when the error is nil. *)
Inductive result (A : Type) : Type :=
| Ok (a : A)
| Err (msg : string).
Arguments Ok {A} a.
Arguments Err {A} msg.

(** What a function call amounts to: it returns, or the goroutine panics. *)
Inductive outcome (A : Type) : Type :=
| Returned (a : A)
| Panicked (why : string).
Arguments Returned {A} a.
Arguments Panicked {A} why.

Definition bind {A B} (o : outcome A) (k : A -> outcome B) : outcome B :=
  match o with
  | Returned a => k a
  | Panicked why => Panicked why
  end.

(** uint64 wrap-around. *)
Definition u64 (x : Z) : Z := x mod 2 ^ 64.

(** Unsigned division; the Go runtime panics on a zero divisor. *)
Definition udiv (a b : Z) : outcome Z :=
  if b =? 0 then Panicked "runtime error: integer divide by zero"
  else Returned (a / b).

(** [errors.New] of github.com/pkg/errors. *)
Definition errors_New (msg : string) : error := Some msg.

(** [errors.Wrap] of github.com/pkg/errors: "If err is nil, Wrap returns
    nil." *)
Definition errors_Wrap (err : error) (msg : string) : error :=
  match err with
  | None => None
  | Some e => Some (msg +:+ ": " +:+ e)
  end.

(** [binary.LittleEndian.Uint64] on the first eight bytes of [b]. *)
Fixpoint le_bytes (b : list Z) : Z :=
  match b with
  | [] => 0
  | x :: rest => x + 256 * le_bytes rest
  end.

Definition LittleEndian_Uint64 (b : list Z) : Z := le_bytes (firstn 8 b).

End Go.

(** [x ← e; k] runs [e] and continues with [k] unless [e] panicked. *)
#[export] Instance outcome_bind : MBind Go.outcome := fun _ _ k o => Go.bind o k.
#[export] Instance outcome_ret : MRet Go.outcome := fun _ a => Go.Returned a.

(* ===================================================================== *)
(** ** crypto/sha256 (FIPS 180-4), on byte lists *)
(* ===================================================================== *)

Module sha256.

Definition w32 (x : Z) : Z := x mod 2 ^ 32.

Definition rotr (n x : Z) : Z :=
  w32 (Z.lor (Z.shiftr x n) (Z.shiftl x (32 - n))).

Definition not32 (x : Z) : Z := Z.lxor x 0xffffffff.

Definition Ch (x y z : Z) : Z := Z.lxor (Z.land x y) (Z.land (not32 x) z).
Definition Maj (x y z : Z) : Z :=
  Z.lxor (Z.lxor (Z.land x y) (Z.land x z)) (Z.land y z).
Definition Sigma0 (x : Z) : Z := Z.lxor (Z.lxor (rotr 2 x) (rotr 13 x)) (rotr 22 x).
Definition Sigma1 (x : Z) : Z := Z.lxor (Z.lxor (rotr 6 x) (rotr 11 x)) (rotr 25 x).
Definition sigma0 (x : Z) : Z := Z.lxor (Z.lxor (rotr 7 x) (rotr 18 x)) (Z.shiftr x 3).
Definition sigma1 (x : Z) : Z := Z.lxor (Z.lxor (rotr 17 x) (rotr 19 x)) (Z.shiftr x 10).

(** The first 64 primes. *)
Definition isPrime (n : Z) : bool :=
  forallb (fun d => negb (n mod d =? 0))
    (map Z.of_nat (seq 2 (Z.to_nat (Z.sqrt n) - 1))).

Definition primes : list Z :=
  Eval vm_compute in filter (fun n => isPrime n = true) (map Z.of_nat (seq 2 310)).

(** Integer cube root, one bit at a time from bit [k-1] down. *)
Fixpoint cbrt_bits (k : nat) (n r : Z) : Z :=
  match k with
  | O => r
  | S k' =>
      let c := r + 2 ^ Z.of_nat k' in
      if c * c * c <=? n then cbrt_bits k' n c else cbrt_bits k' n r
  end.

(** The round constants: the first 32 bits of the fractional parts of the
    cube roots of the first 64 primes. *)
Definition K : list Z :=
  Eval vm_compute in map (fun p => cbrt_bits 40 (p * 2 ^ 96) 0 mod 2 ^ 32) primes.

(** The initial hash value: the same of the square roots of the first 8. *)
Definition H0 : list Z :=
  Eval vm_compute in map (fun p => Z.sqrt (p * 2 ^ 64) mod 2 ^ 32) (firstn 8 primes).

Definition word_at (l : list Z) (i : nat) : Z := nth i l 0.

(** Big-endian encoding of [x] on [n] bytes, and decoding. *)
Fixpoint be_encode (n : nat) (x : Z) : list Z :=
  match n with
  | O => []
  | S n' => be_encode n' (x / 256) ++ [x mod 256]
  end.

Definition be_decode (b : list Z) : Z :=
  fold_left (fun acc x => 256 * acc + x) b 0.

(** Padding: a 1 bit, zeros up to 56 mod 64, the bit length on 8 bytes. *)
Definition pad (msg : list Z) : list Z :=
  let len := Z.of_nat (length msg) in
  let zeros := Z.to_nat ((55 - len) mod 64) in
  msg ++ [0x80] ++ repeat 0 zeros ++ be_encode 8 (8 * len).

Fixpoint words (n : nat) (b : list Z) : list Z :=
  match n with
  | O => []
  | S n' => be_decode (firstn 4 b) :: words n' (skipn 4 b)
  end.

(** Message schedule: [w] holds W[0..t-1]; extend it by [n] words. *)
Fixpoint schedule (n : nat) (w : list Z) : list Z :=
  match n with
  | O => w
  | S n' =>
      let t := length w in
      let x := w32 (sigma1 (word_at w (t - 2)) + word_at w (t - 7)
                    + sigma0 (word_at w (t - 15)) + word_at w (t - 16)) in
      schedule n' (w ++ [x])
  end.

Definition round (st : list Z) (kw : Z * Z) : list Z :=
  match st with
  | [a; b; c; d; e; f; g; h] =>
      let t1 := h + Sigma1 e + Ch e f g + fst kw + snd kw in
      let t2 := Sigma0 a + Maj a b c in
      [w32 (t1 + t2); a; b; c; w32 (d + t1); e; f; g]
  | _ => st
  end.

Definition compress (h : list Z) (block : list Z) : list Z :=
  let w := schedule 48 (words 16 block) in
  let st := fold_left round (combine K w) h in
  map (fun p => w32 (fst p + snd p)) (combine h st).

Fixpoint blocks (n : nat) (h : list Z) (b : list Z) : list Z :=
  match n with
  | O => h
  | S n' => blocks n' (compress h (firstn 64 b)) (skipn 64 b)
  end.

(** [sha256.Sum256]: the 32-byte digest. *)
Definition Sum256 (msg : list Z) : list Z :=
  let p := pad msg in
  flat_map (be_encode 4) (blocks (length p / 64) H0 p).

End sha256.

(* ===================================================================== *)
(** ** Protocol types (go-eth2-client [phase0] and [altair]) *)
(* ===================================================================== *)

Abbreviation Slot := Z (only parsing).
Abbreviation Epoch := Z (only parsing).
Abbreviation ValidatorIndex := Z (only parsing).
Abbreviation CommitteeIndex := Z (only parsing).
Abbreviation Root := (list Z) (only parsing).
Abbreviation BLSSignature := (list Z) (only parsing).
Abbreviation BLSPubKey := (list Z) (only parsing).

(** An [e2wtypes.Account] is an interface value; it is identified here by
    its name, and the nil interface is [None]. *)
Abbreviation Account := string (only parsing).

(** The zero value of [phase0.BLSSignature], a 96-byte array. *)
Definition zeroSignature : BLSSignature := repeat 0 96%nat.

Module altair.

Record SyncCommitteeMessage := {
  msg_Slot : Slot;
  msg_BeaconBlockRoot : Root;
  msg_ValidatorIndex : ValidatorIndex;
  msg_Signature : BLSSignature
}.

Record SyncCommitteeContribution := {
  con_Slot : Slot;
  con_BeaconBlockRoot : Root;
  con_SubcommitteeIndex : Z;
  con_AggregationBits : list bool;
  con_Signature : BLSSignature
}.

Record ContributionAndProof := {
  AggregatorIndex : ValidatorIndex;
  Contribution : SyncCommitteeContribution;
  SelectionProof : BLSSignature
}.

Record SignedContributionAndProof := {
  Message : ContributionAndProof;
  Signature : BLSSignature
}.

End altair.

(* ===================================================================== *)
(** ** Duty records handed over by the scheduler *)
(* ===================================================================== *)

Module synccommitteeaggregator.

(** [synccommitteeaggregator.Duty], as [Aggregate] uses its fields. *)
Record Duty := {
  Slot_ : Slot;
  ValidatorIndices : list ValidatorIndex;
  SelectionProofs : gmap Z (gmap Z BLSSignature);
  Accounts : gmap Z Account
}.

End synccommitteeaggregator.

Module synccommitteemessenger.

(** Modelled from the spec: the [Duty] type of package
    services/synccommitteemessenger is not among the sources.  The spec's
    data model makes it a per-slot record of the slot number, the
    validator indices with duty, the contribution indices and account of
    each validator, and the selection signatures recorded during Prepare. *)
Record Duty := {
  slot : Slot;
  validatorIndices : list ValidatorIndex;
  contributionIndices : gmap Z (list CommitteeIndex);
  accounts : gmap Z Account;
  aggregatorSubcommittees : gmap Z (gmap Z BLSSignature)
}.

Definition nilDereference : string :=
  "runtime error: invalid memory address or nil pointer dereference".

(** Modelled from the spec: the accessors of the record.  The handlers
    hold a [*Duty]; an accessor reads a field of the record behind that
    pointer, which panics when the pointer is nil. *)
Definition field {A} (f : Duty -> A) (d : option Duty) : Go.outcome A :=
  match d with
  | Some d => Go.Returned (f d)
  | None => Go.Panicked nilDereference
  end.

(** [ValidatorIndices()], the accessor the handlers call on a pointer that
    may be nil.  (Behind a pointer known not to be nil the model reads the
    fields directly.) *)
Definition ValidatorIndices := field validatorIndices.

(** Modelled from the spec: recording a selection signature for a
    (validator, subcommittee) pair. *)
Definition SetAggregatorSubcommittees (d : Duty) (index : ValidatorIndex)
    (subcommittee : Z) (sig : BLSSignature) : Duty :=
  {| slot := slot d;
     validatorIndices := validatorIndices d;
     contributionIndices := contributionIndices d;
     accounts := accounts d;
     aggregatorSubcommittees :=
       <[index := <[subcommittee := sig]>
                    (default ∅ (aggregatorSubcommittees d !! index))]>
         (aggregatorSubcommittees d) |}.

End synccommitteemessenger.

(** The [interface{}] a duty handler receives: a pointer to one of the two
    duty records (possibly a nil pointer of that type), or anything else. *)
Inductive DutyData :=
| MessengerDuty (d : option synccommitteemessenger.Duty)
| AggregatorDuty (d : option synccommitteeaggregator.Duty)
| OtherData (description : string).

(* ===================================================================== *)
(** ** Effects: the collaborators' world, the root cache and the log *)
(* ===================================================================== *)

(** What the services do to the outside, in the order they do it. *)
Inductive Event :=
| CallBeaconBlockRoot (tag : string) (root : option Root) (err : Go.error)
| CallSignSyncCommitteeSelection (account : option Account) (slot : Slot)
    (subcommitteeIndex : Z) (sig : BLSSignature) (err : Go.error)
| CallSignSyncCommitteeRoot (account : option Account) (epoch : Epoch)
    (root : Root) (sig : BLSSignature) (err : Go.error)
| CallSubmitSyncCommitteeMessages (msgs : list altair.SyncCommitteeMessage)
    (err : Go.error)
| CallSyncCommitteeContribution (slot : Slot) (subcommitteeIndex : Z)
    (root : Root) (contribution : option altair.SyncCommitteeContribution)
    (err : Go.error)
| CallSignContributionAndProof (account : option Account)
    (cap : altair.ContributionAndProof) (sig : BLSSignature) (err : Go.error)
| CallSubmitSyncCommitteeContributions
    (batch : list altair.SignedContributionAndProof) (err : Go.error)
| MetricSyncCommitteeMessagesCompleted (slot : Slot) (count : Z) (status : string)
| MetricSyncCommitteeAggregationsCompleted (slot : Slot) (count : Z)
    (status : string)
| MetricSyncCommitteeAggregationCoverage (setBits totalBits : Z).

(** The mutable state a handler runs in: the collaborators' world [W], the
    aggregator's [beaconBlockRoots] map and the log of effects so far. *)
Record Sys (W : Type) := {
  world : W;
  beaconBlockRoots : gmap Z Root;
  log : list Event
}.
Arguments world {W} _.
Arguments beaconBlockRoots {W} _.
Arguments log {W} _.

Definition emit {W} (e : Event) (st : Sys W) : Sys W :=
  {| world := world st; beaconBlockRoots := beaconBlockRoots st;
     log := log st ++ [e] |}.

Definition setWorld {W} (w : W) (st : Sys W) : Sys W :=
  {| world := w; beaconBlockRoots := beaconBlockRoots st; log := log st |}.

Definition setRoots {W} (m : gmap Z Root) (st : Sys W) : Sys W :=
  {| world := world st; beaconBlockRoots := m; log := log st |}.

(** [len(x)] as a Go [int]. *)
Definition len {A} (l : list A) : Z := Z.of_nat (length l).

(** How a loop body leaves: it falls through to the next iteration, or it
    returns from the enclosing function with a value. *)
Inductive flow (R : Type) : Type :=
| Continue
| Return_ (r : R).
Arguments Continue {R}.
Arguments Return_ {R} r.

(** A value of the chain specification map, a Go [interface{}]: the
    services read items of type [uint64]. *)
Inductive SpecValue :=
| SpecUint64 (val : Z)
| SpecOther (description : string).

(* ===================================================================== *)
(** ** services/synccommitteeaggregator/standard *)
(* ===================================================================== *)

Module aggregator.
Import synccommitteeaggregator altair.

(** The immutable fields of [Service]; the collaborators are the interface
    values the service was built with.  The mutable [beaconBlockRoots]
    map lives in [Sys], the monitor's calls go to the log. *)
Record Service (W : Type) := {
  slotsPerEpoch : Z;
  syncCommitteeSize : Z;
  syncCommitteeSubnetCount : Z;
  targetAggregatorsPerSyncSubcommittee : Z;
  beaconBlockRootProvider : W -> string -> W * (option Root * Go.error);
  contributionAndProofSigner :
    W -> option Account -> ContributionAndProof -> W * (BLSSignature * Go.error);
  syncCommitteeContributionProvider :
    W -> Slot -> Z -> Root -> W * (option SyncCommitteeContribution * Go.error);
  syncCommitteeContributionsSubmitter :
    W -> list SignedContributionAndProof -> W * Go.error
}.
Arguments beaconBlockRootProvider {W} _.
Arguments contributionAndProofSigner {W} _.
Arguments syncCommitteeContributionProvider {W} _.
Arguments syncCommitteeContributionsSubmitter {W} _.

(** [SetBeaconBlockRoot]: [s.beaconBlockRoots[slot] = root] under the mutex. *)
Definition SetBeaconBlockRoot {W} (slot : Slot) (root : Root) (st : Sys W)
  : Sys W :=
  setRoots (<[slot := root]> (beaconBlockRoots st)) st.

Definition failed {W} (duty : Duty) (st : Sys W) : Sys W :=
  emit (MetricSyncCommitteeAggregationsCompleted
          (Slot_ duty) (len (ValidatorIndices duty)) "failed") st.

(** The inner loop of [Aggregate], over the subcommittee indices of one
    validator in the order the map iteration yields them. *)
Fixpoint aggregateSubcommittees {W} (s : Service W) (duty : Duty)
    (beaconBlockRoot : Root) (validatorIndex : ValidatorIndex)
    (subcommittees : list Z)
    (signedContributionAndProofs : list SignedContributionAndProof)
    (st : Sys W)
  : Sys W * list SignedContributionAndProof * flow unit :=
  match subcommittees with
  | [] => (st, signedContributionAndProofs, Continue)
  | subcommitteeIndex :: rest =>
      let '(w, (contribution, err)) :=
        syncCommitteeContributionProvider s (world st) (Slot_ duty)
          subcommitteeIndex beaconBlockRoot in
      let st := emit (CallSyncCommitteeContribution (Slot_ duty)
                        subcommitteeIndex beaconBlockRoot contribution err)
                     (setWorld w st) in
      match err with
      | Some _ => (failed duty st, signedContributionAndProofs, Return_ tt)
      | None =>
          match contribution with
          | None => (failed duty st, signedContributionAndProofs, Return_ tt)
          | Some contribution =>
              let contributionAndProof :=
                {| AggregatorIndex := validatorIndex;
                   Contribution := contribution;
                   SelectionProof :=
                     default zeroSignature
                       (default ∅ (SelectionProofs duty !! validatorIndex)
                          !! subcommitteeIndex) |} in
              let account := Accounts duty !! validatorIndex in
              let '(w, (sig, err)) :=
                contributionAndProofSigner s (world st) account
                  contributionAndProof in
              let st := emit (CallSignContributionAndProof account
                                contributionAndProof sig err)
                             (setWorld w st) in
              match err with
              | Some _ =>
                  (failed duty st, signedContributionAndProofs, Return_ tt)
              | None =>
                  let signedContributionAndProof :=
                    {| Message := contributionAndProof; Signature := sig |} in
                  aggregateSubcommittees s duty beaconBlockRoot
                    validatorIndex rest
                    (signedContributionAndProofs ++ [signedContributionAndProof])
                    st
              end
          end
      end
  end.

(** [for subcommitteeIndex := range duty.SelectionProofs[validatorIndex]]:
    the keys of the inner map (none when the validator has no entry).  Go
    leaves the order open; [map_to_list] fixes one. *)
Definition subcommitteesOf (duty : Duty) (validatorIndex : ValidatorIndex)
  : list Z :=
  (map_to_list (default ∅ (SelectionProofs duty !! validatorIndex))).*1.

(** The outer loop of [Aggregate], over [duty.ValidatorIndices]. *)
Fixpoint aggregateValidators {W} (s : Service W) (duty : Duty)
    (beaconBlockRoot : Root) (indices : list ValidatorIndex)
    (signedContributionAndProofs : list SignedContributionAndProof)
    (st : Sys W)
  : Sys W * list SignedContributionAndProof * flow unit :=
  match indices with
  | [] => (st, signedContributionAndProofs, Continue)
  | validatorIndex :: rest =>
      match aggregateSubcommittees s duty beaconBlockRoot validatorIndex
              (subcommitteesOf duty validatorIndex)
              signedContributionAndProofs st with
      | (st, batch, Return_ tt) => (st, batch, Return_ tt)
      | (st, batch, Continue) =>
          aggregateValidators s duty beaconBlockRoot rest batch st
      end
  end.

(** The coverage metric of one submitted item: set bits over total bits of
    the contribution's aggregation bitfield (the code divides them as
    float64; the log keeps numerator and denominator). *)
Definition coverage (x : SignedContributionAndProof) : Event :=
  let bits := con_AggregationBits (Contribution (Message x)) in
  MetricSyncCommitteeAggregationCoverage
    (len (filter (fun b => b = true) bits)) (len bits).

(** [Aggregate] from the point where the beacon block root is known. *)
Definition aggregateWithRoot {W} (s : Service W) (duty : Duty)
    (beaconBlockRoot : Root) (st : Sys W) : Sys W :=
  match aggregateValidators s duty beaconBlockRoot (ValidatorIndices duty)
          [] st with
  | (st, _, Return_ tt) => st
  | (st, signedContributionAndProofs, Continue) =>
      let '(w, err) :=
        syncCommitteeContributionsSubmitter s (world st)
          signedContributionAndProofs in
      let st := emit (CallSubmitSyncCommitteeContributions
                        signedContributionAndProofs err) (setWorld w st) in
      match err with
      | Some _ =>
          emit (MetricSyncCommitteeAggregationsCompleted (Slot_ duty)
                  (len signedContributionAndProofs) "failed") st
      | None =>
          let st := fold_left (fun st x => emit (coverage x) st)
                      signedContributionAndProofs st in
          emit (MetricSyncCommitteeAggregationsCompleted (Slot_ duty)
                  (len signedContributionAndProofs) "succeeded") st
      end
  end.

(** [Aggregate]. *)
Definition Aggregate {W} (s : Service W) (data : DutyData) (st : Sys W)
  : Sys W * Go.outcome unit :=
  match data with
  | AggregatorDuty None =>
      (* the assertion succeeds with a nil pointer; duty.Slot faults *)
      (st, Go.Panicked synccommitteemessenger.nilDereference)
  | AggregatorDuty (Some duty) =>
      match beaconBlockRoots st !! Slot_ duty with
      | Some tmp =>
          let st := setRoots (delete (Slot_ duty) (beaconBlockRoots st)) st in
          (aggregateWithRoot s duty tmp st, Go.Returned tt)
      | None =>
          let '(w, (beaconBlockRoot, err)) :=
            beaconBlockRootProvider s (world st) "head" in
          let st := emit (CallBeaconBlockRoot "head" beaconBlockRoot err)
                         (setWorld w st) in
          match err with
          | Some _ => (failed duty st, Go.Returned tt)
          | None =>
              match beaconBlockRoot with
              | None => (failed duty st, Go.Returned tt)
              | Some root => (aggregateWithRoot s duty root st, Go.Returned tt)
              end
          end
      end
  | _ =>
      (* "Passed invalid data structure" is logged *)
      (st, Go.Returned tt)
  end.

(** What [parseAndCheckParameters] hands to [New], as far as [New] uses
    it: the answer of [specProvider.Spec] and the collaborators. *)
Record Parameters (W : Type) := {
  specProvider_Spec : Go.result (gmap string SpecValue);
  p_beaconBlockRootProvider : W -> string -> W * (option Root * Go.error);
  p_contributionAndProofSigner :
    W -> option Account -> ContributionAndProof -> W * (BLSSignature * Go.error);
  p_syncCommitteeContributionProvider :
    W -> Slot -> Z -> Root -> W * (option SyncCommitteeContribution * Go.error);
  p_syncCommitteeContributionsSubmitter :
    W -> list SignedContributionAndProof -> W * Go.error
}.
Arguments specProvider_Spec {W} _.
Arguments p_beaconBlockRootProvider {W} _.
Arguments p_contributionAndProofSigner {W} _.
Arguments p_syncCommitteeContributionProvider {W} _.
Arguments p_syncCommitteeContributionsSubmitter {W} _.

(** One item of the spec as [New] reads it: [tmp, exists := spec[item]]
    followed by [tmp.(uint64)]. *)
Definition specItem (spec : gmap string SpecValue) (item : string)
  : Go.result Z :=
  match spec !! item with
  | None => Go.Err (item +:+ " not found in spec")
  | Some (SpecUint64 val) => Go.Ok val
  | Some (SpecOther _) => Go.Err (item +:+ " of unexpected type")
  end.

(** [New]: the service with its empty [beaconBlockRoots] map, or nil and
    an error. *)
Definition New {W} (parsed : Go.result (Parameters W))
  : option (Service W * gmap Z Root) * Go.error :=
  match parsed with
  | Go.Err e => (None, Go.errors_Wrap (Some e) "problem with parameters")
  | Go.Ok parameters =>
      match specProvider_Spec parameters with
      | Go.Err e => (None, Go.errors_Wrap (Some e) "failed to obtain spec")
      | Go.Ok spec =>
          match specItem spec "SLOTS_PER_EPOCH" with
          | Go.Err e => (None, Go.errors_New e)
          | Go.Ok slotsPerEpoch =>
          match specItem spec "SYNC_COMMITTEE_SIZE" with
          | Go.Err e => (None, Go.errors_New e)
          | Go.Ok syncCommitteeSize =>
          match specItem spec "SYNC_COMMITTEE_SUBNET_COUNT" with
          | Go.Err e => (None, Go.errors_New e)
          | Go.Ok syncCommitteeSubnetCount =>
          match specItem spec "TARGET_AGGREGATORS_PER_SYNC_SUBCOMMITTEE" with
          | Go.Err e => (None, Go.errors_New e)
          | Go.Ok targetAggregatorsPerSyncSubcommittee =>
              (Some ({| slotsPerEpoch := slotsPerEpoch;
                        syncCommitteeSize := syncCommitteeSize;
                        syncCommitteeSubnetCount := syncCommitteeSubnetCount;
                        targetAggregatorsPerSyncSubcommittee :=
                          targetAggregatorsPerSyncSubcommittee;
                        beaconBlockRootProvider :=
                          p_beaconBlockRootProvider parameters;
                        contributionAndProofSigner :=
                          p_contributionAndProofSigner parameters;
                        syncCommitteeContributionProvider :=
                          p_syncCommitteeContributionProvider parameters;
                        syncCommitteeContributionsSubmitter :=
                          p_syncCommitteeContributionsSubmitter parameters |},
                     ∅), None)
          end end end end
      end
  end.

End aggregator.

(* ===================================================================== *)
(** ** services/synccommitteemessenger/standard *)
(* ===================================================================== *)

Module messenger.
Import synccommitteemessenger altair.

(** The fields of [Service].  [syncCommitteeAggregator] is the standard
    aggregator above: its [SetBeaconBlockRoot] acts on the
    [beaconBlockRoots] map of the shared [Sys]. *)
Record Service (W : Type) := {
  processConcurrency : Z;
  slotsPerEpoch : Z;
  syncCommitteeSize : Z;
  syncCommitteeSubnetCount : Z;
  targetAggregatorsPerSyncCommittee : Z;
  chainTimeService_SlotToEpoch : Slot -> Epoch;
  beaconBlockRootProvider : W -> string -> W * (option Root * Go.error);
  syncCommitteeMessagesSubmitter :
    W -> list SyncCommitteeMessage -> W * Go.error;
  syncCommitteeSelectionSigner :
    W -> option Account -> Slot -> Z -> W * (BLSSignature * Go.error);
  syncCommitteeRootSigner :
    W -> option Account -> Epoch -> Root -> W * (BLSSignature * Go.error)
}.
Arguments syncCommitteeSize {W} _.
Arguments syncCommitteeSubnetCount {W} _.
Arguments targetAggregatorsPerSyncCommittee {W} _.
Arguments chainTimeService_SlotToEpoch {W} _.
Arguments beaconBlockRootProvider {W} _.
Arguments syncCommitteeMessagesSubmitter {W} _.
Arguments syncCommitteeSelectionSigner {W} _.
Arguments syncCommitteeRootSigner {W} _.

(** The type assertion of [data] to a pointer to [synccommitteemessenger.Duty]:
    the pointer (nil when the assertion fails) and [ok]. *)
Definition assertDuty (data : DutyData) : option Duty * bool :=
  match data with
  | MessengerDuty d => (d, true)
  | _ => (None, false)
  end.

(** [hash.Hash.Write] of a SHA-256 state: it takes all of [p] and never
    fails. *)
Definition sigHash_Write (p : list Z) : Z * Go.error := (len p, None).

(** [isAggregator]. *)
Definition isAggregator {W} (s : Service W) (account : option Account)
    (slot : Slot) (subcommitteeIndex : Z) (st : Sys W)
  : Sys W * Go.outcome (bool * BLSSignature * Go.error) :=
  match (q ← Go.udiv (syncCommitteeSize s) (syncCommitteeSubnetCount s);
         Go.udiv q (targetAggregatorsPerSyncCommittee s)) with
  | Go.Panicked why => (st, Go.Panicked why)
  | Go.Returned modulo =>
      let modulo := if modulo <? 1 then 1 else modulo in
      (* Sign the slot. *)
      let '(w, (signature, err)) :=
        syncCommitteeSelectionSigner s (world st) account slot
          subcommitteeIndex in
      let st := emit (CallSignSyncCommitteeSelection account slot
                        subcommitteeIndex signature err) (setWorld w st) in
      match err with
      | Some _ =>
          (st, Go.Returned (false, zeroSignature,
                            Go.errors_Wrap err "failed to sign the slot"))
      | None =>
          (* Hash the signature. *)
          let '(n, err) := sigHash_Write signature in
          match err with
          | Some _ =>
              (st, Go.Returned (false, zeroSignature,
                     Go.errors_Wrap err "failed to hash the slot signature"))
          | None =>
              if negb (n =? len signature) then
                (st, Go.Returned (false, zeroSignature,
                       Go.errors_New
                         "failed to write all bytes of the slot signature to the hash"))
              else
                let hash := sha256.Sum256 signature in
                (st, Go.Returned
                       (Go.LittleEndian_Uint64 (firstn 8 hash) mod modulo =? 0,
                        signature, None))
          end
      end
  end.

(** The subcommittees of one validator in [Prepare]: the set of
    [uint64(contributionIndex) / (syncCommitteeSize / syncCommitteeSubnetCount)]. *)
Fixpoint subcommitteesOf {W} (s : Service W)
    (indices : list CommitteeIndex) (subcommittees : gset Z)
  : Go.outcome (gset Z) :=
  match indices with
  | [] => Go.Returned subcommittees
  | contributionIndex :: rest =>
      per ← Go.udiv (syncCommitteeSize s) (syncCommitteeSubnetCount s);
      subcommittee ← Go.udiv contributionIndex per;
      subcommitteesOf s rest ({[subcommittee]} ∪ subcommittees)
  end.

(** The loop of [Prepare] over the subcommittees of one validator. *)
Fixpoint prepareSubcommittees {W} (s : Service W) (duty : Duty)
    (validatorIndex : ValidatorIndex) (subcommittees : list Z) (st : Sys W)
  : Sys W * Duty * Go.outcome (flow Go.error) :=
  match subcommittees with
  | [] => (st, duty, Go.Returned Continue)
  | subcommittee :: rest =>
      match isAggregator s (accounts duty !! validatorIndex) (slot duty)
              subcommittee st with
      | (st, Go.Panicked why) => (st, duty, Go.Panicked why)
      | (st, Go.Returned (isAgg, sig, err)) =>
          match err with
          | Some _ =>
              (st, duty,
               Go.Returned (Return_ (Go.errors_Wrap err
                  "failed to calculate if this is an aggregator")))
          | None =>
              let duty :=
                if isAgg
                then SetAggregatorSubcommittees duty validatorIndex subcommittee sig
                else duty in
              prepareSubcommittees s duty validatorIndex rest st
          end
      end
  end.

(** The loop of [Prepare] over [duty.ValidatorIndices()]. *)
Fixpoint prepareValidators {W} (s : Service W) (duty : Duty)
    (indices : list ValidatorIndex) (st : Sys W)
  : Sys W * Duty * Go.outcome (flow Go.error) :=
  match indices with
  | [] => (st, duty, Go.Returned Continue)
  | validatorIndex :: rest =>
      match subcommitteesOf s
              (default [] (contributionIndices duty !! validatorIndex)) ∅ with
      | Go.Panicked why => (st, duty, Go.Panicked why)
      | Go.Returned subcommittees =>
          match prepareSubcommittees s duty validatorIndex
                  (elements subcommittees) st with
          | (st, duty, Go.Returned Continue) =>
              prepareValidators s duty rest st
          | stop => stop
          end
      end
  end.

(** [Prepare].  The duty record is mutated in place; the possibly updated
    record is handed back next to the result. *)
Definition Prepare {W} (s : Service W) (data : DutyData) (st : Sys W)
  : Sys W * DutyData * Go.outcome Go.error :=
  let '(duty, ok) := assertDuty data in
  if negb ok then
    match ValidatorIndices duty with
    | Go.Panicked why => (st, data, Go.Panicked why)
    | Go.Returned indices =>
        (emit (MetricSyncCommitteeMessagesCompleted 0 (len indices) "failed") st,
         data, Go.Returned (Go.errors_New "passed invalid data structure"))
    end
  else
    match duty with
    | None => (st, data, Go.Panicked nilDereference)
    | Some d =>
        match prepareValidators s d (validatorIndices d) st with
        | (st, d, Go.Panicked why) => (st, MessengerDuty (Some d), Go.Panicked why)
        | (st, d, Go.Returned (Return_ err)) =>
            (st, MessengerDuty (Some d), Go.Returned err)
        | (st, d, Go.Returned Continue) =>
            (st, MessengerDuty (Some d), Go.Returned None)
        end
    end.

(** [contribute]. *)
Definition contribute {W} (s : Service W) (account : option Account)
    (epoch : Epoch) (root : Root) (st : Sys W)
  : Sys W * (BLSSignature * Go.error) :=
  let '(w, (sig, err)) := syncCommitteeRootSigner s (world st) account epoch root in
  let st := emit (CallSignSyncCommitteeRoot account epoch root sig err)
                 (setWorld w st) in
  match err with
  | Some _ => (st, (zeroSignature, err))
  | None => (st, (sig, err))
  end.

(** The signing tasks of [Message], one per validator index.  The code
    runs them as goroutines and appends under a mutex, so the order of
    [msgs] is open; the model runs them in slice order. *)
Fixpoint signAll {W} (s : Service W) (duty : Duty) (beaconBlockRoot : Root)
    (validatorIndices : list ValidatorIndex)
    (msgs : list SyncCommitteeMessage) (st : Sys W)
  : Sys W * list SyncCommitteeMessage :=
  match validatorIndices with
  | [] => (st, msgs)
  | validatorIndex :: rest =>
      let '(st, (sig, err)) :=
        contribute s (accounts duty !! validatorIndex)
          (chainTimeService_SlotToEpoch s (Go.u64 (slot duty + 1)))
          beaconBlockRoot st in
      match err with
      | Some _ => signAll s duty beaconBlockRoot rest msgs st
      | None =>
          let msg := {| msg_Slot := slot duty;
                        msg_BeaconBlockRoot := beaconBlockRoot;
                        msg_ValidatorIndex := validatorIndex;
                        msg_Signature := sig |} in
          signAll s duty beaconBlockRoot rest (msgs ++ [msg]) st
      end
  end.

(** [Message].  The returned slice is [None] when the code returns nil. *)
Definition Message {W} (s : Service W) (data : DutyData) (st : Sys W)
  : Sys W * Go.outcome (option (list SyncCommitteeMessage) * Go.error) :=
  let '(duty, ok) := assertDuty data in
  if negb ok then
    match ValidatorIndices duty with
    | Go.Panicked why => (st, Go.Panicked why)
    | Go.Returned indices =>
        (emit (MetricSyncCommitteeMessagesCompleted 0 (len indices) "failed") st,
         Go.Returned (None, Go.errors_New "passed invalid data structure"))
    end
  else
    (* Fetch the beacon block root. *)
    let '(w, (beaconBlockRoot, err)) :=
      beaconBlockRootProvider s (world st) "head" in
    let st := emit (CallBeaconBlockRoot "head" beaconBlockRoot err)
                   (setWorld w st) in
    match duty with
    | None => (st, Go.Panicked nilDereference)
    | Some d =>
        match err with
        | Some _ =>
            (emit (MetricSyncCommitteeMessagesCompleted (slot d)
                     (len (validatorIndices d)) "failed") st,
             Go.Returned (None, Go.errors_Wrap err
                                  "failed to obtain beacon block root"))
        | None =>
            match beaconBlockRoot with
            | None =>
                (emit (MetricSyncCommitteeMessagesCompleted (slot d)
                         (len (validatorIndices d)) "failed") st,
                 Go.Returned (None, Go.errors_Wrap err
                                      "empty beacon block root obtained"))
            | Some root =>
                let st := aggregator.SetBeaconBlockRoot (slot d) root st in
                (* Sign in parallel. *)
                let validatorIndices := (map_to_list (contributionIndices d)).*1 in
                let '(st, msgs) := signAll s d root validatorIndices [] st in
                let '(w, err) :=
                  syncCommitteeMessagesSubmitter s (world st) msgs in
                let st := emit (CallSubmitSyncCommitteeMessages msgs err)
                               (setWorld w st) in
                match err with
                | Some _ =>
                    (emit (MetricSyncCommitteeMessagesCompleted (slot d)
                             (len msgs) "failed") st,
                     Go.Returned (None, Go.errors_Wrap err
                                    "failed to submit sync committee messages"))
                | None =>
                    (emit (MetricSyncCommitteeMessagesCompleted (slot d)
                             (len msgs) "succeeded") st,
                     Go.Returned (Some msgs, None))
                end
            end
        end
    end.

(** [specUint64]. *)
Definition specUint64 (spec : gmap string SpecValue) (item : string)
  : Z * Go.error :=
  match spec !! item with
  | None => (0, Some (item +:+ " not found in spec"))
  | Some tmp =>
      match tmp with
      | SpecUint64 val => (val, None)
      | SpecOther _ => (0, Some (item +:+ " of unexpected type"))
      end
  end.

(** What [parseAndCheckParameters] hands to [New], as far as [New] uses
    it: the answer of [specProvider.Spec], the process concurrency and the
    collaborators. *)
Record Parameters (W : Type) := {
  p_processConcurrency : Z;
  specProvider_Spec : Go.result (gmap string SpecValue);
  p_chainTimeService_SlotToEpoch : Slot -> Epoch;
  p_beaconBlockRootProvider : W -> string -> W * (option Root * Go.error);
  p_syncCommitteeMessagesSubmitter :
    W -> list SyncCommitteeMessage -> W * Go.error;
  p_syncCommitteeSelectionSigner :
    W -> option Account -> Slot -> Z -> W * (BLSSignature * Go.error);
  p_syncCommitteeRootSigner :
    W -> option Account -> Epoch -> Root -> W * (BLSSignature * Go.error)
}.
Arguments p_processConcurrency {W} _.
Arguments specProvider_Spec {W} _.
Arguments p_chainTimeService_SlotToEpoch {W} _.
Arguments p_beaconBlockRootProvider {W} _.
Arguments p_syncCommitteeMessagesSubmitter {W} _.
Arguments p_syncCommitteeSelectionSigner {W} _.
Arguments p_syncCommitteeRootSigner {W} _.

(** [New]. *)
Definition New {W} (parsed : Go.result (Parameters W))
  : option (Service W) * Go.error :=
  match parsed with
  | Go.Err e => (None, Go.errors_Wrap (Some e) "problem with parameters")
  | Go.Ok parameters =>
      match specProvider_Spec parameters with
      | Go.Err e => (None, Go.errors_Wrap (Some e) "failed to obtain spec")
      | Go.Ok spec =>
          let '(slotsPerEpoch, err) := specUint64 spec "SLOTS_PER_EPOCH" in
          match err with
          | Some _ =>
              (None, Go.errors_Wrap err "failed to obtain SLOTS_PER_EPOCH from spec")
          | None =>
          let '(syncCommitteeSize, err) := specUint64 spec "SYNC_COMMITTEE_SIZE" in
          match err with
          | Some _ =>
              (None, Go.errors_Wrap err
                       "failed to obtain SYNC_COMMITTEE_SIZE from spec")
          | None =>
          let '(syncCommitteeSubnetCount, err) :=
            specUint64 spec "SYNC_COMMITTEE_SUBNET_COUNT" in
          match err with
          | Some _ =>
              (None, Go.errors_Wrap err
                       "failed to obtain SYNC_COMMITTEE_SUBNET_COUNT from spec")
          | None =>
          let '(targetAggregatorsPerSyncCommittee, err) :=
            specUint64 spec "TARGET_AGGREGATORS_PER_SYNC_SUBCOMMITTEE" in
          match err with
          | Some _ =>
              (None, Go.errors_Wrap err
                 "failed to obtain TARGET_AGGREGATORS_PER_SYNC_SUBCOMMITTEE from spec")
          | None =>
              (Some {| processConcurrency := p_processConcurrency parameters;
                       slotsPerEpoch := slotsPerEpoch;
                       syncCommitteeSize := syncCommitteeSize;
                       syncCommitteeSubnetCount := syncCommitteeSubnetCount;
                       targetAggregatorsPerSyncCommittee :=
                         targetAggregatorsPerSyncCommittee;
                       chainTimeService_SlotToEpoch :=
                         p_chainTimeService_SlotToEpoch parameters;
                       beaconBlockRootProvider :=
                         p_beaconBlockRootProvider parameters;
                       syncCommitteeMessagesSubmitter :=
                         p_syncCommitteeMessagesSubmitter parameters;
                       syncCommitteeSelectionSigner :=
                         p_syncCommitteeSelectionSigner parameters;
                       syncCommitteeRootSigner :=
                         p_syncCommitteeRootSigner parameters |}, None)
          end end end end
      end
  end.

End messenger.

(* ===================================================================== *)
(** ** services/blockrelay/standard: the relay auction *)
(* ===================================================================== *)

Module blockrelay.

(** A [builderspec.VersionedSignedBuilderBid], seen through the accessors
    the auction calls; each one can fail. *)
Record VersionedSignedBuilderBid := {
  IsEmpty : bool;
  Value : Go.result Z;
  FeeRecipient : Go.result (list Z);
  Timestamp : Go.result Z;
  MessageHashTreeRoot : Go.result Root;
  HeaderHashTreeRoot : Go.result Root;
  Signature : Go.result BLSSignature;
  MarshalJSON : Go.result (list Z)
}.

(** A [builderclient.BuilderBidProvider]. *)
Record BuilderBidProvider := {
  Address : string;
  Pubkey : option BLSPubKey;
  BuilderBid :
    Slot -> list Z -> BLSPubKey -> Go.result (option VersionedSignedBuilderBid)
}.

(** A builder client, and whether it supplies builder bids. *)
Record BuilderClient := {
  asBuilderBidProvider : option BuilderBidProvider
}.

(** [beaconblockproposer.RelayConfig]; [MinValue] is [MinValue.BigInt()],
    [Grace] a duration. *)
Record RelayConfig := {
  relay_Address : string;
  PublicKey : option BLSPubKey;
  MinValue : Z;
  Grace : Z
}.

(** The relay configuration with its public key replaced. *)
Definition withPublicKey (k : option BLSPubKey)
    (relayConfig : RelayConfig)
  : RelayConfig :=
  {| relay_Address := relay_Address relayConfig;
     PublicKey := k;
     MinValue := MinValue relayConfig;
     Grace := Grace relayConfig |}.

Record ProposerConfig := {
  Relays : list RelayConfig
}.

(** The BLS library (go-eth2-types) and the SSZ hash of [phase0.SigningData]. *)
Record Crypto := {
  BLSPublicKeyFromBytes : list Z -> Go.result (list Z);
  BLSSignatureFromBytes : list Z -> Go.result (list Z);
  SigningData_HashTreeRoot : Root -> list Z -> Go.result Root;
  Verify : list Z -> Root -> list Z -> bool
}.

(** The fields of [Service] the auction reads.  [relayPubkeys], the
    memoised public keys, is mutable and threaded through the calls. *)
Record Service := {
  timeout : Z;
  traceEnabled : bool;
  applicationBuilderDomain : list Z;
  chainTime_StartOfSlot : Slot -> Z;
  crypto : Crypto;
  FetchBuilderClient : string -> Go.result BuilderClient
}.

Record builderBidResponse := {
  provider : BuilderBidProvider;
  bid : option VersionedSignedBuilderBid;
  score : Z
}.

(** [blockauctioneer.Results]. *)
Record Results := {
  Bid : option VersionedSignedBuilderBid;
  Providers : list BuilderBidProvider;
  Values : gmap string Z
}.

Definition zeroExecutionAddress : list Z := repeat 0 20%nat.

(** [bytes.Equal]. *)
Definition bytes_Equal (a b : list Z) : bool := bool_decide (a = b).

(** [bidsEqual]. *)
Definition bidsEqual (bid1 bid2 : VersionedSignedBuilderBid) : bool :=
  match HeaderHashTreeRoot bid1 with
  | Go.Err _ => false
  | Go.Ok bid1Root =>
      match HeaderHashTreeRoot bid2 with
      | Go.Err _ => false
      | Go.Ok bid2Root => bytes_Equal bid1Root bid2Root
      end
  end.

(** [verifyBidSignature]; returns the updated [relayPubkeys] as well. *)
Definition verifyBidSignature (s : Service)
    (relayPubkeys : gmap (list Z) (list Z))
    (relayConfig : RelayConfig) (bid : VersionedSignedBuilderBid)
    (provider : BuilderBidProvider)
  : gmap (list Z) (list Z) * (bool * Go.error) :=
  let relayPubkey :=
    match PublicKey relayConfig with
    | None => Pubkey provider   (* Try to fetch directly from the provider. *)
    | Some k => Some k
    end in
  match relayPubkey with
  | None => (relayPubkeys, (true, None))
  | Some relayPubkey =>
      let parsed :=
        match relayPubkeys !! relayPubkey with
        | Some pubkey => (relayPubkeys, Go.Ok pubkey)
        | None =>
            match BLSPublicKeyFromBytes (crypto s) relayPubkey with
            | Go.Err e => (relayPubkeys, Go.Err e)
            | Go.Ok pubkey => (<[relayPubkey := pubkey]> relayPubkeys, Go.Ok pubkey)
            end
        end in
      match parsed with
      | (relayPubkeys, Go.Err e) =>
          (relayPubkeys,
           (false, Go.errors_Wrap (Some e) "invalid public key supplied with bid"))
      | (relayPubkeys, Go.Ok pubkey) =>
          match MessageHashTreeRoot bid with
          | Go.Err e =>
              (relayPubkeys,
               (false, Go.errors_Wrap (Some e) "failed to hash bid message"))
          | Go.Ok dataRoot =>
              match SigningData_HashTreeRoot (crypto s) dataRoot
                      (applicationBuilderDomain s) with
              | Go.Err e =>
                  (relayPubkeys,
                   (false, Go.errors_Wrap (Some e) "failed to hash signing data"))
              | Go.Ok signingRoot =>
                  match Signature bid with
                  | Go.Err e =>
                      (relayPubkeys,
                       (false, Go.errors_Wrap (Some e)
                                 "failed to obtain bid signature"))
                  | Go.Ok bidSig =>
                      match BLSSignatureFromBytes (crypto s) bidSig with
                      | Go.Err e =>
                          (relayPubkeys,
                           (false, Go.errors_Wrap (Some e) "invalid signature"))
                      | Go.Ok sig =>
                          (relayPubkeys,
                           (Verify (crypto s) sig signingRoot pubkey, None))
                      end
                  end
              end
          end
      end
  end.

(** What a relay task leaves on one of the two channels. *)
Inductive sent :=
| OnRespCh (resp : builderBidResponse)
| OnErrCh (err : string).

(** [builderBid]: one task per launched relay; it sends exactly one message.
    The grace sleep is not modelled, and the error texts leave out the
    numbers the code formats into them. *)
Definition builderBid (s : Service) (relayPubkeys : gmap (list Z) (list Z))
    (provider : BuilderBidProvider) (slot : Slot) (parentHash : list Z)
    (pubkey : BLSPubKey) (relayConfig : RelayConfig)
  : gmap (list Z) (list Z) * sent :=
  match BuilderBid provider slot parentHash pubkey with
  | Go.Err e => (relayPubkeys, OnErrCh (Address provider +:+ ": " +:+ e))
  | Go.Ok None =>
      (relayPubkeys,
       OnRespCh {| provider := provider; bid := None; score := 0 |})
  | Go.Ok (Some builderBid) =>
      match (if traceEnabled s then MarshalJSON builderBid else Go.Ok []) with
      | Go.Err e => (relayPubkeys, OnErrCh (Address provider +:+ ": " +:+ e))
      | Go.Ok _ =>
          if IsEmpty builderBid then
            (relayPubkeys, OnErrCh (Address provider +:+ ": builder bid empty"))
          else
            match Value builderBid with
            | Go.Err _ =>
                (relayPubkeys, OnErrCh (Address provider +:+ ": invalid value"))
            | Go.Ok value =>
                if value =? 0 then
                  (relayPubkeys, OnErrCh (Address provider +:+ ": zero value"))
                else if value <? MinValue relayConfig then
                  (relayPubkeys,
                   OnRespCh {| provider := provider; bid := None; score := 0 |})
                else
                  match FeeRecipient builderBid with
                  | Go.Err e =>
                      (relayPubkeys,
                       OnErrCh (Address provider +:+ ": fee recipient: " +:+ e))
                  | Go.Ok feeRecipient =>
                      if bytes_Equal feeRecipient zeroExecutionAddress then
                        (relayPubkeys,
                         OnErrCh (Address provider +:+ ": zero fee recipient"))
                      else
                        match Timestamp builderBid with
                        | Go.Err e =>
                            (relayPubkeys,
                             OnErrCh (Address provider +:+ ": timestamp: " +:+ e))
                        | Go.Ok timestamp =>
                            if negb (Go.u64 (chainTime_StartOfSlot s slot)
                                     =? timestamp) then
                              (relayPubkeys,
                               OnErrCh (Address provider
                                        +:+ ": provided timestamp not expected"))
                            else
                              match verifyBidSignature s relayPubkeys
                                      relayConfig builderBid provider with
                              | (relayPubkeys, (_, Some e)) =>
                                  (relayPubkeys,
                                   OnErrCh ("error verifying bid signature: "
                                            +:+ e))
                              | (relayPubkeys, (false, None)) =>
                                  (relayPubkeys,
                                   OnErrCh (Address provider
                                            +:+ ": invalid signature"))
                              | (relayPubkeys, (true, None)) =>
                                  (relayPubkeys,
                                   OnRespCh {| provider := provider;
                                               bid := Some builderBid;
                                               score := value |})
                              end
                        end
                  end
            end
      end
  end.

(** The relays for which a task is launched: those whose builder client
    is obtained and supplies builder bids.  The others are logged and
    skipped ("Error but continue"). *)
Fixpoint launch (s : Service) (relays : list RelayConfig)
  : list (BuilderBidProvider * RelayConfig) :=
  match relays with
  | [] => []
  | relay :: rest =>
      match FetchBuilderClient s (relay_Address relay) with
      | Go.Err _ => launch s rest
      | Go.Ok builderClient =>
          match asBuilderBidProvider builderClient with
          | None => launch s rest
          | Some provider => (provider, relay) :: launch s rest
          end
      end
  end.

(** The messages the launched tasks send, in launch order. *)
Fixpoint taskMessages (s : Service) (relayPubkeys : gmap (list Z) (list Z))
    (slot : Slot) (parentHash : list Z) (pubkey : BLSPubKey)
    (tasks : list (BuilderBidProvider * RelayConfig)) : list sent :=
  match tasks with
  | [] => []
  | (provider, relay) :: rest =>
      let '(relayPubkeys, m) :=
        builderBid s relayPubkeys provider slot parentHash pubkey relay in
      m :: taskMessages s relayPubkeys slot parentHash pubkey rest
  end.

(** One outcome of a [select] of the fan-in loops: a response, an error,
    or the deadline the loop listens to (the soft one in loop 1, the hard
    one in loop 2). *)
Inductive selected :=
| FromRespCh (resp : builderBidResponse)
| FromErrCh (err : string)
| CtxDone.

Definition received (m : sent) : selected :=
  match m with
  | OnRespCh resp => FromRespCh resp
  | OnErrCh err => FromErrCh err
  end.

(** The local variables of [bestBuilderBid] that the loops update. *)
Record tally := {
  responded : Z;
  errored : Z;
  timedOut : Z;
  softTimedOut : Z;
  bestScore : Z;
  res : Results
}.

Definition initial : tally :=
  {| responded := 0; errored := 0; timedOut := 0; softTimedOut := 0;
     bestScore := 0;
     res := {| Bid := None; Providers := []; Values := ∅ |} |}.

(** The [case resp := <-respCh] arm, the same in both loops. *)
Definition onResponse (t : tally) (resp : builderBidResponse) : tally :=
  let responded := responded t + 1 in
  match bid resp with
  | None =>
      (* the bid was ineligible: continue *)
      {| responded := responded; errored := errored t; timedOut := timedOut t;
         softTimedOut := softTimedOut t; bestScore := bestScore t;
         res := res t |}
  | Some respBid =>
      let '(bestBid, bestScore, providers) :=
        if score resp >? bestScore t then
          (Some respBid, score resp, [provider resp])
        else if match Bid (res t) with
                | Some resBid =>
                    (score resp =? bestScore t) && bidsEqual resBid respBid
                | None => false
                end then
          (Bid (res t), bestScore t, Providers (res t) ++ [provider resp])
        else
          (Bid (res t), bestScore t, Providers (res t)) in
      {| responded := responded; errored := errored t; timedOut := timedOut t;
         softTimedOut := softTimedOut t; bestScore := bestScore;
         res := {| Bid := bestBid; Providers := providers;
                   Values := <[Address (provider resp) := score resp]>
                               (Values (res t)) |} |}
  end.

(** The [case err := <-errCh] arm. *)
Definition onError (t : tally) : tally :=
  {| responded := responded t; errored := errored t + 1;
     timedOut := timedOut t; softTimedOut := softTimedOut t;
     bestScore := bestScore t; res := res t |}.

(** The [case <-softCtx.Done()] arm of loop 1. *)
Definition onSoftTimeout (requests : Z) (t : tally) : tally :=
  let timedOut :=
    if responded t >? 0 then requests - responded t - errored t
    else timedOut t in
  {| responded := responded t; errored := errored t; timedOut := timedOut;
     softTimedOut := requests - responded t - errored t - timedOut;
     bestScore := bestScore t; res := res t |}.

(** The [case <-ctx.Done()] arm of loop 2. *)
Definition onHardTimeout (requests : Z) (t : tally) : tally :=
  {| responded := responded t; errored := errored t;
     timedOut := requests - responded t - errored t;
     softTimedOut := softTimedOut t; bestScore := bestScore t; res := res t |}.

Definition step1 (requests : Z) (t : tally) (ev : selected) : tally :=
  match ev with
  | FromRespCh resp => onResponse t resp
  | FromErrCh _ => onError t
  | CtxDone => onSoftTimeout requests t
  end.

Definition step2 (requests : Z) (t : tally) (ev : selected) : tally :=
  match ev with
  | FromRespCh resp => onResponse t resp
  | FromErrCh _ => onError t
  | CtxDone => onHardTimeout requests t
  end.

(** Loop 1, driven by the outcomes of its selects.  [None]: the select
    blocks, nothing more arrives.  Otherwise the tally at exit and the
    outcomes not consumed. *)
Fixpoint loop1 (requests : Z) (t : tally) (sel : list selected)
  : option (tally * list selected) :=
  if negb (responded t + errored t + timedOut t + softTimedOut t =? requests)
  then match sel with
       | [] => None
       | ev :: rest => loop1 requests (step1 requests t ev) rest
       end
  else Some (t, sel).

(** Loop 2. *)
Fixpoint loop2 (requests : Z) (t : tally) (sel : list selected)
  : option (tally * list selected) :=
  if negb (responded t + errored t + timedOut t =? requests)
  then match sel with
       | [] => None
       | ev :: rest => loop2 requests (step2 requests t ev) rest
       end
  else Some (t, sel).

(** How a call of [bestBuilderBid] stands once the given select outcomes
    are used up. *)
Inductive auction :=
| Waiting
| Finished (result : option Results) (unread : list selected).

(** [bestBuilderBid], from the wait for the responses on: [requests] is
    the expected number of responders, [sel] what the selects yield.  The
    result is nil when no bid won.  Logging and the [monitorAuctionBlock]
    calls are not modelled. *)
Definition fanIn (requests : Z) (sel : list selected) : auction :=
  match loop1 requests initial sel with
  | None => Waiting
  | Some (t, sel) =>
      match loop2 requests t sel with
      | None => Waiting
      | Some (t, sel) =>
          match Bid (res t) with
          | None => Finished None sel
          | Some _ => Finished (Some (res t)) sel
          end
      end
  end.

(** The select outcomes of a run: [order] lists, in the order the selects
    see them, the launched task whose message arrives ([Some i], the i-th
    task of [launch]) or the firing of the deadline ([None]). *)
Definition arrivals (msgs : list sent) (order : list (option nat))
  : list selected :=
  omap (fun o => match o with
                 | None => Some CtxDone
                 | Some i => received <$> msgs !! i
                 end) order.

(** [bestBuilderBid].  [relayPubkeys] is the memoised key map at the time
    of the call, [order] the interleaving of task messages and deadlines
    that the run meets. *)
Definition bestBuilderBid (s : Service)
    (relayPubkeys : gmap (list Z) (list Z)) (slot : Slot)
    (parentHash : list Z) (pubkey : BLSPubKey)
    (proposerConfig : ProposerConfig) (order : list (option nat))
  : auction :=
  let requests := len (Relays proposerConfig) in
  (* Kick off the requests. *)
  let tasks := launch s (Relays proposerConfig) in
  let msgs := taskMessages s relayPubkeys slot parentHash pubkey tasks in
  (* Wait for all responses (or context done). *)
  fanIn requests (arrivals msgs order).

(** *** [AuctionBlock] *)

(** One lower-case hexadecimal digit. *)
Definition hexDigit (n : Z) : Ascii.ascii :=
  default Ascii.zero (String.get (Z.to_nat n) "0123456789abcdef").

(** [fmt.Sprintf("%x", b)] of a byte array: two digits for each byte. *)
Fixpoint hex (b : list Z) : string :=
  match b with
  | [] => ""
  | x :: rest => String (hexDigit (x / 16)) (String (hexDigit (x mod 16)) (hex rest))
  end.

(** A byte of a Go byte array. *)
Definition isByte (x : Z) : Prop := 0 <= x < 256.

(** The two keys of a cell of [builderBidsCache]: [fmt.Sprintf("%d", slot)]
    and [fmt.Sprintf("%x:%x", parentHash, pubkey)]. *)
Definition cacheKey (slot : Slot) : string := pretty slot.

Definition cacheSubKey (parentHash : list Z) (pubkey : BLSPubKey) : string :=
  hex parentHash +:+ ":" +:+ hex pubkey.

(** What [AuctionBlock] uses of [Service] besides the auction itself: the
    accounts provider, the execution configuration (with the fallback fee
    recipient and gas limit applied), and [strings.ToLower]. *)
Record Proposers := {
  accountsProvider_AccountByPublicKey : BLSPubKey -> Go.result Account;
  executionConfig_ProposerConfig : Account -> BLSPubKey -> Go.result ProposerConfig;
  logResults : bool;
  strings_ToLower : string -> string
}.

(** The state [AuctionBlock] changes: the cache of winning bids, the number
    of read locks held on [executionConfigMu], and the
    [monitorBuilderBidDelta] calls made (provider, delta). *)
Record AuctionState := {
  builderBidsCache : gmap string (gmap string VersionedSignedBuilderBid);
  executionConfigReaders : nat;
  builderBidDeltas : list (string * Z)
}.

Definition rLock (st : AuctionState) : AuctionState :=
  {| builderBidsCache := builderBidsCache st;
     executionConfigReaders := S (executionConfigReaders st);
     builderBidDeltas := builderBidDeltas st |}.

Definition rUnlock (st : AuctionState) : AuctionState :=
  {| builderBidsCache := builderBidsCache st;
     executionConfigReaders := pred (executionConfigReaders st);
     builderBidDeltas := builderBidDeltas st |}.

(** [s.builderBidsCache[key][subKey] = bid], creating the inner map when
    the slot has none. *)
Definition cacheBid (key subKey : string) (b : VersionedSignedBuilderBid)
    (st : AuctionState) : AuctionState :=
  {| builderBidsCache :=
       <[key := <[subKey := b]> (default ∅ (builderBidsCache st !! key))]>
         (builderBidsCache st);
     executionConfigReaders := executionConfigReaders st;
     builderBidDeltas := builderBidDeltas st |}.

(** The metrics loop over [res.Values]: a delta is reported for every
    provider that is not among the selected ones. *)
Fixpoint reportDeltas (p : Proposers) (selectedProviders : gset string)
    (val : Z) (values : list (string * Z)) (st : AuctionState) : AuctionState :=
  match values with
  | [] => st
  | (provider, value) :: rest =>
      let delta := val - value in
      let isSelected :=
        bool_decide (strings_ToLower p provider ∈ selectedProviders) in
      let st :=
        if negb isSelected
        then {| builderBidsCache := builderBidsCache st;
                executionConfigReaders := executionConfigReaders st;
                builderBidDeltas := builderBidDeltas st ++ [(provider, delta)] |}
        else st in
      reportDeltas p selectedProviders val rest st
  end.

(** How a call of [AuctionBlock] stands once the select outcomes of its
    auction are used up. *)
Inductive auctioned :=
| AuctionWaiting
| AuctionPanicked (why : string)
| AuctionReturned (st : AuctionState) (results : option Results) (err : Go.error).

(** [AuctionBlock]. *)
Definition AuctionBlock (s : Service) (p : Proposers)
    (relayPubkeys : gmap (list Z) (list Z)) (st : AuctionState)
    (slot : Slot) (parentHash : list Z) (pubkey : BLSPubKey)
    (order : list (option nat)) : auctioned :=
  match accountsProvider_AccountByPublicKey p pubkey with
  | Go.Err _ =>
      AuctionReturned st None (Go.errors_New "no account found for public key")
  | Go.Ok account =>
      let st := rLock st in
      match executionConfig_ProposerConfig p account pubkey with
      | Go.Err e =>
          AuctionReturned st None
            (Go.errors_Wrap (Some e) "failed to obtain proposer configuration")
      | Go.Ok proposerConfig =>
          let st := rUnlock st in
          if len (Relays proposerConfig) =? 0 then AuctionReturned st None None
          else
            match bestBuilderBid s relayPubkeys slot parentHash pubkey
                    proposerConfig order with
            | Waiting => AuctionWaiting
            | Finished None _ => AuctionReturned st None None
            | Finished (Some res) _ =>
                let st :=
                  match Bid res with
                  | Some b =>
                      cacheBid (cacheKey slot) (cacheSubKey parentHash pubkey) b st
                  | None => st
                  end in
                let selectedProviders : gset string :=
                  list_to_set
                    (map (fun provider => strings_ToLower p (Address provider))
                       (Providers res)) in
                (* Update metrics. *)
                match Bid res with
                | None =>
                    (* res.Bid.Value() through a nil pointer *)
                    AuctionPanicked synccommitteemessenger.nilDereference
                | Some b =>
                    match Value b with
                    | Go.Err _ => AuctionReturned st (Some res) None
                    | Go.Ok val =>
                        AuctionReturned
                          (reportDeltas p selectedProviders val
                             (map_to_list (Values res)) st)
                          (Some res) None
                    end
                end
            end
      end
  end.

End blockrelay.

(* ===================================================================== *)
(** ** services/accountmanager/wallet: validating accounts *)
(* ===================================================================== *)

Module wallet.

(** [api.ValidatorState] of go-eth2-client. *)
Inductive ValidatorState :=
| ValidatorStateUnknown
| ValidatorStatePendingInitialized
| ValidatorStatePendingQueued
| ValidatorStateActiveOngoing
| ValidatorStateActiveExiting
| ValidatorStateActiveSlashed
| ValidatorStateExitedUnslashed
| ValidatorStateExitedSlashed
| ValidatorStateWithdrawalPossible
| ValidatorStateWithdrawalDone.

#[export] Instance ValidatorState_eq_dec : EqDecision ValidatorState.
Proof. solve_decision. Defined.

Definition allStates : list ValidatorState :=
  [ ValidatorStateUnknown; ValidatorStatePendingInitialized;
    ValidatorStatePendingQueued; ValidatorStateActiveOngoing;
    ValidatorStateActiveExiting; ValidatorStateActiveSlashed;
    ValidatorStateExitedUnslashed; ValidatorStateExitedSlashed;
    ValidatorStateWithdrawalPossible; ValidatorStateWithdrawalDone ].

(** [strings.ToLower(state.String())]. *)
Definition stateName (state : ValidatorState) : string :=
  match state with
  | ValidatorStateUnknown => "unknown"
  | ValidatorStatePendingInitialized => "pending_initialized"
  | ValidatorStatePendingQueued => "pending_queued"
  | ValidatorStateActiveOngoing => "active_ongoing"
  | ValidatorStateActiveExiting => "active_exiting"
  | ValidatorStateActiveSlashed => "active_slashed"
  | ValidatorStateExitedUnslashed => "exited_unslashed"
  | ValidatorStateExitedSlashed => "exited_slashed"
  | ValidatorStateWithdrawalPossible => "withdrawal_possible"
  | ValidatorStateWithdrawalDone => "withdrawal_done"
  end.

(** [phase0.Validator]. *)
Record Validator := {
  PublicKey : BLSPubKey;
  ActivationEligibilityEpoch : Epoch;
  ActivationEpoch : Epoch;
  ExitEpoch : Epoch;
  WithdrawableEpoch : Epoch;
  Slashed : bool;
  EffectiveBalance : Z
}.

(** The fields of [Service] that the two queries read, with the
    collaborators as functions.  A nil [*phase0.Validator] is [None]. *)
Record Service := {
  accounts : gmap (list Z) Account;
  farFutureEpoch : Epoch;
  validatorsManager_ValidatorsByPubKey :
    list BLSPubKey -> gmap Z (option Validator);
  currentEpochProvider_CurrentEpoch : Epoch;
  (** [api.ValidatorToState] of go-eth2-client. *)
  api_ValidatorToState : option Validator -> Epoch -> Epoch -> ValidatorState
}.

Definition isValidating (state : ValidatorState) : bool :=
  bool_decide (state = ValidatorStateActiveOngoing)
  || bool_decide (state = ValidatorStateActiveExiting).

(** [stateCount[state]++] on a [map[api.ValidatorState]uint64]. *)
Definition increment (stateCount : ValidatorState -> Z) (state : ValidatorState)
    (by_ : Z) : ValidatorState -> Z :=
  fun st => if bool_decide (st = state) then Go.u64 (stateCount st + by_)
            else stateCount st.

(** The loop of [ValidatingAccountsForEpoch] over the validators map, in
    the order the iteration yields its entries. *)
Fixpoint forEpochLoop (s : Service) (epoch : Epoch)
    (validators : list (ValidatorIndex * option Validator))
    (validatingAccounts : gmap Z (option Account))
    (stateCount : ValidatorState -> Z)
  : Go.outcome (gmap Z (option Account) * (ValidatorState -> Z)) :=
  match validators with
  | [] => Go.Returned (validatingAccounts, stateCount)
  | (index, validator) :: rest =>
      let state := api_ValidatorToState s validator epoch (farFutureEpoch s) in
      let stateCount := increment stateCount state 1 in
      if isValidating state then
        match validator with
        | None => Go.Panicked synccommitteemessenger.nilDereference
        | Some v =>
            match accounts s !! PublicKey v with
            | None =>
                (* account.Name() on a nil interface, for the trace line *)
                Go.Panicked synccommitteemessenger.nilDereference
            | Some account =>
                forEpochLoop s epoch rest
                  (<[index := Some account]> validatingAccounts) stateCount
            end
        end
      else forEpochLoop s epoch rest validatingAccounts stateCount
  end.

(** The keys of [s.accounts], as the code collects them. *)
Definition pubKeysOf (s : Service) : list BLSPubKey :=
  (map_to_list (accounts s)).*1.

(** [ValidatingAccountsForEpoch]: the validating accounts, and the
    [monitor.Accounts] calls made (state name, count). *)
Definition ValidatingAccountsForEpoch (s : Service) (epoch : Epoch)
  : Go.outcome (gmap Z (option Account) * list (string * Z)) :=
  let validators := validatorsManager_ValidatorsByPubKey s (pubKeysOf s) in
  '(validatingAccounts, stateCount) ←
    forEpochLoop s epoch (map_to_list validators) ∅ (fun _ => 0);
  (* Update metrics if this is the current epoch. *)
  if epoch =? currentEpochProvider_CurrentEpoch s then
    let stateCount :=
      increment stateCount ValidatorStateUnknown
        (Go.u64 (Z.of_nat (size (accounts s)) - Z.of_nat (size validators))) in
    Go.Returned (validatingAccounts,
                 map (fun state => (stateName state, stateCount state)) allStates)
  else Go.Returned (validatingAccounts, []).

(** The loop of [ValidatingAccountsForEpochByIndex]. *)
Fixpoint byIndexLoop (s : Service) (epoch : Epoch)
    (indexPresenceMap : gset Z)
    (validators : list (ValidatorIndex * option Validator))
    (validatingAccounts : gmap Z (option Account))
  : Go.outcome (gmap Z (option Account)) :=
  match validators with
  | [] => Go.Returned validatingAccounts
  | (index, validator) :: rest =>
      if negb (bool_decide (index ∈ indexPresenceMap)) then
        byIndexLoop s epoch indexPresenceMap rest validatingAccounts
      else
        let state := api_ValidatorToState s validator epoch (farFutureEpoch s) in
        if isValidating state then
          match validator with
          | None => Go.Panicked synccommitteemessenger.nilDereference
          | Some v =>
              byIndexLoop s epoch indexPresenceMap rest
                (<[index := accounts s !! PublicKey v]> validatingAccounts)
          end
        else byIndexLoop s epoch indexPresenceMap rest validatingAccounts
  end.

(** [ValidatingAccountsForEpochByIndex]. *)
Definition ValidatingAccountsForEpochByIndex (s : Service) (epoch : Epoch)
    (indices : list ValidatorIndex) : Go.outcome (gmap Z (option Account)) :=
  let validators := validatorsManager_ValidatorsByPubKey s (pubKeysOf s) in
  let indexPresenceMap : gset Z := list_to_set indices in
  byIndexLoop s epoch indexPresenceMap (map_to_list validators) ∅.

(** *** Loading the accounts *)

(** [strings.Split(s, sep)] for a separator of one character: the pieces
    of [s] between the separators, at least one piece. *)
Fixpoint strings_Split (s : string) (sep : Ascii.ascii) : list string :=
  match s with
  | EmptyString => [""]
  | String c rest =>
      if Ascii.eqb c sep then "" :: strings_Split rest sep
      else match strings_Split rest sep with
           | piece :: pieces => String c piece :: pieces
           | [] => [String c ""]
           end
  end.

(** The separator of account paths, "/". *)
Definition slash : Ascii.ascii := Ascii.ascii_of_nat 47.

(** [strings.HasSuffix]. *)
Fixpoint strings_HasSuffix (s suffix : string) : bool :=
  String.eqb s suffix
  || match s with
     | EmptyString => false
     | String _ rest => strings_HasSuffix rest suffix
     end.

(** [strings.TrimPrefix]. *)
Definition strings_TrimPrefix (s prefix : string) : string :=
  if String.prefix prefix s
  then String.substring (String.length prefix)
         (String.length s - String.length prefix) s
  else s.

(** Package [regexp]: [Compile] returns an error or a regular expression,
    which is held here by its source text; [Match] of a compiled
    expression on a name. *)
Record regexp := {
  regexp_Compile : string -> Go.error;
  regexp_Match : string -> string -> bool
}.

(** [accountPathsToVerificationRegexes]. *)
Fixpoint accountPathsToVerificationRegexes (re : regexp) (paths : list string)
  : list string :=
  match paths with
  | [] => []
  | path :: rest =>
      let parts := strings_Split path slash in
      if (len parts =? 0) || String.eqb (nth 0 parts "") "" then
        (* Invalid path *)
        accountPathsToVerificationRegexes re rest
      else
        let parts := if len parts =? 1 then parts ++ [".*"] else parts in
        let parts := <[1%nat := strings_TrimPrefix (nth 1 parts "") "^"]> parts in
        let specifier :=
          if strings_HasSuffix (nth 1 parts "") "$"
          then "^" +:+ nth 0 parts "" +:+ "/" +:+ nth 1 parts ""
          else "^" +:+ nth 0 parts "" +:+ "/" +:+ nth 1 parts "" +:+ "$" in
        match regexp_Compile re specifier with
        | Some _ =>
            (* Invalid path regex *)
            accountPathsToVerificationRegexes re rest
        | None => specifier :: accountPathsToVerificationRegexes re rest
        end
  end.

(** An account of a wallet, as [fetchAccountsForWallet] uses it: its name,
    its marshalled public key, its marshalled composite public key when it
    is an [AccountCompositePublicKeyProvider], and its [Unlock] when it is an
    [AccountLocker]. *)
Record WalletAccount := {
  account_Name : string;
  account_PublicKey : list Z;
  account_CompositePublicKey : option (list Z);
  account_Unlock : option (list Z -> Go.error)
}.

Record Wallet := {
  wallet_Name : string;
  wallet_Accounts : list WalletAccount
}.

(** A store, with [e2wallet.OpenWallet] of a wallet name in it. *)
Record Store := {
  store_Name : string;
  OpenWallet : string -> Go.result Wallet
}.

(** The fields of [Service] that [refreshAccounts] reads, and the two
    library functions it relies on. *)
Record Keystore := {
  stores : list Store;
  accountPaths : list string;
  passphrases : list (list Z);
  re : regexp;
  bytesutil_ToBytes48 : list Z -> BLSPubKey
}.

(** The name matches one of the verification regexes. *)
Definition verified (k : Keystore) (verificationRegexes : list string)
    (name : string) : bool :=
  existsb (fun verificationRegex => regexp_Match (re k) verificationRegex name)
    verificationRegexes.

(** The account can be unlocked with a known passphrase. *)
Definition unlocked (k : Keystore) (account : WalletAccount) : bool :=
  match account_Unlock account with
  | Some unlock =>
      existsb (fun passphrase => bool_decide (unlock passphrase = None))
        (passphrases k)
  | None => false
  end.

Definition pubKey (account : WalletAccount) : list Z :=
  match account_CompositePublicKey account with
  | Some key => key
  | None => account_PublicKey account
  end.

(** The task [fetchAccountsForWallet] starts for one account (with a
    context that is not cancelled). *)
Definition fetchAccount (k : Keystore) (wallet : Wallet)
    (verificationRegexes : list string)
    (accounts : gmap (list Z) WalletAccount) (account : WalletAccount)
  : gmap (list Z) WalletAccount :=
  (* Ensure the name matches one of our account paths. *)
  let name := wallet_Name wallet +:+ "/" +:+ account_Name account in
  if negb (verified k verificationRegexes name) then accounts
  else
    (* Ensure we can unlock the account with a known passphrase. *)
    if negb (unlocked k account) then accounts
    else <[bytesutil_ToBytes48 k (pubKey account) := account]> accounts.

(** [fetchAccountsForWallet].  The code runs one task per account
    concurrently and writes to the map under a mutex; the model runs them in
    the order of [wallet.Accounts]. *)
Definition fetchAccountsForWallet (k : Keystore) (wallet : Wallet)
    (accounts : gmap (list Z) WalletAccount)
    (verificationRegexes : list string) : gmap (list Z) WalletAccount :=
  fold_left (fetchAccount k wallet verificationRegexes) (wallet_Accounts wallet)
    accounts.

(** Try each store in turn. *)
Fixpoint openFirst (stores : list Store) (name : string) : option Wallet :=
  match stores with
  | [] => None
  | store :: rest =>
      match OpenWallet store name with
      | Go.Ok wallet => Some wallet
      | Go.Err _ => openFirst rest name
      end
  end.

(** Find the relevant wallets. *)
Fixpoint findWallets (k : Keystore) (paths : list string)
    (wallets : gmap string Wallet) : gmap string Wallet :=
  match paths with
  | [] => wallets
  | path :: rest =>
      let pathBits := strings_Split path slash in
      match openFirst (stores k) (nth 0 pathBits "") with
      | Some wallet => findWallets k rest (<[wallet_Name wallet := wallet]> wallets)
      | None => findWallets k rest wallets
      end
  end.

(** [refreshAccounts]: the map it stores in [s.accounts]. *)
Definition refreshAccounts (k : Keystore) : gmap (list Z) WalletAccount :=
  let wallets := findWallets k (accountPaths k) ∅ in
  let verificationRegexes :=
    accountPathsToVerificationRegexes (re k) (accountPaths k) in
  (* Fetch accounts for each wallet. *)
  fold_left
    (fun accounts wallet =>
       fetchAccountsForWallet k wallet accounts verificationRegexes)
    (map_to_list wallets).*2 ∅.

(** [AccountByPublicKey]. *)
Definition AccountByPublicKey (s : Service) (pubkey : BLSPubKey)
  : option Account * Go.error :=
  match accounts s !! pubkey with
  | None => (None, Go.errors_New "not found")
  | Some account => (Some account, None)
  end.

End wallet.

(* ===================================================================== *)
(** ** Reading the log of an aggregation *)
(* ===================================================================== *)

Module aggregation.
Import synccommitteeaggregator altair.

(** The call that submits the batch. *)
Definition isSubmission (e : Event) : bool :=
  match e with
  | CallSubmitSyncCommitteeContributions _ _ => true
  | _ => false
  end.

(** A contribution fetch that failed or came back empty, or a
    contribution-and-proof signing that failed. *)
Definition isPairFailure (e : Event) : bool :=
  match e with
  | CallSyncCommitteeContribution _ _ _ contribution err =>
      match err with
      | Some _ => true
      | None => match contribution with None => true | Some _ => false end
      end
  | CallSignContributionAndProof _ _ _ err =>
      match err with Some _ => true | None => false end
  | _ => false
  end.

(** The fetch of "head" from the beacon node. *)
Definition isHeadFetch (e : Event) : bool :=
  match e with
  | CallBeaconBlockRoot _ _ _ => true
  | _ => false
  end.

(** The beacon block root a contribution was asked for, if [e] is such a
    request. *)
Definition requestedRoot (e : Event) : option Root :=
  match e with
  | CallSyncCommitteeContribution _ _ root _ _ => Some root
  | _ => None
  end.

(** [duty.SelectionProofs[validatorIndex][subcommitteeIndex]]. *)
Definition selectionProofOf (duty : Duty) (validatorIndex : ValidatorIndex)
    (subcommitteeIndex : Z) : BLSSignature :=
  default zeroSignature
    (default ∅ (SelectionProofs duty !! validatorIndex) !! subcommitteeIndex).

(** The (validatorIndex, subcommitteeIndex) pairs with a selection proof, in
    the order the loops of [Aggregate] visit them. *)
Definition pairsOf (duty : Duty) (indices : list ValidatorIndex)
  : list (ValidatorIndex * Z) :=
  flat_map (fun v => map (pair v) (aggregator.subcommitteesOf duty v)) indices.

(** [item] is the signed contribution-and-proof of the pair [p]: it names
    the validator and its selection proof, its contribution was fetched for
    the pair's subcommittee at [root] and its signature was obtained for it,
    both successfully, by calls recorded in [new]. *)
Definition fetchedAndSigned (duty : Duty) (root : Root) (new : list Event)
    (item : SignedContributionAndProof) (p : ValidatorIndex * Z) : Prop :=
  AggregatorIndex (Message item) = p.1
  /\ SelectionProof (Message item) = selectionProofOf duty p.1 p.2
  /\ CallSyncCommitteeContribution (Slot_ duty) p.2 root
       (Some (Contribution (Message item))) None ∈ new
  /\ CallSignContributionAndProof (Accounts duty !! p.1) (Message item)
       (Signature item) None ∈ new.

End aggregation.

(* ===================================================================== *)
(** ** Reading a run of the auction *)
(* ===================================================================== *)

Module auctionlog.
Import blockrelay.

(** The responses among the select outcomes a run consumed. *)
Definition responsesOf (sel : list selected) : list builderBidResponse :=
  omap (fun ev => match ev with FromRespCh resp => Some resp | _ => None end) sel.

(** A select outcome that is a message of a task, not a deadline. *)
Definition isMessage (ev : selected) : bool :=
  match ev with
  | CtxDone => false
  | _ => true
  end.

(** [values] after the responses [seen]: each response that carries a bid
    writes its score under the address of its provider. *)
Definition recorded (seen : list builderBidResponse) : gmap string Z :=
  fold_left (fun m resp =>
               match bid resp with
               | Some _ => <[Address (provider resp) := score resp]> m
               | None => m
               end) seen ∅.

(** The response [resp] carries a bid whose header root is computed and is
    the computed header root of [winning]. *)
Definition sameHeader (winning : VersionedSignedBuilderBid)
    (resp : builderBidResponse) : Prop :=
  exists respBid root,
    bid resp = Some respBid
    /\ HeaderHashTreeRoot winning = Go.Ok root
    /\ HeaderHashTreeRoot respBid = Go.Ok root.

(** What the loops maintain about the winner and the providers list after
    the responses [seen]: without a winning bid the list is empty; with one,
    the list is the provider of the response that brought the winning bid,
    followed by the providers of later responses with the same score and
    the same computed header root; and no bid seen scores higher. *)
Definition selection (seen : list builderBidResponse) (t : tally) : Prop :=
  (forall resp, resp ∈ seen -> is_Some (bid resp) -> score resp <= bestScore t)
  /\ match Bid (res t) with
     | None => Providers (res t) = [] /\ bestScore t = 0
     | Some winning =>
         exists winner others,
           Providers (res t) = provider winner :: map provider others
           /\ winner ∈ seen
           /\ bid winner = Some winning
           /\ score winner = bestScore t
           /\ Forall (fun resp => resp ∈ seen
                                  /\ score resp = bestScore t
                                  /\ sameHeader winning resp) others
     end.

End auctionlog.

(* ===================================================================== *)
(** ** Reading the order of arrival in an auction *)
(* ===================================================================== *)

Module auctionorder.
Import blockrelay.

(** A select outcome that is an error of a task. *)
Definition isError (ev : selected) : bool :=
  match ev with
  | FromErrCh _ => true
  | _ => false
  end.

(** The winner after the responses [seen], by order of arrival: without a
    winning bid no bid seen scored above zero; with one, it is the bid of a
    response that scored above zero, above every bid before it and not below
    any bid after it. *)
Definition firstBest (seen : list builderBidResponse) (t : tally) : Prop :=
  0 <= bestScore t
  /\ match Bid (res t) with
     | None =>
         bestScore t = 0
         /\ forall resp, resp ∈ seen -> is_Some (bid resp) -> score resp <= 0
     | Some winning =>
         exists earlier winner later,
           seen = earlier ++ winner :: later
           /\ bid winner = Some winning
           /\ score winner = bestScore t
           /\ 0 < score winner
           /\ (forall resp, resp ∈ earlier -> is_Some (bid resp) ->
                            score resp < score winner)
           /\ (forall resp, resp ∈ later -> is_Some (bid resp) ->
                            score resp <= score winner)
     end.

End auctionorder.

(* ===================================================================== *)
(** ** Reading the calls and metrics of a handler *)
(* ===================================================================== *)

Module reporting.

(** A call of the monitor. *)
Definition isMetric (e : Event) : bool :=
  match e with
  | MetricSyncCommitteeMessagesCompleted _ _ _
  | MetricSyncCommitteeAggregationsCompleted _ _ _
  | MetricSyncCommitteeAggregationCoverage _ _ => true
  | _ => false
  end.

(** A call of a collaborator that the handlers treat as failed: it
    returned an error, or it returned neither an error nor the root or
    contribution asked for. *)
Definition failedCall (e : Event) : bool :=
  match e with
  | CallBeaconBlockRoot _ root err =>
      match err with
      | Some _ => true
      | None => match root with None => true | Some _ => false end
      end
  | CallSyncCommitteeContribution _ _ _ contribution err =>
      match err with
      | Some _ => true
      | None => match contribution with None => true | Some _ => false end
      end
  | CallSignSyncCommitteeSelection _ _ _ _ err
  | CallSignSyncCommitteeRoot _ _ _ _ err
  | CallSubmitSyncCommitteeMessages _ err
  | CallSignContributionAndProof _ _ _ err
  | CallSubmitSyncCommitteeContributions _ err =>
      match err with Some _ => true | None => false end
  | _ => false
  end.

(** A call of a collaborator that went well. *)
Definition wentWell (e : Event) : bool := negb (isMetric e) && negb (failedCall e).

(** The signing of a sync committee selection. *)
Definition isSelectionSigning (e : Event) : bool :=
  match e with
  | CallSignSyncCommitteeSelection _ _ _ _ _ => true
  | _ => false
  end.

(** The signing of a sync committee root. *)
Definition isRootSigning (e : Event) : bool :=
  match e with
  | CallSignSyncCommitteeRoot _ _ _ _ _ => true
  | _ => false
  end.

End reporting.

(* ===================================================================== *)
(** ** Reading what the messenger leaves in a duty and in its messages *)
(* ===================================================================== *)

Module preparation.
Import synccommitteemessenger altair.

(** [d'] is [d] up to the selection signatures recorded in it. *)
Definition sameDuty (d d' : Duty) : Prop :=
  slot d' = slot d
  /\ validatorIndices d' = validatorIndices d
  /\ contributionIndices d' = contributionIndices d
  /\ accounts d' = accounts d.

(** The selection signature recorded for validator [v] on subcommittee [c]. *)
Definition selectionOf (d : Duty) (v c : Z) : option BLSSignature :=
  aggregatorSubcommittees d !! v ≫= (fun m => m !! c).

(** The modulo of [isAggregator]. *)
Definition modulo {W} (s : messenger.Service W) : Z :=
  let modulo :=
    messenger.syncCommitteeSize s / messenger.syncCommitteeSubnetCount s
    / messenger.targetAggregatorsPerSyncCommittee s in
  if modulo <? 1 then 1 else modulo.

(** The draw of [isAggregator] on a selection signature selects. *)
Definition drawn {W} (s : messenger.Service W) (sig : BLSSignature) : Prop :=
  Go.LittleEndian_Uint64 (firstn 8 (sha256.Sum256 sig)) mod modulo s = 0.

(** One of the divisions of [Prepare] and [isAggregator] has a zero
    divisor. *)
Definition divisorsFail {W} (s : messenger.Service W) : Prop :=
  messenger.syncCommitteeSubnetCount s = 0
  \/ messenger.syncCommitteeSize s / messenger.syncCommitteeSubnetCount s = 0
  \/ messenger.targetAggregatorsPerSyncCommittee s = 0.

(** Validator [v] has a contribution index in the duty. *)
Definition hasContributions (d : Duty) (v : ValidatorIndex) : bool :=
  negb (len (default [] (contributionIndices d !! v)) =? 0).

(** The selection signature [sig] of validator [v] on subcommittee [c] comes
    from the run that logged [new]: [v] has the duty, [c] is the
    subcommittee of one of its contribution indices, the signer returned
    [sig] for the validator's account at the duty's slot, and the draw on
    [sig] selected. *)
Definition signedSelection {W} (s : messenger.Service W) (d : Duty)
    (new : list Event) (v c : Z) (sig : BLSSignature) : Prop :=
  v ∈ validatorIndices d
  /\ (exists contributionIndex,
        contributionIndex ∈ default [] (contributionIndices d !! v)
        /\ c = contributionIndex
               / (messenger.syncCommitteeSize s
                  / messenger.syncCommitteeSubnetCount s))
  /\ CallSignSyncCommitteeSelection (accounts d !! v) (slot d) c sig None ∈ new
  /\ drawn s sig.

(** The message [m] comes from the run that logged [new]: it is for the
    duty's slot and for [root], its validator has contribution indices in
    the duty, and its signature is what the signer returned for the
    validator's account, the epoch of the slot after the duty's, and
    [root]. *)
Definition signedMessage {W} (s : messenger.Service W) (d : Duty)
    (root : Root) (new : list Event) (m : SyncCommitteeMessage) : Prop :=
  msg_Slot m = slot d
  /\ msg_BeaconBlockRoot m = root
  /\ is_Some (contributionIndices d !! msg_ValidatorIndex m)
  /\ CallSignSyncCommitteeRoot (accounts d !! msg_ValidatorIndex m)
       (messenger.chainTimeService_SlotToEpoch s (Go.u64 (slot d + 1))) root
       (msg_Signature m) None ∈ new.

End preparation.

(* ===================================================================== *)
(** ** Reading the accounts of the wallet manager *)
(* ===================================================================== *)

Module loading.
Import wallet.

(** The account of [wallet] passes the two checks of
    [fetchAccountsForWallet]: its name, behind the wallet's, matches one of
    the verification regexes, and one of the known passphrases unlocks it. *)
Definition accepted (k : Keystore) (verificationRegexes : list string)
    (wallet : Wallet) (account : WalletAccount) : Prop :=
  (exists verificationRegex,
      verificationRegex ∈ verificationRegexes
      /\ regexp_Match (re k) verificationRegex
           (wallet_Name wallet +:+ "/" +:+ account_Name account) = true)
  /\ exists unlock passphrase,
      account_Unlock account = Some unlock
      /\ passphrase ∈ passphrases k
      /\ unlock passphrase = None.

(** The sum of the counts of all states. *)
Definition sumCounts (stateCount : ValidatorState -> Z) : Z :=
  foldr (fun state total => stateCount state + total) 0 allStates.

(** The count of the two validating states. *)
Definition activeCount (stateCount : ValidatorState -> Z) : Z :=
  stateCount ValidatorStateActiveOngoing + stateCount ValidatorStateActiveExiting.

End loading.

(* ===================================================================== *)
(** ** Concrete collaborators and inputs used by the examples *)
(* ===================================================================== *)

Module fixtures.

(** A world that only counts the calls made to it. *)
Definition tick (w : nat) : nat := S w.

Definition emptySys : Sys nat :=
  {| world := 0%nat; beaconBlockRoots := ∅; log := [] |}.

Definition headRoot : Root := repeat 7 32%nat.
Definition otherRoot : Root := repeat 9 32%nat.
Definition someSignature : BLSSignature := repeat 0 96%nat.

(** A messenger on mainnet constants (512 / 4 / 16 gives modulo 8) whose
    beacon node answers [root] for "head". *)
Definition messengerWith (root : option Root) : messenger.Service nat :=
  {| messenger.processConcurrency := 1;
     messenger.slotsPerEpoch := 32;
     messenger.syncCommitteeSize := 512;
     messenger.syncCommitteeSubnetCount := 4;
     messenger.targetAggregatorsPerSyncCommittee := 16;
     messenger.chainTimeService_SlotToEpoch := fun slot => slot / 32;
     messenger.beaconBlockRootProvider := fun w _ => (tick w, (root, None));
     messenger.syncCommitteeMessagesSubmitter := fun w _ => (tick w, None);
     messenger.syncCommitteeSelectionSigner :=
       fun w _ _ _ => (tick w, (someSignature, None));
     messenger.syncCommitteeRootSigner :=
       fun w _ _ _ => (tick w, (someSignature, None)) |}.

Definition messengerDuty : synccommitteemessenger.Duty :=
  {| synccommitteemessenger.slot := 100;
     synccommitteemessenger.validatorIndices := [11; 12];
     synccommitteemessenger.contributionIndices := {[ 11 := [3]; 12 := [130] ]};
     synccommitteemessenger.accounts := {[ 11 := "a11"; 12 := "a12" ]};
     synccommitteemessenger.aggregatorSubcommittees := ∅ |}.

Definition someContribution (slot subcommitteeIndex : Z) (root : Root)
  : altair.SyncCommitteeContribution :=
  {| altair.con_Slot := slot;
     altair.con_BeaconBlockRoot := root;
     altair.con_SubcommitteeIndex := subcommitteeIndex;
     altair.con_AggregationBits := [true; false; true; true];
     altair.con_Signature := someSignature |}.

(** An aggregator whose beacon node answers [root] for "head" and has a
    contribution for every subcommittee except [missing]. *)
Definition aggregatorWith (root : option Root) (missing : Z)
  : aggregator.Service nat :=
  {| aggregator.slotsPerEpoch := 32;
     aggregator.syncCommitteeSize := 512;
     aggregator.syncCommitteeSubnetCount := 4;
     aggregator.targetAggregatorsPerSyncSubcommittee := 16;
     aggregator.beaconBlockRootProvider := fun w _ => (tick w, (root, None));
     aggregator.contributionAndProofSigner :=
       fun w _ _ => (tick w, (someSignature, None));
     aggregator.syncCommitteeContributionProvider :=
       fun w slot subcommitteeIndex root =>
         (tick w,
          (if subcommitteeIndex =? missing then None
           else Some (someContribution slot subcommitteeIndex root), None));
     aggregator.syncCommitteeContributionsSubmitter :=
       fun w _ => (tick w, None) |}.

Definition aggregatorDuty : synccommitteeaggregator.Duty :=
  {| synccommitteeaggregator.Slot_ := 100;
     synccommitteeaggregator.ValidatorIndices := [11; 12];
     synccommitteeaggregator.SelectionProofs :=
       {[ 11 := {[ 0 := someSignature ]}; 12 := {[ 1 := someSignature ]} ]};
     synccommitteeaggregator.Accounts := {[ 11 := "a11"; 12 := "a12" ]} |}.

(** A BLS library that parses everything and verifies nothing. *)
Definition strictCrypto : blockrelay.Crypto :=
  {| blockrelay.BLSPublicKeyFromBytes := fun b => Go.Ok b;
     blockrelay.BLSSignatureFromBytes := fun b => Go.Ok b;
     blockrelay.SigningData_HashTreeRoot := fun r d => Go.Ok (r ++ d);
     blockrelay.Verify := fun _ _ _ => false |}.

(** A bid of the given value for slot 100 that passes every check of
    [builderBid] short of the signature; [header] is what
    [HeaderHashTreeRoot] answers. *)
Definition bidOf (value : Z) (header : Go.result Root)
  : blockrelay.VersionedSignedBuilderBid :=
  {| blockrelay.IsEmpty := false;
     blockrelay.Value := Go.Ok value;
     blockrelay.FeeRecipient := Go.Ok (repeat 1 20%nat);
     blockrelay.Timestamp := Go.Ok 1200;
     blockrelay.MessageHashTreeRoot := Go.Ok [1];
     blockrelay.HeaderHashTreeRoot := header;
     blockrelay.Signature := Go.Ok someSignature;
     blockrelay.MarshalJSON := Go.Ok [] |}.

(** A relay client that advertises no public key. *)
Definition relayAt (address : string)
    (answer : Go.result (option blockrelay.VersionedSignedBuilderBid))
  : blockrelay.BuilderBidProvider :=
  {| blockrelay.Address := address;
     blockrelay.Pubkey := None;
     blockrelay.BuilderBid := fun _ _ _ => answer |}.

Definition relayConfigAt (address : string) : blockrelay.RelayConfig :=
  {| blockrelay.relay_Address := address;
     blockrelay.PublicKey := None;
     blockrelay.MinValue := 1;
     blockrelay.Grace := 0 |}.

Definition auctioneer (clients : string -> Go.result blockrelay.BuilderClient)
  : blockrelay.Service :=
  {| blockrelay.timeout := 2000;
     blockrelay.traceEnabled := false;
     blockrelay.applicationBuilderDomain := [0; 0; 0; 1];
     blockrelay.chainTime_StartOfSlot := fun slot => 12 * slot;
     blockrelay.crypto := strictCrypto;
     blockrelay.FetchBuilderClient := clients |}.

Definition twoRelays : blockrelay.ProposerConfig :=
  {| blockrelay.Relays := [relayConfigAt "a"; relayConfigAt "b"] |}.

Definition clientOf (p : blockrelay.BuilderBidProvider)
  : Go.result blockrelay.BuilderClient :=
  Go.Ok {| blockrelay.asBuilderBidProvider := Some p |}.

(** Relay "a" cannot be reached; relay "b" bids 5. *)
Definition unreachableA (address : string) : Go.result blockrelay.BuilderClient :=
  if String.eqb address "a" then Go.Err "no such host"
  else clientOf (relayAt address (Go.Ok (Some (bidOf 5 (Go.Ok headRoot))))).

(** Relay "a" declines (nil bid); relay "b" bids 5. *)
Definition decliningA (address : string) : Go.result blockrelay.BuilderClient :=
  if String.eqb address "a" then clientOf (relayAt address (Go.Ok None))
  else clientOf (relayAt address (Go.Ok (Some (bidOf 5 (Go.Ok headRoot))))).

(** Relay "a" bids 5 with a header whose root cannot be computed; relay
    "b" bids 3. *)
Definition brokenHeaderA (address : string) : Go.result blockrelay.BuilderClient :=
  if String.eqb address "a"
  then clientOf (relayAt address (Go.Ok (Some (bidOf 5 (Go.Err "no header")))))
  else clientOf (relayAt address (Go.Ok (Some (bidOf 3 (Go.Ok headRoot))))).

(** Both relays relay the same block for 5. *)
Definition sameBlock (address : string) : Go.result blockrelay.BuilderClient :=
  clientOf (relayAt address (Go.Ok (Some (bidOf 5 (Go.Ok headRoot))))).

(** A state function in the manner of go-eth2-client's
    [api.ValidatorToState], as an instance for the examples. *)
Definition validatorToState (validator : option wallet.Validator)
    (currentEpoch farFutureEpoch : Epoch) : wallet.ValidatorState :=
  match validator with
  | None => wallet.ValidatorStateUnknown
  | Some v =>
      if currentEpoch <? wallet.ActivationEpoch v then
        if wallet.ActivationEligibilityEpoch v =? farFutureEpoch
        then wallet.ValidatorStatePendingInitialized
        else wallet.ValidatorStatePendingQueued
      else if currentEpoch <? wallet.ExitEpoch v then
        if wallet.ExitEpoch v =? farFutureEpoch
        then wallet.ValidatorStateActiveOngoing
        else if wallet.Slashed v then wallet.ValidatorStateActiveSlashed
        else wallet.ValidatorStateActiveExiting
      else if currentEpoch <? wallet.WithdrawableEpoch v then
        if wallet.Slashed v then wallet.ValidatorStateExitedSlashed
        else wallet.ValidatorStateExitedUnslashed
      else if wallet.EffectiveBalance v =? 0
        then wallet.ValidatorStateWithdrawalDone
        else wallet.ValidatorStateWithdrawalPossible
  end.

Definition farFuture : Epoch := 2 ^ 64 - 1.

Definition validatorWith (key : Z) (activation exit : Epoch) : wallet.Validator :=
  {| wallet.PublicKey := repeat key 48%nat;
     wallet.ActivationEligibilityEpoch := 0;
     wallet.ActivationEpoch := activation;
     wallet.ExitEpoch := exit;
     wallet.WithdrawableEpoch := exit + 256;
     wallet.Slashed := false;
     wallet.EffectiveBalance := 32000000000 |}.

(** Three accounts: validator 1 is active, validator 2 has exited at epoch
    5, validator 3 is activated at epoch 50. *)
Definition walletService : wallet.Service :=
  {| wallet.accounts :=
       {[ repeat 1 48%nat := "w1"; repeat 2 48%nat := "w2"; repeat 3 48%nat := "w3" ]};
     wallet.farFutureEpoch := farFuture;
     wallet.validatorsManager_ValidatorsByPubKey := fun _ =>
       {[ 1 := Some (validatorWith 1 0 farFuture);
          2 := Some (validatorWith 2 0 5);
          3 := Some (validatorWith 3 50 farFuture) ]};
     wallet.currentEpochProvider_CurrentEpoch := 10;
     wallet.api_ValidatorToState := validatorToState |}.

End fixtures.

(* ===================================================================== *)
(** ** Further scenarios *)
(* ===================================================================== *)

Module scenarios.

(** A bid of 5 from relay "a", and the response [builderBid] sends for it. *)
Definition bidA : blockrelay.VersionedSignedBuilderBid :=
  fixtures.bidOf 5 (Go.Ok fixtures.headRoot).

Definition relayA : blockrelay.BuilderBidProvider :=
  fixtures.relayAt "a" (Go.Ok (Some bidA)).

Definition respA : blockrelay.builderBidResponse :=
  {| blockrelay.provider := relayA;
     blockrelay.bid := Some bidA;
     blockrelay.score := 5 |}.

(** A relay configured with a public key. *)
Definition relayKey : list Z := repeat 4 48%nat.

Definition keyedRelay : blockrelay.RelayConfig :=
  {| blockrelay.relay_Address := "a";
     blockrelay.PublicKey := Some relayKey;
     blockrelay.MinValue := 1;
     blockrelay.Grace := 0 |}.

(** [strings.ToLower] on ASCII. *)
Definition lowerChar (c : Ascii.ascii) : Ascii.ascii :=
  let n := Ascii.nat_of_ascii c in
  if (65 <=? n)%nat && (n <=? 90)%nat then Ascii.ascii_of_nat (n + 32) else c.

Fixpoint toLower (s : string) : string :=
  match s with
  | EmptyString => EmptyString
  | String c rest => String (lowerChar c) (toLower rest)
  end.

(** A proposer with an account and the two relays; and one whose proposer
    configuration cannot be obtained. *)
Definition proposers : blockrelay.Proposers :=
  {| blockrelay.accountsProvider_AccountByPublicKey := fun _ => Go.Ok "w1";
     blockrelay.executionConfig_ProposerConfig := fun _ _ => Go.Ok fixtures.twoRelays;
     blockrelay.logResults := false;
     blockrelay.strings_ToLower := toLower |}.

Definition unconfigured : blockrelay.Proposers :=
  {| blockrelay.accountsProvider_AccountByPublicKey := fun _ => Go.Ok "w1";
     blockrelay.executionConfig_ProposerConfig := fun _ _ => Go.Err "no configuration";
     blockrelay.logResults := false;
     blockrelay.strings_ToLower := toLower |}.

Definition idle : blockrelay.AuctionState :=
  {| blockrelay.builderBidsCache := ∅;
     blockrelay.executionConfigReaders := 0;
     blockrelay.builderBidDeltas := [] |}.

(** The chain specification of mainnet, as far as the services read it. *)
Definition mainnet : gmap string SpecValue :=
  {[ "SLOTS_PER_EPOCH" := SpecUint64 32;
     "SYNC_COMMITTEE_SIZE" := SpecUint64 512;
     "SYNC_COMMITTEE_SUBNET_COUNT" := SpecUint64 4;
     "TARGET_AGGREGATORS_PER_SYNC_SUBCOMMITTEE" := SpecUint64 16 ]}.

Definition messengerParameters : messenger.Parameters nat :=
  {| messenger.p_processConcurrency := 1;
     messenger.specProvider_Spec := Go.Ok mainnet;
     messenger.p_chainTimeService_SlotToEpoch := fun slot => slot / 32;
     messenger.p_beaconBlockRootProvider :=
       fun w _ => (fixtures.tick w, (Some fixtures.headRoot, None));
     messenger.p_syncCommitteeMessagesSubmitter := fun w _ => (fixtures.tick w, None);
     messenger.p_syncCommitteeSelectionSigner :=
       fun w _ _ _ => (fixtures.tick w, (fixtures.someSignature, None));
     messenger.p_syncCommitteeRootSigner :=
       fun w _ _ _ => (fixtures.tick w, (fixtures.someSignature, None)) |}.

Definition aggregatorParameters : aggregator.Parameters nat :=
  {| aggregator.specProvider_Spec := Go.Ok mainnet;
     aggregator.p_beaconBlockRootProvider :=
       fun w _ => (fixtures.tick w, (Some fixtures.headRoot, None));
     aggregator.p_contributionAndProofSigner :=
       fun w _ _ => (fixtures.tick w, (fixtures.someSignature, None));
     aggregator.p_syncCommitteeContributionProvider :=
       fun w slot subcommitteeIndex root =>
         (fixtures.tick w,
          (Some (fixtures.someContribution slot subcommitteeIndex root), None));
     aggregator.p_syncCommitteeContributionsSubmitter :=
       fun w _ => (fixtures.tick w, None) |}.

(** A regular expression library that compiles everything and matches a
    name when the specifier is the name between [^] and [$]. *)
Definition literal : wallet.regexp :=
  {| wallet.regexp_Compile := fun _ => None;
     wallet.regexp_Match := fun specifier name =>
       String.eqb specifier ("^" +:+ name +:+ "$") |}.

(** Two accounts of wallet "main": the first unlocks with passphrase [1],
    the second with none. *)
Definition first : wallet.WalletAccount :=
  {| wallet.account_Name := "first";
     wallet.account_PublicKey := repeat 1 48%nat;
     wallet.account_CompositePublicKey := None;
     wallet.account_Unlock :=
       Some (fun passphrase =>
               if bool_decide (passphrase = [1]) then None
               else Some "incorrect passphrase") |}.

Definition second : wallet.WalletAccount :=
  {| wallet.account_Name := "second";
     wallet.account_PublicKey := repeat 2 48%nat;
     wallet.account_CompositePublicKey := None;
     wallet.account_Unlock := Some (fun _ => Some "incorrect passphrase") |}.

Definition main : wallet.Wallet :=
  {| wallet.wallet_Name := "main"; wallet.wallet_Accounts := [first; second] |}.

Definition disk : wallet.Store :=
  {| wallet.store_Name := "filesystem";
     wallet.OpenWallet := fun name =>
       if String.eqb name "main" then Go.Ok main else Go.Err "wallet not found" |}.

Definition keystore : wallet.Keystore :=
  {| wallet.stores := [disk];
     wallet.accountPaths := ["main/first"; "main/second"; "other"];
     wallet.passphrases := [[1]];
     wallet.re := literal;
     wallet.bytesutil_ToBytes48 := fun x => take 48 (x ++ repeat 0 48%nat) |}.

End scenarios.

(* ===================================================================== *)
(** * Properties *)
(* ===================================================================== *)

(** ** The hash and byte-order helpers *)

(** The model of SHA-256 agrees with the FIPS 180-4 test vector for "abc". *)
Example sha256_abc :
  sha256.Sum256 [97; 98; 99] =
  [ 0xba; 0x78; 0x16; 0xbf; 0x8f; 0x01; 0xcf; 0xea; 0x41; 0x41; 0x40; 0xde;
    0x5d; 0xae; 0x22; 0x23; 0xb0; 0x03; 0x61; 0xa3; 0x96; 0x17; 0x7a; 0x9c;
    0xb4; 0x10; 0xff; 0x61; 0xf2; 0x00; 0x15; 0xad ].
Proof. vm_compute. reflexivity. Qed.

(** ... and for the empty message. *)
Example sha256_empty :
  sha256.Sum256 [] =
  [ 0xe3; 0xb0; 0xc4; 0x42; 0x98; 0xfc; 0x1c; 0x14; 0x9a; 0xfb; 0xf4; 0xc8;
    0x99; 0x6f; 0xb9; 0x24; 0x27; 0xae; 0x41; 0xe4; 0x64; 0x9b; 0x93; 0x4c;
    0xa4; 0x95; 0x99; 0x1b; 0x78; 0x52; 0xb8; 0x55 ].
Proof. vm_compute. reflexivity. Qed.

(** Decoding eight bytes little-endian weighs byte [i] by [256^i]. *)
Lemma LittleEndian_Uint64_weights (h : list Z) :
  Go.LittleEndian_Uint64 (firstn 8 h) =
  nth 0 h 0 + nth 1 h 0 * 2 ^ 8 + nth 2 h 0 * 2 ^ 16 + nth 3 h 0 * 2 ^ 24
  + nth 4 h 0 * 2 ^ 32 + nth 5 h 0 * 2 ^ 40 + nth 6 h 0 * 2 ^ 48
  + nth 7 h 0 * 2 ^ 56.
Proof.
  unfold Go.LittleEndian_Uint64.
  do 8 (destruct h as [|? h]; [simpl; lia|]).
  simpl. lia.
Qed.

(** ** Sync-committee messenger *)

Section Messenger.
Context {W : Type}.
Implicit Types (s : messenger.Service W) (st : Sys W).

(** The configured divisors are non-zero exactly when [isAggregator] gets
    past its first statement. *)
Lemma modulo_defined s :
  messenger.syncCommitteeSubnetCount s <> 0 ->
  messenger.targetAggregatorsPerSyncCommittee s <> 0 ->
  (q ← Go.udiv (messenger.syncCommitteeSize s)
               (messenger.syncCommitteeSubnetCount s);
   Go.udiv q (messenger.targetAggregatorsPerSyncCommittee s))
  = Go.Returned (messenger.syncCommitteeSize s
                 / messenger.syncCommitteeSubnetCount s
                 / messenger.targetAggregatorsPerSyncCommittee s).
Proof.
  intros Hsub Htgt. unfold Go.udiv, mbind, outcome_bind, Go.bind.
  destruct (Z.eqb_spec (messenger.syncCommitteeSubnetCount s) 0); [done|].
  destruct (Z.eqb_spec (messenger.targetAggregatorsPerSyncCommittee s) 0); done.
Qed.

(** C4.  With non-zero divisors in the chain configuration, whenever the
    selection signer returns [sig], [isAggregator] returns
    [(n mod modulo == 0, sig)] with no error, where [n] is the first eight
    bytes of SHA-256(sig) read little-endian and [modulo] is
    [max 1 (size / subnets / target)]; when the target exceeds
    [size / subnets] the modulo is 1 and the answer is [true]. *)
Theorem C4_isAggregator_draw s account slot subcommitteeIndex st w sig :
  0 <= messenger.syncCommitteeSize s ->
  0 < messenger.syncCommitteeSubnetCount s ->
  0 < messenger.targetAggregatorsPerSyncCommittee s ->
  messenger.syncCommitteeSelectionSigner s (world st) account slot
    subcommitteeIndex = (w, (sig, None)) ->
  let size := messenger.syncCommitteeSize s in
  let subnets := messenger.syncCommitteeSubnetCount s in
  let target := messenger.targetAggregatorsPerSyncCommittee s in
  let modulo := Z.max 1 (size / subnets / target) in
  let h := sha256.Sum256 sig in
  let n := nth 0 h 0 + nth 1 h 0 * 2 ^ 8 + nth 2 h 0 * 2 ^ 16
           + nth 3 h 0 * 2 ^ 24 + nth 4 h 0 * 2 ^ 32 + nth 5 h 0 * 2 ^ 40
           + nth 6 h 0 * 2 ^ 48 + nth 7 h 0 * 2 ^ 56 in
  (messenger.isAggregator s account slot subcommitteeIndex st).2
    = Go.Returned (n mod modulo =? 0, sig, None)
  /\ (target > size / subnets ->
      modulo = 1 /\
      (messenger.isAggregator s account slot subcommitteeIndex st).2
        = Go.Returned (true, sig, None)).
Proof.
  intros Hsize Hsub Htgt Hsign size subnets target modulo h n.
  assert (Hrun : (messenger.isAggregator s account slot subcommitteeIndex st).2
                 = Go.Returned (n mod modulo =? 0, sig, None)).
  { unfold messenger.isAggregator.
    rewrite modulo_defined by lia. rewrite Hsign.
    unfold messenger.sigHash_Write. rewrite Z.eqb_refl.
    cbn [negb snd emit setWorld].
    rewrite LittleEndian_Uint64_weights.
    fold h. fold n. subst modulo size subnets target.
    destruct (Z.ltb_spec
                (messenger.syncCommitteeSize s
                 / messenger.syncCommitteeSubnetCount s
                 / messenger.targetAggregatorsPerSyncCommittee s) 1).
    - rewrite Z.max_l by lia. reflexivity.
    - rewrite Z.max_r by lia. reflexivity. }
  split; [exact Hrun|].
  intros Hbig.
  assert (Hm : modulo = 1).
  { subst modulo. rewrite Z.div_small; [reflexivity|].
    split; [apply Z.div_pos; lia | lia]. }
  split; [exact Hm|].
  rewrite Hrun, Hm, Z.mod_1_r. reflexivity.
Qed.

(** What [Message] does when the beacon node answers "head" with neither
    a root nor an error. *)
Lemma Message_empty_root s d st w :
  messenger.beaconBlockRootProvider s (world st) "head" = (w, (None, None)) ->
  messenger.Message s (MessengerDuty (Some d)) st =
  (emit (MetricSyncCommitteeMessagesCompleted (synccommitteemessenger.slot d)
           (len (synccommitteemessenger.validatorIndices d)) "failed")
     (emit (CallBeaconBlockRoot "head" None None) (setWorld w st)),
   Go.Returned (None, None)).
Proof. intros Hroot. unfold messenger.Message. cbn. rewrite Hroot. reflexivity. Qed.

(** C9.  A value that is not a messenger duty makes [Prepare] and
    [Message] panic on the nil duty pointer they pass to the failure
    metric: neither returns the "passed invalid data structure" error and
    no metric is recorded. *)
Theorem C9_wrong_type_panics s st description d :
  messenger.Prepare s (OtherData description) st
    = (st, OtherData description,
       Go.Panicked synccommitteemessenger.nilDereference)
  /\ messenger.Message s (OtherData description) st
    = (st, Go.Panicked synccommitteemessenger.nilDereference)
  /\ messenger.Prepare s (AggregatorDuty d) st
    = (st, AggregatorDuty d,
       Go.Panicked synccommitteemessenger.nilDereference)
  /\ messenger.Message s (AggregatorDuty d) st
    = (st, Go.Panicked synccommitteemessenger.nilDereference).
Proof. repeat split. Qed.

End Messenger.

(** C4, on mainnet constants: the all-zero signature is not an aggregator
    draw, since its digest starts with a number that is 6 modulo 8. *)
Lemma C4_isAggregator_draw_witness :
  (0 <= 512 /\ 0 < 4 /\ 0 < 16) /\
  (messenger.isAggregator (fixtures.messengerWith None) (Some "a11") 100 0
     fixtures.emptySys).2
  = Go.Returned (9251468512758311214 mod 8 =? 0, fixtures.someSignature, None).
Proof.
  split; [lia|].
  destruct (C4_isAggregator_draw (fixtures.messengerWith None) (Some "a11")
              100 0 fixtures.emptySys 1%nat fixtures.someSignature)
    as [Hdraw _]; [simpl; lia | simpl; lia | simpl; lia | reflexivity |].
  rewrite Hdraw. vm_compute. reflexivity.
Defined.

(** C2.  The beacon node answers "head" with no root and no error: [Message]
    records the "failed" metric and touches neither the cache, the signers
    nor the submitter, but the error it returns is nil. *)
Theorem C2_Message_empty_root_nil_error :
  messenger.Message (fixtures.messengerWith None)
    (MessengerDuty (Some fixtures.messengerDuty)) fixtures.emptySys
  = ({| world := 1%nat;
        beaconBlockRoots := ∅;
        log := [ CallBeaconBlockRoot "head" None None;
                 MetricSyncCommitteeMessagesCompleted 100 2 "failed" ] |},
     Go.Returned (None, None)).
Proof. reflexivity. Qed.

(** ** Relay caller: bid validation *)

Section RelayCaller.
Import blockrelay.
Implicit Types (s : Service) (relayPubkeys : gmap (list Z) (list Z)).
Implicit Types (relayConfig : RelayConfig) (provider : BuilderBidProvider).
Implicit Types (bid : VersionedSignedBuilderBid).

(** With no key in the configuration and none from the provider the check
    is skipped: verified, no error, nothing memoised. *)
Lemma verifyBidSignature_no_key s relayPubkeys relayConfig bid provider :
  PublicKey relayConfig = None ->
  Pubkey provider = None ->
  verifyBidSignature s relayPubkeys relayConfig bid provider
  = (relayPubkeys, (true, None)).
Proof. intros Hcfg Hprov. unfold verifyBidSignature. rewrite Hcfg, Hprov. reflexivity. Qed.

(** A key in the configuration makes the provider's key irrelevant. *)
Lemma verifyBidSignature_config_key s relayPubkeys relayConfig bid provider provider' k :
  PublicKey relayConfig = Some k ->
  verifyBidSignature s relayPubkeys relayConfig bid provider
  = verifyBidSignature s relayPubkeys relayConfig bid provider'.
Proof. intros Hcfg. unfold verifyBidSignature. rewrite Hcfg. reflexivity. Qed.

(** Without a key in the configuration the provider's key stands in for it. *)
Lemma verifyBidSignature_provider_key s relayPubkeys relayConfig bid provider k :
  PublicKey relayConfig = None ->
  Pubkey provider = Some k ->
  verifyBidSignature s relayPubkeys relayConfig bid provider
  = verifyBidSignature s relayPubkeys (withPublicKey (Some k) relayConfig) bid provider.
Proof. intros Hcfg Hprov. unfold verifyBidSignature. cbn. rewrite Hcfg, Hprov. reflexivity. Qed.

(** When every step up to the pairing check succeeds, the answer is the
    BLS verification under the key parsed from the configured bytes. *)
Lemma verifyBidSignature_checks s relayPubkeys relayConfig bid provider
    k pubkey dataRoot signingRoot bidSig sig :
  PublicKey relayConfig = Some k ->
  relayPubkeys !! k = None ->
  BLSPublicKeyFromBytes (crypto s) k = Go.Ok pubkey ->
  MessageHashTreeRoot bid = Go.Ok dataRoot ->
  SigningData_HashTreeRoot (crypto s) dataRoot (applicationBuilderDomain s)
    = Go.Ok signingRoot ->
  Signature bid = Go.Ok bidSig ->
  BLSSignatureFromBytes (crypto s) bidSig = Go.Ok sig ->
  verifyBidSignature s relayPubkeys relayConfig bid provider
  = (<[k := pubkey]> relayPubkeys, (Verify (crypto s) sig signingRoot pubkey, None)).
Proof.
  intros Hcfg Hmiss Hparse Hroot Hsigning Hsig Hbls. unfold verifyBidSignature.
  rewrite Hcfg, Hmiss, Hparse, Hroot, Hsigning, Hsig, Hbls. reflexivity.
Qed.

(** A bid that passes the checks before the signature check is sent on the
    response channel as soon as the signature check answers "verified". *)
Lemma builderBid_accepts s relayPubkeys relayPubkeys' relayConfig provider
    slot parentHash pubkey bid value feeRecipient :
  BuilderBid provider slot parentHash pubkey = Go.Ok (Some bid) ->
  (traceEnabled s = true -> exists data, MarshalJSON bid = Go.Ok data) ->
  IsEmpty bid = false ->
  Value bid = Go.Ok value ->
  value <> 0 ->
  MinValue relayConfig <= value ->
  FeeRecipient bid = Go.Ok feeRecipient ->
  feeRecipient <> zeroExecutionAddress ->
  Timestamp bid = Go.Ok (Go.u64 (chainTime_StartOfSlot s slot)) ->
  verifyBidSignature s relayPubkeys relayConfig bid provider
    = (relayPubkeys', (true, None)) ->
  builderBid s relayPubkeys provider slot parentHash pubkey relayConfig
  = (relayPubkeys',
     OnRespCh {| provider := provider; bid := Some bid; score := value |}).
Proof.
  intros Hbid Hjson Hempty Hvalue Hnz Hmin Hfee Hfeenz Hts Hverify.
  unfold builderBid. rewrite Hbid.
  assert (Hm : exists data,
             (if traceEnabled s then MarshalJSON bid else Go.Ok []) = Go.Ok data).
  { destruct (traceEnabled s); [apply Hjson; reflexivity | eauto]. }
  destruct Hm as [data ->].
  rewrite Hempty, Hvalue.
  destruct (Z.eqb_spec value 0) as [?|_]; [contradiction|].
  destruct (Z.ltb_spec value (MinValue relayConfig)) as [?|_]; [lia|].
  rewrite Hfee. unfold bytes_Equal. rewrite bool_decide_eq_false_2 by assumption.
  rewrite Hts, Z.eqb_refl. cbn [negb]. rewrite Hverify. reflexivity.
Qed.

(** C7.  [verifyBidSignature] verifies under the key of the relay
    configuration when there is one (whatever the provider advertises),
    otherwise under the provider's key; with neither it skips verification
    and reports the bid as verified with no error, so that a bid passing the
    other checks of [builderBid] is sent on the response channel with its
    value as score. *)
Theorem C7_verifyBidSignature_key_source s relayPubkeys relayConfig bid provider :
  (forall k provider',
      PublicKey relayConfig = Some k ->
      verifyBidSignature s relayPubkeys relayConfig bid provider'
      = verifyBidSignature s relayPubkeys relayConfig bid provider
      /\ forall pubkey dataRoot signingRoot bidSig sig,
          relayPubkeys !! k = None ->
          BLSPublicKeyFromBytes (crypto s) k = Go.Ok pubkey ->
          MessageHashTreeRoot bid = Go.Ok dataRoot ->
          SigningData_HashTreeRoot (crypto s) dataRoot
            (applicationBuilderDomain s) = Go.Ok signingRoot ->
          Signature bid = Go.Ok bidSig ->
          BLSSignatureFromBytes (crypto s) bidSig = Go.Ok sig ->
          verifyBidSignature s relayPubkeys relayConfig bid provider
          = (<[k := pubkey]> relayPubkeys,
             (Verify (crypto s) sig signingRoot pubkey, None)))
  /\ (forall k,
      PublicKey relayConfig = None ->
      Pubkey provider = Some k ->
      verifyBidSignature s relayPubkeys relayConfig bid provider
      = verifyBidSignature s relayPubkeys (withPublicKey (Some k) relayConfig)
          bid provider)
  /\ (PublicKey relayConfig = None ->
      Pubkey provider = None ->
      verifyBidSignature s relayPubkeys relayConfig bid provider
      = (relayPubkeys, (true, None))
      /\ forall slot parentHash pubkey value feeRecipient,
          BuilderBid provider slot parentHash pubkey = Go.Ok (Some bid) ->
          (traceEnabled s = true -> exists data, MarshalJSON bid = Go.Ok data) ->
          IsEmpty bid = false ->
          Value bid = Go.Ok value ->
          value <> 0 ->
          MinValue relayConfig <= value ->
          FeeRecipient bid = Go.Ok feeRecipient ->
          feeRecipient <> zeroExecutionAddress ->
          Timestamp bid = Go.Ok (Go.u64 (chainTime_StartOfSlot s slot)) ->
          builderBid s relayPubkeys provider slot parentHash pubkey relayConfig
          = (relayPubkeys,
             OnRespCh {| provider := provider; bid := Some bid; score := value |})).
Proof.
  split; [|split].
  - intros k provider' Hcfg. split.
    + eapply verifyBidSignature_config_key; eassumption.
    + intros. eapply verifyBidSignature_checks; eassumption.
  - intros k Hcfg Hprov. apply verifyBidSignature_provider_key; assumption.
  - intros Hcfg Hprov.
    pose proof (verifyBidSignature_no_key s relayPubkeys relayConfig bid provider
                  Hcfg Hprov) as Hskip.
    split; [exact Hskip|].
    intros. eapply builderBid_accepts; eassumption.
Qed.

End RelayCaller.

(** C7 at a relay with no key anywhere and a BLS library that verifies
    nothing: the bid of value 5 is still accepted. *)
Lemma C7_verifyBidSignature_key_source_witness :
  blockrelay.verifyBidSignature (fixtures.auctioneer fixtures.decliningA) ∅
    (fixtures.relayConfigAt "b")
    (fixtures.bidOf 5 (Go.Ok fixtures.headRoot))
    (fixtures.relayAt "b" (Go.Ok (Some (fixtures.bidOf 5 (Go.Ok fixtures.headRoot)))))
  = (∅, (true, None))
  /\ blockrelay.builderBid (fixtures.auctioneer fixtures.decliningA) ∅
       (fixtures.relayAt "b" (Go.Ok (Some (fixtures.bidOf 5 (Go.Ok fixtures.headRoot)))))
       100 [] [] (fixtures.relayConfigAt "b")
     = (∅, blockrelay.OnRespCh
             {| blockrelay.provider :=
                  fixtures.relayAt "b"
                    (Go.Ok (Some (fixtures.bidOf 5 (Go.Ok fixtures.headRoot))));
                blockrelay.bid := Some (fixtures.bidOf 5 (Go.Ok fixtures.headRoot));
                blockrelay.score := 5 |}).
Proof.
  destruct (C7_verifyBidSignature_key_source
              (fixtures.auctioneer fixtures.decliningA) ∅
              (fixtures.relayConfigAt "b")
              (fixtures.bidOf 5 (Go.Ok fixtures.headRoot))
              (fixtures.relayAt "b"
                 (Go.Ok (Some (fixtures.bidOf 5 (Go.Ok fixtures.headRoot))))))
    as (_ & _ & Hskip).
  destruct (Hskip eq_refl eq_refl) as [Hverified Hsent].
  split; [exact Hverified|].
  apply (Hsent 100 [] [] 5 (repeat 1 20%nat)); try reflexivity.
  - intros Htrace. discriminate Htrace.
  - lia.
  - simpl. lia.
  - vm_compute. discriminate.
Defined.

(** ** Sync-committee aggregator *)

Section Aggregator.
Context {W : Type}.
Import synccommitteeaggregator altair aggregation.
Implicit Types (s : aggregator.Service W) (st : Sys W) (duty : Duty).
Implicit Types (new : list Event).

Lemma log_emit e st : log (emit e st) = log st ++ [e].
Proof. reflexivity. Qed.

Lemma fetchedAndSigned_mono duty root new new' item p :
  new ⊆ new' ->
  fetchedAndSigned duty root new item p ->
  fetchedAndSigned duty root new' item p.
Proof.
  intros Hsub (Hidx & Hproof & Hfetch & Hsign).
  repeat split; auto.
Qed.

(** What one run of the inner loop appends to the log, and what it leaves
    in the batch. *)
Lemma aggregateSubcommittees_log s duty root v subs :
  forall batch st,
  exists new,
    let r := aggregator.aggregateSubcommittees s duty root v subs batch st in
    log r.1.1 = log st ++ new
    /\ beaconBlockRoots r.1.1 = beaconBlockRoots st
    /\ Forall (fun e => isSubmission e = false /\ isHeadFetch e = false) new
    /\ Forall (fun e => forall r', requestedRoot e = Some r' -> r' = root) new
    /\ match r.2 with
       | Continue =>
           Forall (fun e => isPairFailure e = false) new
           /\ exists items,
               r.1.2 = batch ++ items
               /\ Forall2 (fetchedAndSigned duty root new) items (map (pair v) subs)
       | Return_ _ => Exists (fun e => isPairFailure e = true) new
       end.
Proof.
  induction subs as [|sub rest IH]; intros batch st.
  - exists []. cbn. rewrite app_nil_r.
    repeat split; auto. exists []. rewrite app_nil_r. split; [done|constructor].
  - cbn [aggregator.aggregateSubcommittees].
    destruct (aggregator.syncCommitteeContributionProvider s (world st)
                (Slot_ duty) sub root) as [w [contribution err]].
    set (fetch := CallSyncCommitteeContribution (Slot_ duty) sub root contribution err).
    destruct err as [e|].
    { exists [fetch;
              MetricSyncCommitteeAggregationsCompleted (Slot_ duty)
                (len (ValidatorIndices duty)) "failed"].
      cbn. rewrite <- app_assoc. repeat split.
      - repeat constructor.
      - repeat constructor; cbn; intros r' Hr'; [by inversion Hr' | done].
      - apply Exists_cons_hd. reflexivity. }
    destruct contribution as [contribution|].
    2:{ exists [fetch;
                MetricSyncCommitteeAggregationsCompleted (Slot_ duty)
                  (len (ValidatorIndices duty)) "failed"].
        cbn. rewrite <- app_assoc. repeat split.
        - repeat constructor.
        - repeat constructor; cbn; intros r' Hr'; [by inversion Hr' | done].
        - apply Exists_cons_hd. reflexivity. }
    set (cap := {| AggregatorIndex := v; Contribution := contribution;
                   SelectionProof := _ |}).
    cbn [world emit setWorld].
    destruct (aggregator.contributionAndProofSigner s w (Accounts duty !! v) cap)
      as [w' [sig err]].
    set (sign := CallSignContributionAndProof (Accounts duty !! v) cap sig err).
    destruct err as [e|].
    { exists [fetch; sign;
              MetricSyncCommitteeAggregationsCompleted (Slot_ duty)
                (len (ValidatorIndices duty)) "failed"].
      cbn. rewrite <- !app_assoc. repeat split.
      - repeat constructor.
      - repeat constructor; cbn; intros r' Hr'; [by inversion Hr' | done | done].
      - apply Exists_cons_tl, Exists_cons_hd. reflexivity. }
    match goal with
    | |- context [aggregator.aggregateSubcommittees s duty root v rest ?b ?st'] =>
        destruct (IH b st') as (new & Hlog & Hroots & Hquiet & Hroot & Hflow)
    end.
    exists (fetch :: sign :: new). cbn zeta in *.
    rewrite Hlog, Hroots. cbn. rewrite <- !app_assoc. cbn.
    split; [reflexivity|]. split; [reflexivity|].
    split; [repeat constructor; exact Hquiet|].
    split.
    { repeat constructor; cbn; [intros r' Hr'; by inversion Hr' | done | exact Hroot]. }
    match goal with
    | |- match ?r with _ => _ end => destruct r
    end.
    + destruct Hflow as (Hok & items & Hbatch & Hitems).
      split; [repeat constructor; exact Hok|].
      exists ({| Message := cap; Signature := sig |} :: items).
      split; [rewrite Hbatch, <- app_assoc; reflexivity|].
      constructor.
      * repeat split; cbn; [apply list_elem_of_here | apply list_elem_of_further, list_elem_of_here].
      * eapply Forall2_impl; [exact Hitems|].
        intros item p. apply fetchedAndSigned_mono.
        intros e He. do 2 apply list_elem_of_further. exact He.
    + do 2 apply Exists_cons_tl. exact Hflow.
Qed.

(** The same for the outer loop, over all pairs of the validators given. *)
Lemma aggregateValidators_log s duty root indices :
  forall batch st,
  exists new,
    let r := aggregator.aggregateValidators s duty root indices batch st in
    log r.1.1 = log st ++ new
    /\ beaconBlockRoots r.1.1 = beaconBlockRoots st
    /\ Forall (fun e => isSubmission e = false /\ isHeadFetch e = false) new
    /\ Forall (fun e => forall r', requestedRoot e = Some r' -> r' = root) new
    /\ match r.2 with
       | Continue =>
           Forall (fun e => isPairFailure e = false) new
           /\ exists items,
               r.1.2 = batch ++ items
               /\ Forall2 (fetchedAndSigned duty root new) items
                    (pairsOf duty indices)
       | Return_ _ => Exists (fun e => isPairFailure e = true) new
       end.
Proof.
  induction indices as [|v rest IH]; intros batch st.
  - exists []. cbn. rewrite app_nil_r.
    repeat split; auto. exists []. rewrite app_nil_r. split; [done|constructor].
  - cbn [aggregator.aggregateValidators pairsOf flat_map].
    destruct (aggregateSubcommittees_log s duty root v
                (aggregator.subcommitteesOf duty v) batch st)
      as (new1 & H1).
    destruct (aggregator.aggregateSubcommittees s duty root v
                (aggregator.subcommitteesOf duty v) batch st)
      as [[st1 batch1] [|[]]]; cbn in H1.
    + destruct H1 as (Hlog1 & Hroots1 & Hquiet1 & Hroot1 & Hok1 & items1 & Hbatch1 & Hitems1).
      destruct (IH batch1 st1) as (new2 & H2).
      exists (new1 ++ new2). cbn zeta in *.
      destruct H2 as (Hlog2 & Hroots2 & Hquiet2 & Hroot2 & Hflow2).
      rewrite Hlog2, Hlog1, Hroots2, Hroots1, <- app_assoc.
      split; [reflexivity|]. split; [reflexivity|].
      split; [apply Forall_app; auto|]. split; [apply Forall_app; auto|].
      destruct (aggregator.aggregateValidators s duty root rest batch1 st1).2.
      * destruct Hflow2 as (Hok2 & items2 & Hbatch2 & Hitems2).
        split; [apply Forall_app; auto|].
        exists (items1 ++ items2).
        split; [rewrite Hbatch2, Hbatch1, <- app_assoc; reflexivity|].
        apply Forall2_app.
        -- eapply Forall2_impl; [exact Hitems1|].
           intros item p. apply fetchedAndSigned_mono.
           intros e He. apply elem_of_app. by left.
        -- eapply Forall2_impl; [exact Hitems2|].
           intros item p. apply fetchedAndSigned_mono.
           intros e He. apply elem_of_app. by right.
      * apply Exists_app. by right.
    + exists new1. exact H1.
Qed.

Lemma coverage_log (items : list SignedContributionAndProof) st :
  log (fold_left (fun st x => emit (aggregator.coverage x) st) items st)
  = log st ++ map aggregator.coverage items
  /\ beaconBlockRoots
       (fold_left (fun st x => emit (aggregator.coverage x) st) items st)
     = beaconBlockRoots st.
Proof.
  revert st. induction items as [|x items IH]; intros st; cbn.
  - by rewrite app_nil_r.
  - destruct (IH (emit (aggregator.coverage x) st)) as [-> ->].
    cbn. by rewrite <- app_assoc.
Qed.

(** [Aggregate] from a known root on: either some pair failed and nothing
    is submitted, or no pair failed and exactly one batch is submitted,
    which holds the signed contribution of every pair, in order. *)
Lemma aggregateWithRoot_log s duty root st :
  exists new,
    log (aggregator.aggregateWithRoot s duty root st) = log st ++ new
    /\ beaconBlockRoots (aggregator.aggregateWithRoot s duty root st)
       = beaconBlockRoots st
    /\ Forall (fun e => isHeadFetch e = false) new
    /\ Forall (fun e => forall r', requestedRoot e = Some r' -> r' = root) new
    /\ ((Exists (fun e => isPairFailure e = true) new
         /\ Forall (fun e => isSubmission e = false) new)
        \/ (Forall (fun e => isPairFailure e = false) new
            /\ exists pre batch err post,
                new = pre ++ CallSubmitSyncCommitteeContributions batch err :: post
                /\ Forall (fun e => isSubmission e = false) pre
                /\ Forall (fun e => isSubmission e = false) post
                /\ Forall2 (fetchedAndSigned duty root pre) batch
                     (pairsOf duty (ValidatorIndices duty)))).
Proof.
  unfold aggregator.aggregateWithRoot.
  destruct (aggregateValidators_log s duty root (ValidatorIndices duty) [] st)
    as (pre & H).
  destruct (aggregator.aggregateValidators s duty root (ValidatorIndices duty) [] st)
    as [[st1 batch] [|[]]]; cbn in H.
  - destruct H as (Hlog & Hroots & Hquiet & Hroot & Hok & items & Hbatch & Hitems).
    cbn in Hbatch. subst items.
    destruct (aggregator.syncCommitteeContributionsSubmitter s (world st1) batch)
      as [w err].
    set (submit := CallSubmitSyncCommitteeContributions batch err).
    assert (Hpre : Forall (fun e => isSubmission e = false) pre).
    { eapply Forall_impl; [exact Hquiet|]. by intros e [? ?]. }
    assert (Hpre' : Forall (fun e => isHeadFetch e = false) pre).
    { eapply Forall_impl; [exact Hquiet|]. by intros e [? ?]. }
    destruct err as [e|].
    + exists (pre ++ submit ::
              [MetricSyncCommitteeAggregationsCompleted (Slot_ duty) (len batch) "failed"]).
      cbn. rewrite Hlog, Hroots, <- !app_assoc. cbn.
      repeat split.
      * apply Forall_app. split; [done|]. by repeat constructor.
      * apply Forall_app. split; [done|]. by repeat constructor.
      * right. split.
        -- apply Forall_app. split; [done|]. by repeat constructor.
        -- eexists pre, batch, (Some e), _.
           repeat split; eauto; by repeat constructor.
    + destruct (coverage_log batch
                  (emit submit (setWorld w st1))) as [Hcov Hcovroots].
      exists (pre ++ submit :: map aggregator.coverage batch ++
              [MetricSyncCommitteeAggregationsCompleted (Slot_ duty) (len batch) "succeeded"]).
      cbn. rewrite Hcov, Hcovroots. cbn. rewrite Hlog, Hroots, <- !app_assoc. cbn.
      assert (Hmetrics : forall P : Event -> Prop,
                 (forall x, P (aggregator.coverage x)) ->
                 P (MetricSyncCommitteeAggregationsCompleted (Slot_ duty) (len batch) "succeeded") ->
                 Forall P (map aggregator.coverage batch ++
                   [MetricSyncCommitteeAggregationsCompleted (Slot_ duty) (len batch) "succeeded"])).
      { intros P Hc Hm. apply Forall_app. split.
        - apply Forall_forall. intros e He.
          apply list_elem_of_fmap in He as (x & -> & _). apply Hc.
        - by repeat constructor. }
      repeat split.
      * apply Forall_app. split; [done|]. constructor; [done|]. by apply Hmetrics.
      * apply Forall_app. split; [done|]. constructor; [done|]. by apply Hmetrics.
      * right. split.
        -- apply Forall_app. split; [done|]. constructor; [done|]. by apply Hmetrics.
        -- eexists pre, batch, None, _.
           repeat split; eauto; by apply Hmetrics.
  - exists pre. destruct H as (Hlog & Hroots & Hquiet & Hroot & Hfail).
    rewrite Hlog, Hroots. repeat split; auto.
    + eapply Forall_impl; [exact Hquiet|]. by intros e [? ?].
    + left. split; [done|]. eapply Forall_impl; [exact Hquiet|]. by intros e [? ?].
Qed.

(** [Aggregate] takes a cached root and deletes the entry. *)
Lemma Aggregate_cached s duty st root :
  beaconBlockRoots st !! Slot_ duty = Some root ->
  aggregator.Aggregate s (AggregatorDuty (Some duty)) st
  = (aggregator.aggregateWithRoot s duty root
       (setRoots (delete (Slot_ duty) (beaconBlockRoots st)) st),
     Go.Returned tt).
Proof. intros Hhit. unfold aggregator.Aggregate. rewrite Hhit. reflexivity. Qed.

(** Without a cached root [Aggregate] asks the beacon node for "head" and
    gives up exactly when that call fails or answers nil. *)
Lemma Aggregate_uncached s duty st w r err :
  beaconBlockRoots st !! Slot_ duty = None ->
  aggregator.beaconBlockRootProvider s (world st) "head" = (w, (r, err)) ->
  aggregator.Aggregate s (AggregatorDuty (Some duty)) st
  = (match err, r with
     | None, Some root =>
         aggregator.aggregateWithRoot s duty root
           (emit (CallBeaconBlockRoot "head" r err) (setWorld w st))
     | _, _ =>
         aggregator.failed duty
           (emit (CallBeaconBlockRoot "head" r err) (setWorld w st))
     end, Go.Returned tt).
Proof.
  intros Hmiss Hhead. unfold aggregator.Aggregate. rewrite Hmiss, Hhead.
  destruct err, r; reflexivity.
Qed.

Lemma no_submission_filter new :
  Forall (fun e => isSubmission e = false) new ->
  filter (fun e => isSubmission e = true) new = [].
Proof.
  induction 1 as [|e new He _ IH]; [reflexivity|].
  rewrite filter_cons_False; [exact IH | congruence].
Qed.

(** The two shapes of a run, read as the all-or-nothing property. *)
Lemma all_or_nothing_shape duty root new :
  (Exists (fun e => isPairFailure e = true) new
   /\ Forall (fun e => isSubmission e = false) new)
  \/ (Forall (fun e => isPairFailure e = false) new
      /\ exists pre batch err post,
          new = pre ++ CallSubmitSyncCommitteeContributions batch err :: post
          /\ Forall (fun e => isSubmission e = false) pre
          /\ Forall (fun e => isSubmission e = false) post
          /\ Forall2 (fetchedAndSigned duty root pre) batch
               (pairsOf duty (ValidatorIndices duty))) ->
  (Exists (fun e => isPairFailure e = true) new ->
   Forall (fun e => isSubmission e = false) new)
  /\ (forall batch err,
        CallSubmitSyncCommitteeContributions batch err ∈ new ->
        Forall (fun e => isPairFailure e = false) new
        /\ Forall2 (fetchedAndSigned duty root new) batch
             (pairsOf duty (ValidatorIndices duty)))
  /\ (length (filter (fun e => isSubmission e = true) new) <= 1)%nat.
Proof.
  intros [[Hfail Hquiet] | [Hok (pre & batch & err & post & -> & Hpre & Hpost & Hitems)]].
  - split; [done|]. split.
    + intros batch err Hin. rewrite Forall_forall in Hquiet.
      specialize (Hquiet _ Hin). discriminate Hquiet.
    + rewrite no_submission_filter by done. cbn. lia.
  - split; [|split].
    + intros Hfail. exfalso. apply Exists_exists in Hfail as (e & He & Hbad).
      rewrite Forall_forall in Hok. specialize (Hok _ He). congruence.
    + intros batch' err' Hin. split; [done|].
      apply elem_of_app in Hin as [Hin|Hin].
      { rewrite Forall_forall in Hpre. specialize (Hpre _ Hin). discriminate Hpre. }
      apply elem_of_cons in Hin as [Heq|Hin].
      2:{ rewrite Forall_forall in Hpost. specialize (Hpost _ Hin). discriminate Hpost. }
      inversion Heq; subst.
      eapply Forall2_impl; [exact Hitems|].
      intros item p. apply fetchedAndSigned_mono.
      intros e He. apply elem_of_app. by left.
    + rewrite filter_app, filter_cons_True by reflexivity.
      rewrite !no_submission_filter by done. cbn. lia.
Qed.

(** C5.  Whatever [Aggregate] is given: if the fetch of a contribution
    fails or comes back empty, or the signing of a contribution-and-proof
    fails, for any pair, the submitter is not called at all; if it is
    called, no pair failed, it is called once, and the batch holds for
    every (validator, subcommittee) pair with a selection proof, in order,
    the contribution fetched and signed for that pair. *)
Theorem C5_Aggregate_all_or_nothing s data st :
  exists new,
    log (aggregator.Aggregate s data st).1 = log st ++ new
    /\ (Exists (fun e => isPairFailure e = true) new ->
        Forall (fun e => isSubmission e = false) new)
    /\ (forall batch err,
          CallSubmitSyncCommitteeContributions batch err ∈ new ->
          Forall (fun e => isPairFailure e = false) new
          /\ exists duty root,
              data = AggregatorDuty (Some duty)
              /\ Forall2 (fetchedAndSigned duty root new) batch
                   (pairsOf duty (ValidatorIndices duty)))
    /\ (length (filter (fun e => isSubmission e = true) new) <= 1)%nat.
Proof.
  assert (Hidle : exists new,
             log st = log st ++ new
             /\ (Exists (fun e => isPairFailure e = true) new ->
                 Forall (fun e => isSubmission e = false) new)
             /\ (forall batch err,
                   CallSubmitSyncCommitteeContributions batch err ∈ new ->
                   Forall (fun e => isPairFailure e = false) new
                   /\ exists duty root,
                       data = AggregatorDuty (Some duty)
                       /\ Forall2 (fetchedAndSigned duty root new) batch
                            (pairsOf duty (ValidatorIndices duty)))
             /\ (length (filter (fun e => isSubmission e = true) new) <= 1)%nat).
  { exists []. rewrite app_nil_r. split; [reflexivity|].
    split; [intros _; constructor|].
    split; [intros batch err Hin; by apply not_elem_of_nil in Hin | cbn; lia]. }
  destruct data as [d|[duty|]|description]; try exact Hidle.
  destruct (beaconBlockRoots st !! Slot_ duty) as [root|] eqn:Hcache.
  - rewrite (Aggregate_cached _ _ _ _ Hcache). cbn [fst].
    destruct (aggregateWithRoot_log s duty root
                (setRoots (delete (Slot_ duty) (beaconBlockRoots st)) st))
      as (new & Hlog & _ & _ & _ & Hshape).
    exists new. split; [exact Hlog|].
    destruct (all_or_nothing_shape duty root new Hshape) as (H1 & H2 & H3).
    split; [exact H1|]. split; [|exact H3].
    intros batch err Hin. destruct (H2 batch err Hin) as [Hok Hitems]. eauto.
  - destruct (aggregator.beaconBlockRootProvider s (world st) "head")
      as [w [r err]] eqn:Hhead.
    rewrite (Aggregate_uncached _ _ _ _ _ _ Hcache Hhead). cbn [fst].
    set (fetch := CallBeaconBlockRoot "head" r err).
    assert (Hgiveup : exists new,
               log (aggregator.failed duty (emit fetch (setWorld w st)))
               = log st ++ new
               /\ (Exists (fun e => isPairFailure e = true) new ->
                   Forall (fun e => isSubmission e = false) new)
               /\ (forall batch err,
                     CallSubmitSyncCommitteeContributions batch err ∈ new ->
                     Forall (fun e => isPairFailure e = false) new
                     /\ exists duty' root,
                         AggregatorDuty (Some duty) = AggregatorDuty (Some duty')
                         /\ Forall2 (fetchedAndSigned duty' root new) batch
                              (pairsOf duty' (ValidatorIndices duty')))
               /\ (length (filter (fun e => isSubmission e = true) new) <= 1)%nat).
    { eexists [fetch; _]. cbn. rewrite <- app_assoc. split; [reflexivity|].
      split; [intros _; by repeat constructor|]. split.
      - intros batch err' Hin.
        apply elem_of_cons in Hin as [Heq|Hin]; [discriminate Heq|].
        apply elem_of_cons in Hin as [Heq|Hin]; [discriminate Heq|].
        by apply not_elem_of_nil in Hin.
      - repeat case_decide; try discriminate; cbn; lia. }
    destruct err as [e|]; [exact Hgiveup|].
    destruct r as [root|]; [|exact Hgiveup].
    destruct (aggregateWithRoot_log s duty root (emit fetch (setWorld w st)))
      as (new & Hlog & _ & _ & _ & Hshape).
    exists (fetch :: new). split; [rewrite Hlog; cbn; by rewrite <- app_assoc|].
    destruct (all_or_nothing_shape duty root new Hshape) as (H1 & H2 & H3).
    split; [|split].
    + intros Hfail. constructor; [done|]. apply H1.
      apply Exists_cons in Hfail as [Hbad|Hfail]; [discriminate Hbad | exact Hfail].
    + intros batch err Hin.
      apply elem_of_cons in Hin as [Heq|Hin]; [discriminate Heq|].
      destruct (H2 batch err Hin) as [Hok Hitems].
      split; [by constructor|]. exists duty, root. split; [reflexivity|].
      eapply Forall2_impl; [exact Hitems|].
      intros item p. apply fetchedAndSigned_mono.
      intros e He. by apply list_elem_of_further.
    + rewrite filter_cons_False by (cbn; congruence). exact H3.
Qed.

End Aggregator.

(** C5 on two runs for slot 100 with validators 11 and 12: when the beacon
    node has no contribution for subcommittee 1 nothing is submitted; when
    it has all of them one batch of two is. *)
Lemma C5_Aggregate_all_or_nothing_witness :
  Forall (fun e => aggregation.isSubmission e = false)
    (log (aggregator.Aggregate (fixtures.aggregatorWith (Some fixtures.headRoot) 1)
            (AggregatorDuty (Some fixtures.aggregatorDuty)) fixtures.emptySys).1)
  /\ exists batch,
      CallSubmitSyncCommitteeContributions batch None
        ∈ log (aggregator.Aggregate
                 (fixtures.aggregatorWith (Some fixtures.headRoot) 99)
                 (AggregatorDuty (Some fixtures.aggregatorDuty))
                 fixtures.emptySys).1
      /\ map (fun x => altair.AggregatorIndex (altair.Message x)) batch = [11; 12].
Proof.
  split.
  - destruct (C5_Aggregate_all_or_nothing
                (fixtures.aggregatorWith (Some fixtures.headRoot) 1)
                (AggregatorDuty (Some fixtures.aggregatorDuty))
                fixtures.emptySys) as (new & Hlog & Hnone & _).
    rewrite Hlog. apply Hnone.
    cbn [app fixtures.emptySys log] in Hlog. rewrite <- Hlog.
    vm_compute. do 3 apply Exists_cons_tl. apply Exists_cons_hd. reflexivity.
  - eexists. split.
    + vm_compute. do 5 apply list_elem_of_further. apply list_elem_of_here.
    + reflexivity.
Defined.

(** ** The slot-to-root cache between messenger and aggregator *)

Section RootCache.
Context {W : Type}.
Import synccommitteeaggregator synccommitteemessenger altair aggregation.
Implicit Types (sm : messenger.Service W) (sa : aggregator.Service W).
Implicit Types (st : Sys W).

(** Signing the messages leaves the cache alone. *)
Lemma signAll_roots sm d root indices :
  forall msgs st,
    beaconBlockRoots (messenger.signAll sm d root indices msgs st).1
    = beaconBlockRoots st.
Proof.
  induction indices as [|v rest IH]; intros msgs st; [reflexivity|].
  cbn [messenger.signAll]. unfold messenger.contribute.
  destruct (messenger.syncCommitteeRootSigner sm (world st) (accounts d !! v)
              (messenger.chainTimeService_SlotToEpoch sm (Go.u64 (slot d + 1)))
              root) as [w [sig err]].
  destruct err; rewrite IH; reflexivity.
Qed.

(** A run of [Message] that returns messages fetched a head root without
    error and left it in the cache under the duty's slot, touching no
    other entry. *)
Lemma Message_succeeded sm d st msgs :
  (messenger.Message sm (MessengerDuty (Some d)) st).2
    = Go.Returned (Some msgs, None) ->
  exists root w,
    messenger.beaconBlockRootProvider sm (world st) "head" = (w, (Some root, None))
    /\ beaconBlockRoots (messenger.Message sm (MessengerDuty (Some d)) st).1
       = <[slot d := root]> (beaconBlockRoots st).
Proof.
  unfold messenger.Message. cbn [messenger.assertDuty negb].
  destruct (messenger.beaconBlockRootProvider sm (world st) "head")
    as [w [r err]].
  destruct err as [e|]; [discriminate|].
  destruct r as [root|]; [|discriminate].
  intros Hret. exists root, w. split; [reflexivity|].
  destruct (messenger.signAll sm d root (map_to_list (contributionIndices d)).*1 []
              (aggregator.SetBeaconBlockRoot (slot d) root
                 (emit (CallBeaconBlockRoot "head" (Some root) None)
                    (setWorld w st)))) as [st' msgs'] eqn:Hsign.
  pose proof (signAll_roots sm d root (map_to_list (contributionIndices d)).*1 []
                (aggregator.SetBeaconBlockRoot (slot d) root
                   (emit (CallBeaconBlockRoot "head" (Some root) None)
                      (setWorld w st)))) as Hroots.
  rewrite Hsign in Hroots. cbn [fst] in Hroots.
  destruct (messenger.syncCommitteeMessagesSubmitter sm (world st') msgs')
    as [w' [e|]]; cbn; exact Hroots.
Qed.

(** C8.  After a run of [Message] that returns its messages, the cache
    holds under the duty's slot the head root fetched in that run (and is
    otherwise unchanged).  The next [Aggregate] for the slot asks the
    beacon node for no root, requests contributions for that root only, and
    leaves no entry for the slot.  Whenever [Aggregate] finds no entry it
    asks the beacon node for "head": if that errors or answers nil the call
    records "failed" and does nothing else, otherwise it aggregates on the
    root returned. *)
Theorem C8_root_cache_handoff sm sa d duty st msgs :
  Slot_ duty = slot d ->
  (messenger.Message sm (MessengerDuty (Some d)) st).2
    = Go.Returned (Some msgs, None) ->
  let st1 := (messenger.Message sm (MessengerDuty (Some d)) st).1 in
  let st2 := (aggregator.Aggregate sa (AggregatorDuty (Some duty)) st1).1 in
  (exists root w,
      messenger.beaconBlockRootProvider sm (world st) "head"
        = (w, (Some root, None))
      /\ beaconBlockRoots st1 = <[slot d := root]> (beaconBlockRoots st)
      /\ beaconBlockRoots st1 !! slot d = Some root
      /\ exists new,
          log st2 = log st1 ++ new
          /\ Forall (fun e => isHeadFetch e = false) new
          /\ Forall (fun e => forall r, requestedRoot e = Some r -> r = root) new)
  /\ beaconBlockRoots st2 !! slot d = None
  /\ forall st0 w r err,
      beaconBlockRoots st0 !! slot d = None ->
      aggregator.beaconBlockRootProvider sa (world st0) "head" = (w, (r, err)) ->
      let st3 := (aggregator.Aggregate sa (AggregatorDuty (Some duty)) st0).1 in
      exists new,
        log st3 = log st0 ++ CallBeaconBlockRoot "head" r err :: new
        /\ (err <> None \/ r = None ->
            new = [MetricSyncCommitteeAggregationsCompleted (Slot_ duty)
                     (len (synccommitteeaggregator.ValidatorIndices duty)) "failed"])
        /\ (forall root, err = None -> r = Some root ->
            st3 = aggregator.aggregateWithRoot sa duty root
                    (emit (CallBeaconBlockRoot "head" r err) (setWorld w st0))
            /\ Forall (fun e => forall r', requestedRoot e = Some r' -> r' = root)
                 new).
Proof.
  intros Hslot Hret st1 st2.
  destruct (Message_succeeded sm d st msgs Hret) as (root & w & Hhead & Hroots).
  fold st1 in Hroots.
  assert (Hhit : beaconBlockRoots st1 !! Slot_ duty = Some root).
  { rewrite Hslot, Hroots. apply lookup_insert_eq. }
  assert (Hst2 : st2 = aggregator.aggregateWithRoot sa duty root
                         (setRoots (delete (Slot_ duty) (beaconBlockRoots st1)) st1)).
  { subst st2. rewrite (Aggregate_cached _ _ _ _ Hhit). reflexivity. }
  destruct (aggregateWithRoot_log sa duty root
              (setRoots (delete (Slot_ duty) (beaconBlockRoots st1)) st1))
    as (new & Hlog & Hkeep & Hnohead & Hroot & _).
  rewrite <- Hst2 in Hlog, Hkeep. cbn in Hlog, Hkeep.
  split; [|split].
  - exists root, w. split; [exact Hhead|]. split; [exact Hroots|].
    split; [by rewrite <- Hslot|]. exists new. auto.
  - rewrite Hkeep, Hslot. apply lookup_delete_eq.
  - intros st0 w0 r err Hmiss Hfetch st3. rewrite <- Hslot in Hmiss.
    subst st3. rewrite (Aggregate_uncached _ _ _ _ _ _ Hmiss Hfetch). cbn [fst].
    destruct err as [e|].
    { eexists. split; [cbn; rewrite <- app_assoc; reflexivity|].
      split; [reflexivity|]. intros root' Hnone. discriminate Hnone. }
    destruct r as [root'|].
    2:{ eexists. split; [cbn; rewrite <- app_assoc; reflexivity|].
        split; [reflexivity|]. intros root' _ Hsome. discriminate Hsome. }
    destruct (aggregateWithRoot_log sa duty root'
                (emit (CallBeaconBlockRoot "head" (Some root') None)
                   (setWorld w0 st0)))
      as (new' & Hlog' & _ & _ & Hroot' & _).
    exists new'. split; [rewrite Hlog'; cbn; by rewrite <- app_assoc|].
    split.
    + intros [Hbad|Hbad]; [by destruct Hbad | discriminate Hbad].
    + intros root'' _ Heq. inversion Heq; subst root''. auto.
Qed.

End RootCache.

(** C8 on slot 100: [Message] caches the head root, the first [Aggregate]
    consumes it, and the cache has no entry for the slot afterwards. *)
Lemma C8_root_cache_handoff_witness :
  beaconBlockRoots
    (messenger.Message (fixtures.messengerWith (Some fixtures.headRoot))
       (MessengerDuty (Some fixtures.messengerDuty)) fixtures.emptySys).1
    !! 100 = Some fixtures.headRoot
  /\ beaconBlockRoots
       (aggregator.Aggregate (fixtures.aggregatorWith (Some fixtures.otherRoot) 99)
          (AggregatorDuty (Some fixtures.aggregatorDuty))
          (messenger.Message (fixtures.messengerWith (Some fixtures.headRoot))
             (MessengerDuty (Some fixtures.messengerDuty)) fixtures.emptySys).1).1
       !! 100 = None.
Proof.
  destruct (C8_root_cache_handoff
              (fixtures.messengerWith (Some fixtures.headRoot))
              (fixtures.aggregatorWith (Some fixtures.otherRoot) 99)
              fixtures.messengerDuty fixtures.aggregatorDuty fixtures.emptySys
              [ {| altair.msg_Slot := 100;
                   altair.msg_BeaconBlockRoot := fixtures.headRoot;
                   altair.msg_ValidatorIndex := 11;
                   altair.msg_Signature := fixtures.someSignature |};
                {| altair.msg_Slot := 100;
                   altair.msg_BeaconBlockRoot := fixtures.headRoot;
                   altair.msg_ValidatorIndex := 12;
                   altair.msg_Signature := fixtures.someSignature |} ]
              eq_refl)
    as ((root & w & Hhead & _ & Hcached & _) & Hgone & _).
  - vm_compute. reflexivity.
  - split; [|exact Hgone].
    etrans; [exact Hcached|]. f_equal.
    vm_compute in Hhead. inversion Hhead. reflexivity.
Defined.

(** ** Validating accounts *)

Section ValidatingAccounts.
Import wallet.
Implicit Types (s : Service) (epoch : Epoch).
Implicit Types (validators : list (ValidatorIndex * option Validator)).
Implicit Types (validatingAccounts m : gmap Z (option Account)).

(** The state of a validator at [epoch] is one of the two validating ones. *)
Lemma isValidating_spec state :
  isValidating state = true <->
  state = ValidatorStateActiveOngoing \/ state = ValidatorStateActiveExiting.
Proof.
  unfold isValidating. rewrite orb_true_iff, !bool_decide_eq_true. reflexivity.
Qed.

(** Entries of the result of the loop of [ValidatingAccountsForEpoch] were
    there before or belong to a validating validator met by the loop. *)
Lemma forEpochLoop_sound s epoch validators :
  forall validatingAccounts stateCount m stateCount',
    forEpochLoop s epoch validators validatingAccounts stateCount
      = Go.Returned (m, stateCount') ->
    forall i a,
      m !! i = Some a ->
      validatingAccounts !! i = Some a
      \/ exists v,
          (i, Some v) ∈ validators
          /\ isValidating (api_ValidatorToState s (Some v) epoch (farFutureEpoch s))
             = true
          /\ a = accounts s !! PublicKey v.
Proof.
  induction validators as [|[index validator] rest IH];
    intros acc sc m sc' Hrun i a Hi.
  - cbn in Hrun. inversion Hrun; subst. by left.
  - cbn [forEpochLoop] in Hrun.
    destruct (isValidating (api_ValidatorToState s validator epoch (farFutureEpoch s)))
      eqn:Hstate.
    + destruct validator as [v|]; [|discriminate].
      destruct (accounts s !! PublicKey v) as [account|] eqn:Haccount; [|discriminate].
      destruct (IH _ _ _ _ Hrun i a Hi) as [Hold | (v' & Hin & Hv' & Ha)].
      * destruct (decide (index = i)) as [->|Hne].
        -- rewrite lookup_insert_eq in Hold. inversion Hold; subst.
           right. exists v. split; [apply list_elem_of_here|]. auto.
        -- rewrite lookup_insert_ne in Hold by done. by left.
      * right. exists v'. split; [by apply list_elem_of_further|]. auto.
    + destruct (IH _ _ _ _ Hrun i a Hi) as [Hold | (v' & Hin & Hv' & Ha)].
      * by left.
      * right. exists v'. split; [by apply list_elem_of_further|]. auto.
Qed.

(** The same for the loop of [ValidatingAccountsForEpochByIndex], whose
    entries moreover carry a requested index. *)
Lemma byIndexLoop_sound s epoch (indexPresenceMap : gset Z) validators :
  forall validatingAccounts m,
    byIndexLoop s epoch indexPresenceMap validators validatingAccounts
      = Go.Returned m ->
    forall i a,
      m !! i = Some a ->
      validatingAccounts !! i = Some a
      \/ exists v,
          (i, Some v) ∈ validators
          /\ i ∈ indexPresenceMap
          /\ isValidating (api_ValidatorToState s (Some v) epoch (farFutureEpoch s))
             = true
          /\ a = accounts s !! PublicKey v.
Proof.
  induction validators as [|[index validator] rest IH]; intros acc m Hrun i a Hi.
  - cbn in Hrun. inversion Hrun; subst. by left.
  - cbn [byIndexLoop] in Hrun.
    assert (Hrest : forall acc',
               byIndexLoop s epoch indexPresenceMap rest acc' = Go.Returned m ->
               acc' !! i = Some a
               \/ exists v,
                   (i, Some v) ∈ (index, validator) :: rest
                   /\ i ∈ indexPresenceMap
                   /\ isValidating
                        (api_ValidatorToState s (Some v) epoch (farFutureEpoch s))
                      = true
                   /\ a = accounts s !! PublicKey v).
    { intros acc' Hrun'.
      destruct (IH _ _ Hrun' i a Hi) as [Hold | (v' & Hin & Hrest)]; [by left|].
      right. exists v'. split; [by apply list_elem_of_further|]. exact Hrest. }
    destruct (bool_decide (index ∈ indexPresenceMap)) eqn:Hpresent; cbn [negb] in Hrun.
    2:{ by apply Hrest. }
    apply bool_decide_eq_true in Hpresent.
    destruct (isValidating (api_ValidatorToState s validator epoch (farFutureEpoch s)))
      eqn:Hstate.
    2:{ by apply Hrest. }
    destruct validator as [v|]; [|discriminate].
    destruct (Hrest _ Hrun) as [Hold | Hnew]; [|by right].
    destruct (decide (index = i)) as [->|Hne].
    + rewrite lookup_insert_eq in Hold. inversion Hold; subst.
      right. exists v. split; [apply list_elem_of_here|]. auto.
    + rewrite lookup_insert_ne in Hold by done. by left.
Qed.

(** The loops return unless a validating entry has a nil validator or, for
    [ValidatingAccountsForEpoch], no account. *)
Lemma forEpochLoop_returns s epoch validators :
  (forall i validator,
      (i, validator) ∈ validators ->
      isValidating (api_ValidatorToState s validator epoch (farFutureEpoch s)) = true ->
      exists v, validator = Some v /\ is_Some (accounts s !! PublicKey v)) ->
  forall validatingAccounts stateCount,
  exists m stateCount',
    forEpochLoop s epoch validators validatingAccounts stateCount
    = Go.Returned (m, stateCount').
Proof.
  induction validators as [|[index validator] rest IH]; intros Hok acc sc.
  - cbn. eauto.
  - cbn [forEpochLoop].
    assert (Hrest : forall i validator,
               (i, validator) ∈ rest ->
               isValidating (api_ValidatorToState s validator epoch (farFutureEpoch s))
                 = true ->
               exists v, validator = Some v /\ is_Some (accounts s !! PublicKey v)).
    { intros i validator' Hin. apply (Hok i). by apply list_elem_of_further. }
    destruct (isValidating (api_ValidatorToState s validator epoch (farFutureEpoch s)))
      eqn:Hstate; [|by apply IH].
    destruct (Hok index validator (list_elem_of_here _ _) Hstate)
      as (v & -> & account & Haccount).
    rewrite Haccount. by apply IH.
Qed.

Lemma byIndexLoop_returns s epoch (indexPresenceMap : gset Z) validators :
  (forall i,
      (i, None) ∈ validators ->
      isValidating (api_ValidatorToState s None epoch (farFutureEpoch s)) = false) ->
  forall validatingAccounts,
  exists m,
    byIndexLoop s epoch indexPresenceMap validators validatingAccounts
    = Go.Returned m.
Proof.
  induction validators as [|[index validator] rest IH]; intros Hok acc.
  - cbn. eauto.
  - cbn [byIndexLoop].
    assert (Hrest : forall i,
               (i, None) ∈ rest ->
               isValidating (api_ValidatorToState s None epoch (farFutureEpoch s))
                 = false).
    { intros i Hin. apply (Hok i). by apply list_elem_of_further. }
    destruct (negb (bool_decide (index ∈ indexPresenceMap))); [by apply IH|].
    destruct (isValidating (api_ValidatorToState s validator epoch (farFutureEpoch s)))
      eqn:Hstate; [|by apply IH].
    destruct validator as [v|]; [by apply IH|].
    rewrite (Hok index (list_elem_of_here _ _)) in Hstate. discriminate.
Qed.

(** An index the loop does not meet keeps what it had. *)
Lemma byIndexLoop_frame s epoch (indexPresenceMap : gset Z) validators i :
  i ∉ validators.*1 ->
  forall validatingAccounts m,
    byIndexLoop s epoch indexPresenceMap validators validatingAccounts
      = Go.Returned m ->
    m !! i = validatingAccounts !! i.
Proof.
  induction validators as [|[index validator] rest IH]; intros Hfresh acc m Hrun.
  - cbn in Hrun. by inversion Hrun.
  - cbn [byIndexLoop] in Hrun. cbn in Hfresh.
    apply not_elem_of_cons in Hfresh as [Hne Hfresh].
    destruct (negb (bool_decide (index ∈ indexPresenceMap))); [by apply IH|].
    destruct (isValidating (api_ValidatorToState s validator epoch (farFutureEpoch s)));
      [|by apply IH].
    destruct validator as [v|]; [|discriminate].
    rewrite (IH Hfresh _ _ Hrun). by apply lookup_insert_ne.
Qed.

(** A requested validating validator gets its entry. *)
Lemma byIndexLoop_complete s epoch (indexPresenceMap : gset Z) validators i v :
  NoDup validators.*1 ->
  (i, Some v) ∈ validators ->
  i ∈ indexPresenceMap ->
  isValidating (api_ValidatorToState s (Some v) epoch (farFutureEpoch s)) = true ->
  forall validatingAccounts m,
    byIndexLoop s epoch indexPresenceMap validators validatingAccounts
      = Go.Returned m ->
    m !! i = Some (accounts s !! PublicKey v).
Proof.
  induction validators as [|[index validator] rest IH];
    intros Hnodup Hin Hpresent Hstate acc m Hrun.
  - by apply not_elem_of_nil in Hin.
  - cbn in Hnodup. apply NoDup_cons in Hnodup as [Hfresh Hnodup].
    cbn [byIndexLoop] in Hrun.
    apply elem_of_cons in Hin as [Heq|Hin].
    + inversion Heq; subst index validator.
      rewrite bool_decide_eq_true_2 in Hrun by done. cbn [negb] in Hrun.
      rewrite Hstate in Hrun.
      rewrite (byIndexLoop_frame _ _ _ _ _ Hfresh _ _ Hrun).
      apply lookup_insert_eq.
    + destruct (negb (bool_decide (index ∈ indexPresenceMap))); [by eapply IH|].
      destruct (isValidating (api_ValidatorToState s validator epoch (farFutureEpoch s)));
        [|by eapply IH].
      destruct validator as [v'|]; [|discriminate]. by eapply IH.
Qed.

(** C10.  Every entry of the map returned by [ValidatingAccountsForEpoch]
    and by [ValidatingAccountsForEpochByIndex] is the account of a known
    validator whose state at the given epoch is active-ongoing or
    active-exiting; a known validator in any other state has no entry; and
    [ValidatingAccountsForEpochByIndex] has entries for requested indices
    only. *)
Theorem C10_validating_accounts_only s epoch indices :
  let validators := validatorsManager_ValidatorsByPubKey s (pubKeysOf s) in
  let stateOf validator :=
    api_ValidatorToState s validator epoch (farFutureEpoch s) in
  (forall m metrics,
      ValidatingAccountsForEpoch s epoch = Go.Returned (m, metrics) ->
      (forall i a,
          m !! i = Some a ->
          exists v,
            validators !! i = Some (Some v)
            /\ (stateOf (Some v) = ValidatorStateActiveOngoing
                \/ stateOf (Some v) = ValidatorStateActiveExiting)
            /\ a = accounts s !! PublicKey v)
      /\ (forall i validator,
            validators !! i = Some validator ->
            stateOf validator <> ValidatorStateActiveOngoing ->
            stateOf validator <> ValidatorStateActiveExiting ->
            m !! i = None))
  /\ (forall m,
        ValidatingAccountsForEpochByIndex s epoch indices = Go.Returned m ->
        (forall i a,
            m !! i = Some a ->
            i ∈ indices
            /\ exists v,
                validators !! i = Some (Some v)
                /\ (stateOf (Some v) = ValidatorStateActiveOngoing
                    \/ stateOf (Some v) = ValidatorStateActiveExiting)
                /\ a = accounts s !! PublicKey v)
        /\ (forall i validator,
              validators !! i = Some validator ->
              stateOf validator <> ValidatorStateActiveOngoing ->
              stateOf validator <> ValidatorStateActiveExiting ->
              m !! i = None)
        /\ (forall i, i ∉ indices -> m !! i = None)).
Proof.
  intros validators stateOf.
  assert (Hexcluded : forall m : gmap Z (option Account),
             (forall i a, m !! i = Some a ->
                exists v, validators !! i = Some (Some v)
                  /\ (stateOf (Some v) = ValidatorStateActiveOngoing
                      \/ stateOf (Some v) = ValidatorStateActiveExiting)) ->
             forall i validator,
               validators !! i = Some validator ->
               stateOf validator <> ValidatorStateActiveOngoing ->
               stateOf validator <> ValidatorStateActiveExiting ->
               m !! i = None).
  { intros m Hsound i validator Hknown Hno Hne.
    destruct (m !! i) as [a|] eqn:Hentry; [|reflexivity].
    destruct (Hsound i a Hentry) as (v & Hv & Hstate).
    rewrite Hknown in Hv. inversion Hv; subst validator.
    destruct Hstate; contradiction. }
  split.
  - intros m metrics Hrun. unfold ValidatingAccountsForEpoch in Hrun.
    fold validators in Hrun.
    destruct (forEpochLoop s epoch (map_to_list validators) ∅ (fun _ => 0))
      as [[m' stateCount]|why] eqn:Hloop; [|discriminate].
    assert (m' = m) as ->.
    { cbn in Hrun. destruct (epoch =? currentEpochProvider_CurrentEpoch s);
        by inversion Hrun. }
    assert (Hsound : forall i a,
               m !! i = Some a ->
               exists v,
                 validators !! i = Some (Some v)
                 /\ (stateOf (Some v) = ValidatorStateActiveOngoing
                     \/ stateOf (Some v) = ValidatorStateActiveExiting)
                 /\ a = accounts s !! PublicKey v).
    { intros i a Hentry.
      destruct (forEpochLoop_sound _ _ _ _ _ _ _ Hloop i a Hentry)
        as [Hold | (v & Hin & Hstate & Ha)].
      - by rewrite lookup_empty in Hold.
      - exists v. apply elem_of_map_to_list in Hin.
        apply isValidating_spec in Hstate. auto. }
    split; [exact Hsound|].
    apply Hexcluded. intros i a Hentry.
    destruct (Hsound i a Hentry) as (v & ? & ? & ?). eauto.
  - intros m Hrun. unfold ValidatingAccountsForEpochByIndex in Hrun.
    fold validators in Hrun.
    assert (Hsound : forall i a,
               m !! i = Some a ->
               i ∈ indices
               /\ exists v,
                   validators !! i = Some (Some v)
                   /\ (stateOf (Some v) = ValidatorStateActiveOngoing
                       \/ stateOf (Some v) = ValidatorStateActiveExiting)
                   /\ a = accounts s !! PublicKey v).
    { intros i a Hentry.
      destruct (byIndexLoop_sound _ _ _ _ _ _ Hrun i a Hentry)
        as [Hold | (v & Hin & Hpresent & Hstate & Ha)].
      - by rewrite lookup_empty in Hold.
      - split; [by apply elem_of_list_to_set in Hpresent|].
        exists v. apply elem_of_map_to_list in Hin.
        apply isValidating_spec in Hstate. auto. }
    split; [exact Hsound|]. split.
    + apply Hexcluded. intros i a Hentry.
      destruct (Hsound i a Hentry) as (_ & v & ? & ? & ?). eauto.
    + intros i Hout. destruct (m !! i) as [a|] eqn:Hentry; [|reflexivity].
      destruct (Hsound i a Hentry) as [Hin _]. contradiction.
Qed.

(** [ValidatingAccountsForEpochByIndex] returns whenever the state function
    does not call a missing validator validating, and then every requested
    validator in a validating state has its entry. *)
Lemma ValidatingAccountsForEpochByIndex_total s epoch indices :
  isValidating (api_ValidatorToState s None epoch (farFutureEpoch s)) = false ->
  exists m,
    ValidatingAccountsForEpochByIndex s epoch indices = Go.Returned m
    /\ forall i v,
        validatorsManager_ValidatorsByPubKey s (pubKeysOf s) !! i = Some (Some v) ->
        i ∈ indices ->
        isValidating (api_ValidatorToState s (Some v) epoch (farFutureEpoch s))
          = true ->
        m !! i = Some (accounts s !! PublicKey v).
Proof.
  intros Hnil. unfold ValidatingAccountsForEpochByIndex.
  destruct (byIndexLoop_returns s epoch (list_to_set indices)
              (map_to_list (validatorsManager_ValidatorsByPubKey s (pubKeysOf s)))
              (fun _ _ => Hnil) ∅) as [m Hrun].
  exists m. split; [exact Hrun|].
  intros i v Hknown Hin Hstate.
  eapply byIndexLoop_complete; [| | | exact Hstate | exact Hrun].
  - apply NoDup_fst_map_to_list.
  - by apply elem_of_map_to_list.
  - by apply elem_of_list_to_set.
Qed.

(** [ValidatingAccountsForEpoch] returns when every validator in a
    validating state is non-nil and has an account. *)
Lemma ValidatingAccountsForEpoch_total s epoch :
  (forall i validator,
      validatorsManager_ValidatorsByPubKey s (pubKeysOf s) !! i = Some validator ->
      isValidating (api_ValidatorToState s validator epoch (farFutureEpoch s)) = true ->
      exists v, validator = Some v /\ is_Some (accounts s !! PublicKey v)) ->
  exists m metrics, ValidatingAccountsForEpoch s epoch = Go.Returned (m, metrics).
Proof.
  intros Hok. unfold ValidatingAccountsForEpoch.
  destruct (forEpochLoop_returns s epoch
              (map_to_list (validatorsManager_ValidatorsByPubKey s (pubKeysOf s))))
    with (validatingAccounts := (∅ : gmap Z (option Account)))
         (stateCount := fun _ : ValidatorState => 0)
    as (m & stateCount & ->).
  { intros i validator Hin. apply (Hok i). by apply elem_of_map_to_list. }
  cbn. destruct (epoch =? currentEpochProvider_CurrentEpoch s); eauto.
Qed.

End ValidatingAccounts.

(** C10 at epoch 10 on three accounts: asked for validators 1 and 2, the
    query returns the account of the active validator 1 and nothing for
    validator 2, which has exited. *)
Lemma C10_validating_accounts_only_witness :
  exists m,
    wallet.ValidatingAccountsForEpochByIndex fixtures.walletService 10 [1; 2]
      = Go.Returned m
    /\ m !! 1 = Some (Some "w1")
    /\ m !! 2 = None
    /\ m !! 3 = None.
Proof.
  destruct (ValidatingAccountsForEpochByIndex_total fixtures.walletService 10 [1; 2])
    as (m & Hrun & _); [reflexivity|].
  exists m. split; [exact Hrun|].
  destruct (C10_validating_accounts_only fixtures.walletService 10 [1; 2])
    as (_ & Hindex).
  destruct (Hindex m Hrun) as (_ & Hexcluded & Hrequested).
  split; [|split].
  - vm_compute in Hrun. inversion Hrun. vm_compute. reflexivity.
  - apply (Hexcluded 2 (Some (fixtures.validatorWith 2 0 5)));
      [vm_compute; reflexivity | vm_compute; discriminate | vm_compute; discriminate].
  - apply Hrequested. rewrite !elem_of_cons. intros [H|[H|H]]; try discriminate.
    by apply not_elem_of_nil in H.
Defined.

(** ** The relay auction *)

Section Auction.
Import blockrelay auctionlog.
Implicit Types (t : tally) (sel consumed unread : list selected).
Implicit Types (resp : builderBidResponse) (seen : list builderBidResponse).

(** A loop that exits has consumed a prefix of the select outcomes, one
    step each. *)
Lemma loop1_run requests sel :
  forall t t' unread,
    loop1 requests t sel = Some (t', unread) ->
    exists consumed,
      sel = consumed ++ unread
      /\ t' = fold_left (step1 requests) consumed t.
Proof.
  induction sel as [|ev rest IH]; intros t t' unread Hrun; cbn [loop1] in Hrun.
  - destruct (negb _); [discriminate|]. inversion Hrun; subst. by exists [].
  - destruct (negb _).
    + destruct (IH _ _ _ Hrun) as (consumed & -> & ->). by exists (ev :: consumed).
    + inversion Hrun; subst. by exists [].
Qed.

Lemma loop2_run requests sel :
  forall t t' unread,
    loop2 requests t sel = Some (t', unread) ->
    exists consumed,
      sel = consumed ++ unread
      /\ t' = fold_left (step2 requests) consumed t.
Proof.
  induction sel as [|ev rest IH]; intros t t' unread Hrun; cbn [loop2] in Hrun.
  - destruct (negb _); [discriminate|]. inversion Hrun; subst. by exists [].
  - destruct (negb _).
    + destruct (IH _ _ _ Hrun) as (consumed & -> & ->). by exists (ev :: consumed).
    + inversion Hrun; subst. by exists [].
Qed.

Lemma responsesOf_app sel sel' :
  responsesOf (sel ++ sel') = responsesOf sel ++ responsesOf sel'.
Proof. apply omap_app. Qed.

Lemma responsesOf_elem resp sel :
  resp ∈ responsesOf sel <-> FromRespCh resp ∈ sel.
Proof.
  unfold responsesOf. rewrite list_elem_of_omap. split.
  - intros (ev & Hin & Hev). destruct ev; inversion Hev; by subst.
  - intros Hin. by exists (FromRespCh resp).
Qed.

(** *** The values map *)

Lemma Values_onResponse t resp :
  Values (res (onResponse t resp))
  = match bid resp with
    | Some _ => <[Address (provider resp) := score resp]> (Values (res t))
    | None => Values (res t)
    end.
Proof.
  unfold onResponse. destruct (bid resp); [|reflexivity].
  destruct (score resp >? bestScore t); [reflexivity|].
  by destruct (match Bid (res t) with Some _ => _ | None => _ end).
Qed.

Lemma recorded_snoc seen resp :
  recorded (seen ++ [resp])
  = match bid resp with
    | Some _ => <[Address (provider resp) := score resp]> (recorded seen)
    | None => recorded seen
    end.
Proof. unfold recorded. by rewrite fold_left_app. Qed.

(** Both loops keep [values] equal to what the responses seen record. *)
Lemma Values_step requests t ev seen :
  Values (res t) = recorded seen ->
  (Values (res (step1 requests t ev)) = recorded (seen ++ responsesOf [ev]))
  /\ (Values (res (step2 requests t ev)) = recorded (seen ++ responsesOf [ev])).
Proof.
  intros Hinv. destruct ev as [resp| |]; cbn [step1 step2 responsesOf omap].
  - rewrite Values_onResponse, Hinv. cbn. by rewrite recorded_snoc.
  - cbn. by rewrite app_nil_r.
  - cbn. by rewrite app_nil_r.
Qed.

(** An entry of the recorded values is the score of a response seen that
    carried a bid, and every such response has an entry for its address. *)
Lemma recorded_entries seen :
  (forall a sc,
      recorded seen !! a = Some sc ->
      exists resp,
        resp ∈ seen /\ is_Some (bid resp)
        /\ Address (provider resp) = a /\ score resp = sc)
  /\ (forall resp,
        resp ∈ seen -> is_Some (bid resp) ->
        is_Some (recorded seen !! Address (provider resp))).
Proof.
  induction seen as [|resp seen [IH1 IH2]] using rev_ind.
  - split.
    + intros a sc Hentry. unfold recorded in Hentry. cbn in Hentry.
      by rewrite lookup_empty in Hentry.
    + intros resp Hin. by apply not_elem_of_nil in Hin.
  - rewrite recorded_snoc. split.
    + intros a sc Hentry.
      assert (Hold : recorded seen !! a = Some sc ->
                     exists resp0, resp0 ∈ seen ++ [resp] /\ is_Some (bid resp0)
                       /\ Address (provider resp0) = a /\ score resp0 = sc).
      { intros Hseen. destruct (IH1 a sc Hseen) as (resp0 & Hin & Hrest).
        exists resp0. split; [apply elem_of_app; by left | exact Hrest]. }
      destruct (bid resp) as [b|] eqn:Hbid; [|by apply Hold].
      destruct (decide (Address (provider resp) = a)) as [Heq|Hne].
      * subst a. rewrite lookup_insert_eq in Hentry. inversion Hentry; subst sc.
        exists resp. split; [apply elem_of_app; right; apply list_elem_of_here|].
        rewrite Hbid. eauto.
      * rewrite lookup_insert_ne in Hentry by done. by apply Hold.
    + intros resp0 Hin Hbid0.
      assert (Hkeep : is_Some (recorded seen !! Address (provider resp0)) ->
                is_Some (match bid resp with
                         | Some _ =>
                             <[Address (provider resp) := score resp]> (recorded seen)
                         | None => recorded seen
                         end !! Address (provider resp0))).
      { intros Hsome. destruct (bid resp); [|exact Hsome].
        destruct (decide (Address (provider resp) = Address (provider resp0)))
          as [Heq|Hne].
        - rewrite Heq, lookup_insert_eq. eauto.
        - by rewrite lookup_insert_ne. }
      apply elem_of_app in Hin as [Hin|Hin]; [by apply Hkeep, IH2|].
      apply list_elem_of_singleton in Hin. subst resp0.
      destruct Hbid0 as [b Hb]. rewrite Hb. rewrite lookup_insert_eq. eauto.
Qed.

(** *** The winner and the providers list *)

Lemma bidsEqual_sameHeader winning resp respBid :
  bid resp = Some respBid ->
  bidsEqual winning respBid = true ->
  sameHeader winning resp.
Proof.
  intros Hbid Heq. unfold bidsEqual in Heq.
  destruct (HeaderHashTreeRoot winning) as [root|] eqn:Hw; [|discriminate].
  destruct (HeaderHashTreeRoot respBid) as [root'|] eqn:Hr; [|discriminate].
  apply bool_decide_eq_true in Heq. subst root'.
  exists respBid, root. auto.
Qed.

(** A response keeps the selection: the winner changes only for a strictly
    higher score, and a provider is appended only for the same score and
    the same computed header root. *)
Lemma selection_onResponse seen t resp :
  selection seen t -> selection (seen ++ [resp]) (onResponse t resp).
Proof.
  intros Hinv.
  assert (Hgrow : seen ⊆ seen ++ [resp]).
  { intros r Hr. apply elem_of_app. by left. }
  unfold onResponse. destruct (bid resp) as [respBid|] eqn:Hbid.
  2:{ destruct Hinv as [Hmax Hsel]. split.
      - simpl. intros r Hin Hr. apply elem_of_app in Hin as [Hin|Hin]; [by apply Hmax|].
        apply list_elem_of_singleton in Hin. subst r. rewrite Hbid in Hr. by destruct Hr.
      - simpl. destruct (Bid (res t)) as [winning|]; [|exact Hsel].
        destruct Hsel as (winner & others & Hlist & Hin & Hwb & Hscore & Hothers).
        exists winner, others. repeat split; auto.
        eapply Forall_impl; [exact Hothers|]. intros r (? & ? & ?). auto. }
  destruct Hinv as [Hmax Hsel].
  rewrite Z.gtb_ltb. destruct (Z.ltb_spec (bestScore t) (score resp)) as [Hhigher|Hle].
  - (* New winning bid *)
    split; simpl.
    + intros r Hin Hr. apply elem_of_app in Hin as [Hin|Hin].
      * specialize (Hmax r Hin Hr). lia.
      * apply list_elem_of_singleton in Hin. subst r. lia.
    + exists resp, []. repeat split; auto.
      apply elem_of_app. right. apply list_elem_of_here.
  - assert (Hmax' : forall r, r ∈ seen ++ [resp] -> is_Some (bid r) ->
                         score r <= bestScore t).
    { intros r Hin Hr. apply elem_of_app in Hin as [Hin|Hin]; [by apply Hmax|].
      apply list_elem_of_singleton in Hin. by subst r. }
    destruct (Bid (res t)) as [winning|] eqn:Hwinning.
    + destruct Hsel as (winner & others & Hlist & Hin & Hwb & Hscore & Hothers).
      assert (Hothers' : Forall (fun r => r ∈ seen ++ [resp]
                                          /\ score r = bestScore t
                                          /\ sameHeader winning r) others).
      { eapply Forall_impl; [exact Hothers|]. intros r (? & ? & ?). auto. }
      destruct ((score resp =? bestScore t) && bidsEqual winning respBid) eqn:Htie.
      * (* Matching bid from a different relay *)
        apply andb_true_iff in Htie as [Hsame Hequal]. apply Z.eqb_eq in Hsame.
        split; simpl; [exact Hmax'|]. rewrite ?Hwinning.
        exists winner, (others ++ [resp]). rewrite Hlist, map_app. simpl.
        repeat split; auto.
        apply Forall_app. split; [exact Hothers'|].
        constructor; [|constructor].
        split; [apply elem_of_app; right; apply list_elem_of_here|].
        split; [exact Hsame|]. by eapply bidsEqual_sameHeader.
      * (* Low or slow bid *)
        split; simpl; [exact Hmax'|]. rewrite ?Hwinning.
        exists winner, others. repeat split; auto.
    + split; simpl; [exact Hmax'|]. rewrite ?Hwinning. exact Hsel.
Qed.

(** What every step of either loop keeps: [values] is what the responses
    seen record, and the selection holds. *)
Lemma kept_step requests t ev seen :
  Values (res t) = recorded seen /\ selection seen t ->
  (Values (res (step1 requests t ev)) = recorded (seen ++ responsesOf [ev])
   /\ selection (seen ++ responsesOf [ev]) (step1 requests t ev))
  /\ (Values (res (step2 requests t ev)) = recorded (seen ++ responsesOf [ev])
      /\ selection (seen ++ responsesOf [ev]) (step2 requests t ev)).
Proof.
  intros [Hvalues Hsel].
  destruct (Values_step requests t ev seen Hvalues) as [Hv1 Hv2].
  split; (split; [assumption|]).
  - destruct ev as [resp| |]; cbn [step1 responsesOf omap].
    + by apply selection_onResponse.
    + cbn. rewrite app_nil_r. exact Hsel.
    + cbn. rewrite app_nil_r. exact Hsel.
  - destruct ev as [resp| |]; cbn [step2 responsesOf omap].
    + by apply selection_onResponse.
    + cbn. rewrite app_nil_r. exact Hsel.
    + cbn. rewrite app_nil_r. exact Hsel.
Qed.

Lemma kept_fold1 requests consumed :
  forall t seen,
    Values (res t) = recorded seen /\ selection seen t ->
    Values (res (fold_left (step1 requests) consumed t))
      = recorded (seen ++ responsesOf consumed)
    /\ selection (seen ++ responsesOf consumed)
         (fold_left (step1 requests) consumed t).
Proof.
  induction consumed as [|ev rest IH]; intros t seen Hinv; cbn [fold_left].
  - cbn. by rewrite app_nil_r.
  - change (ev :: rest) with ([ev] ++ rest).
    rewrite responsesOf_app, app_assoc. apply IH.
    by apply (kept_step requests t ev seen).
Qed.

Lemma kept_fold2 requests consumed :
  forall t seen,
    Values (res t) = recorded seen /\ selection seen t ->
    Values (res (fold_left (step2 requests) consumed t))
      = recorded (seen ++ responsesOf consumed)
    /\ selection (seen ++ responsesOf consumed)
         (fold_left (step2 requests) consumed t).
Proof.
  induction consumed as [|ev rest IH]; intros t seen Hinv; cbn [fold_left].
  - cbn. by rewrite app_nil_r.
  - change (ev :: rest) with ([ev] ++ rest).
    rewrite responsesOf_app, app_assoc. apply IH.
    by apply (kept_step requests t ev seen).
Qed.

(** A finished auction consumed a prefix of the select outcomes; its result
    is the [res] of a tally that records the responses consumed and
    satisfies the selection, and is nil exactly when there is no winning
    bid. *)
Lemma fanIn_finished requests sel result unread :
  fanIn requests sel = Finished result unread ->
  exists consumed t,
    sel = consumed ++ unread
    /\ Values (res t) = recorded (responsesOf consumed)
    /\ selection (responsesOf consumed) t
    /\ result = match Bid (res t) with
                | None => None
                | Some _ => Some (res t)
                end.
Proof.
  unfold fanIn. intros Hrun.
  destruct (loop1 requests initial sel) as [[t1 sel1]|] eqn:Hloop1; [|discriminate].
  destruct (loop2 requests t1 sel1) as [[t2 sel2]|] eqn:Hloop2; [|discriminate].
  destruct (loop1_run _ _ _ _ _ Hloop1) as (c1 & -> & ->).
  destruct (loop2_run _ _ _ _ _ Hloop2) as (c2 & -> & ->).
  assert (Hinit : Values (res initial) = recorded [] /\ selection [] initial).
  { split; [reflexivity|]. split; cbn; [|done].
    intros resp Hin. by apply not_elem_of_nil in Hin. }
  pose proof (kept_fold1 requests c1 _ _ Hinit) as H1. cbn [app] in H1.
  pose proof (kept_fold2 requests c2 _ _ H1) as [Hvalues Hsel].
  rewrite <- responsesOf_app in Hvalues, Hsel.
  exists (c1 ++ c2), (fold_left (step2 requests) c2 (fold_left (step1 requests) c1 initial)).
  assert (Hunread : unread = sel2
                    /\ result = match Bid (res (fold_left (step2 requests) c2
                                     (fold_left (step1 requests) c1 initial))) with
                                | None => None
                                | Some _ => Some (res (fold_left (step2 requests) c2
                                     (fold_left (step1 requests) c1 initial)))
                                end).
  { destruct (Bid (res (fold_left (step2 requests) c2
                          (fold_left (step1 requests) c1 initial))));
      by inversion Hrun. }
  destruct Hunread as [-> ->].
  split; [by rewrite app_assoc|]. auto.
Qed.

(** C3, as the code has it.  In the result of a finished auction,
    [values] has an entry for an address exactly when a response consumed
    from the response channel came from a provider of that address and
    carried a bid, and the entry is the score of such a response.  A
    zero-score response (nil bid: the relay declined or bid below its
    minimum), an error and a relay that never responded leave no entry. *)
Theorem C3_values_of_responses_with_bids s relayPubkeys slot parentHash pubkey
    proposerConfig order result unread :
  bestBuilderBid s relayPubkeys slot parentHash pubkey proposerConfig order
    = Finished (Some result) unread ->
  exists consumed,
    arrivals (taskMessages s relayPubkeys slot parentHash pubkey
                (launch s (Relays proposerConfig))) order
      = consumed ++ unread
    /\ (forall a sc,
          Values result !! a = Some sc ->
          exists resp,
            FromRespCh resp ∈ consumed /\ is_Some (bid resp)
            /\ Address (provider resp) = a /\ score resp = sc)
    /\ (forall resp,
          FromRespCh resp ∈ consumed -> is_Some (bid resp) ->
          is_Some (Values result !! Address (provider resp)))
    /\ (forall a,
          (forall resp, FromRespCh resp ∈ consumed ->
                        Address (provider resp) = a -> bid resp = None) ->
          Values result !! a = None).
Proof.
  unfold bestBuilderBid. intros Hrun.
  destruct (fanIn_finished _ _ _ _ Hrun) as (consumed & t & Hsel & Hvalues & _ & Hres).
  assert (result = res t) as ->.
  { destruct (Bid (res t)); by inversion Hres. }
  exists consumed. split; [exact Hsel|].
  destruct (recorded_entries (responsesOf consumed)) as [Hentry Hcover].
  rewrite Hvalues.
  assert (Hfrom : forall a sc,
             recorded (responsesOf consumed) !! a = Some sc ->
             exists resp,
               FromRespCh resp ∈ consumed /\ is_Some (bid resp)
               /\ Address (provider resp) = a /\ score resp = sc).
  { intros a sc Ha. destruct (Hentry a sc Ha) as (resp & Hin & Hrest).
    exists resp. split; [by apply responsesOf_elem | exact Hrest]. }
  split; [exact Hfrom|]. split.
  - intros resp Hin Hbid. apply Hcover; [by apply responsesOf_elem | exact Hbid].
  - intros a Hnone.
    destruct (recorded (responsesOf consumed) !! a) as [sc|] eqn:Ha; [|reflexivity].
    destruct (Hfrom a sc Ha) as (resp & Hin & Hbid & Haddr & _).
    rewrite (Hnone resp Hin Haddr) in Hbid. by destruct Hbid.
Qed.

(** C6, as the code has it.  In the result of a finished auction with a
    winning bid, the providers list is the provider of the response that
    brought the winning bid, followed by the providers of responses that
    have the winner's score and a bid whose computed header root is the
    computed header root of the winning bid; the winner's score is the
    highest score of any bid consumed.  A response that ties on score with a
    different header, or where either header root cannot be computed, adds
    no provider. *)
Theorem C6_providers_of_winning_header s relayPubkeys slot parentHash pubkey
    proposerConfig order result unread :
  bestBuilderBid s relayPubkeys slot parentHash pubkey proposerConfig order
    = Finished (Some result) unread ->
  exists consumed winning winner others,
    arrivals (taskMessages s relayPubkeys slot parentHash pubkey
                (launch s (Relays proposerConfig))) order
      = consumed ++ unread
    /\ Bid result = Some winning
    /\ Providers result = provider winner :: map provider others
    /\ FromRespCh winner ∈ consumed
    /\ bid winner = Some winning
    /\ (forall resp, FromRespCh resp ∈ consumed -> is_Some (bid resp) ->
                     score resp <= score winner)
    /\ Forall (fun resp => FromRespCh resp ∈ consumed
                           /\ score resp = score winner
                           /\ sameHeader winning resp) others.
Proof.
  unfold bestBuilderBid. intros Hrun.
  destruct (fanIn_finished _ _ _ _ Hrun)
    as (consumed & t & Hsel & _ & [Hmax Hselection] & Hres).
  destruct (Bid (res t)) as [winning|] eqn:Hwinning; [|discriminate].
  inversion Hres; subst result.
  destruct Hselection as (winner & others & Hlist & Hin & Hbid & Hscore & Hothers).
  exists consumed, winning, winner, others.
  split; [exact Hsel|]. split; [exact Hwinning|]. split; [exact Hlist|].
  split; [by apply responsesOf_elem|]. split; [exact Hbid|]. split.
  - intros resp Hresp Hb. rewrite Hscore. apply Hmax; [by apply responsesOf_elem | exact Hb].
  - eapply Forall_impl; [exact Hothers|].
    intros resp (Hr & Hs & Hh). split; [by apply responsesOf_elem|].
    split; [congruence | exact Hh].
Qed.

(** *** Waiting for relays that were never asked *)

Lemma length_taskMessages s tasks :
  forall relayPubkeys slot parentHash pubkey,
    length (taskMessages s relayPubkeys slot parentHash pubkey tasks)
    = length tasks.
Proof.
  induction tasks as [|[provider relay] rest IH]; intros; cbn [taskMessages].
  - reflexivity.
  - destruct (builderBid s relayPubkeys provider slot parentHash pubkey relay).
    cbn. by rewrite IH.
Qed.

Lemma length_arrivals msgs order :
  (length (arrivals msgs order) <= length order)%nat.
Proof.
  induction order as [|o rest IH]; [reflexivity|].
  unfold arrivals in *. cbn [omap list_omap].
  destruct (match o with None => _ | Some _ => _ end); cbn [length]; lia.
Qed.

Lemma length_launch s relays :
  (length (launch s relays) <= length relays)%nat.
Proof.
  induction relays as [|relay rest IH]; cbn [launch]; [reflexivity|].
  destruct (FetchBuilderClient s (relay_Address relay)) as [client|]; [|cbn; lia].
  destruct (asBuilderBidProvider client); cbn; lia.
Qed.

(** A message moves exactly one of the two counters and leaves the
    time-out counters alone. *)
Lemma step1_message requests t ev :
  isMessage ev = true ->
  timedOut (step1 requests t ev) = timedOut t
  /\ softTimedOut (step1 requests t ev) = softTimedOut t
  /\ responded (step1 requests t ev) + errored (step1 requests t ev)
     = responded t + errored t + 1.
Proof.
  intros Hev. destruct ev as [resp| |]; [| |discriminate]; cbn [step1].
  - unfold onResponse. destruct (bid resp); [|simpl; lia].
    destruct (score resp >? bestScore t); [simpl; lia|].
    destruct (match Bid (res t) with Some _ => _ | None => _ end); simpl; lia.
  - simpl. lia.
Qed.

(** Before any deadline fires, loop 1 cannot exit while fewer messages
    have arrived than [requests]. *)
Lemma loop1_waits requests sel :
  forall t,
    Forall (fun ev => isMessage ev = true) sel ->
    timedOut t = 0 -> softTimedOut t = 0 ->
    responded t + errored t + len sel < requests ->
    loop1 requests t sel = None.
Proof.
  induction sel as [|ev rest IH]; intros t Hmsgs Hto Hsoft Hfew;
    cbn [loop1]; unfold len in *; cbn [length] in Hfew.
  - destruct (Z.eqb_spec (responded t + errored t + timedOut t + softTimedOut t)
                requests); [lia | reflexivity].
  - destruct (Z.eqb_spec (responded t + errored t + timedOut t + softTimedOut t)
                requests); [lia|]. cbn [negb].
    apply Forall_cons in Hmsgs as [Hev Hmsgs].
    destruct (step1_message requests t ev Hev) as (Hto' & Hsoft' & Hcount).
    apply IH; [exact Hmsgs | lia | lia | lia].
Qed.

(** A loop whose exit condition holds stops at once. *)
Lemma loop1_exit requests t sel :
  responded t + errored t + timedOut t + softTimedOut t = requests ->
  loop1 requests t sel = Some (t, sel).
Proof.
  intros Hdone. destruct sel; cbn [loop1];
    by rewrite (proj2 (Z.eqb_eq _ _) Hdone).
Qed.

Lemma loop2_exit requests t sel :
  responded t + errored t + timedOut t = requests ->
  loop2 requests t sel = Some (t, sel).
Proof.
  intros Hdone. destruct sel; cbn [loop2];
    by rewrite (proj2 (Z.eqb_eq _ _) Hdone).
Qed.

(** Loop 1 is over by the time the soft deadline has fired, loop 2 by the
    time the hard deadline has: what follows the deadline is left unread. *)
Lemma loop1_deadline requests sel tail :
  forall t,
  exists t' unread k,
    loop1 requests t (sel ++ CtxDone :: tail) = Some (t', unread)
    /\ unread = k ++ tail.
Proof.
  induction sel as [|ev rest IH]; intros t.
  - cbn [app loop1].
    destruct (Z.eqb_spec (responded t + errored t + timedOut t + softTimedOut t)
                requests) as [Hdone|Hmore]; cbn [negb].
    + by exists t, (CtxDone :: tail), [CtxDone].
    + exists (onSoftTimeout requests t), tail, []. split; [|reflexivity].
      cbn [step1]. apply loop1_exit. unfold onSoftTimeout. simpl.
      destruct (responded t >? 0); lia.
  - cbn [app loop1].
    destruct (Z.eqb_spec (responded t + errored t + timedOut t + softTimedOut t)
                requests) as [Hdone|Hmore]; cbn [negb].
    + exists t, (ev :: rest ++ CtxDone :: tail), (ev :: rest ++ [CtxDone]).
      split; [reflexivity|]. cbn. by rewrite <- app_assoc.
    + apply IH.
Qed.

Lemma loop2_deadline requests sel tail :
  forall t,
  exists t' unread,
    loop2 requests t (sel ++ CtxDone :: tail) = Some (t', unread).
Proof.
  induction sel as [|ev rest IH]; intros t.
  - cbn [app loop2].
    destruct (Z.eqb_spec (responded t + errored t + timedOut t) requests)
      as [Hdone|Hmore]; cbn [negb].
    + by exists t, (CtxDone :: tail).
    + exists (onHardTimeout requests t), tail.
      cbn [step2]. apply loop2_exit. unfold onHardTimeout. simpl. lia.
  - cbn [app loop2].
    destruct (Z.eqb_spec (responded t + errored t + timedOut t) requests)
      as [Hdone|Hmore]; cbn [negb].
    + by exists t, (ev :: rest ++ CtxDone :: tail).
    + apply IH.
Qed.

(** Once both deadlines have fired the auction has finished, whatever
    arrived before. *)
Lemma fanIn_deadlines requests sel :
  exists result unread,
    fanIn requests (sel ++ [CtxDone; CtxDone]) = Finished result unread.
Proof.
  unfold fanIn.
  destruct (loop1_deadline requests sel [CtxDone] initial)
    as (t1 & unread1 & k & -> & ->).
  destruct (loop2_deadline requests k [] t1) as (t2 & unread2 & ->).
  destruct (Bid (res t2)); eauto.
Qed.

(** C1, as the code has it.  The expected number of responders is the
    number of relays of the proposer configuration, whether or not a task
    was launched for each.  So when some relay was skipped, the loops do
    not exit on the messages of the launched tasks alone, not even when all
    of them have arrived: the auction is still waiting until a deadline
    fires, and it has finished once both have. *)
Theorem C1_skipped_relays_wait_for_deadline s relayPubkeys slot parentHash pubkey
    proposerConfig order :
  (length (launch s (Relays proposerConfig)) < length (Relays proposerConfig))%nat ->
  Forall is_Some order ->
  order ⊆+ Some <$> seq 0 (length (launch s (Relays proposerConfig))) ->
  bestBuilderBid s relayPubkeys slot parentHash pubkey proposerConfig order
    = Waiting
  /\ exists result unread,
      bestBuilderBid s relayPubkeys slot parentHash pubkey proposerConfig
        (order ++ [None; None])
      = Finished result unread.
Proof.
  intros Hskipped Hnodeadline Honce. split.
  - unfold bestBuilderBid, fanIn.
    rewrite loop1_waits; [reflexivity| | reflexivity | reflexivity |].
    + unfold arrivals. apply Forall_forall. intros ev Hev.
      apply list_elem_of_omap in Hev as (o & Ho & Hev).
      rewrite Forall_forall in Hnodeadline. destruct (Hnodeadline o Ho) as [i ->].
      destruct (_ !! i) as [[resp|err]|]; inversion Hev; reflexivity.
    + cbn. unfold len.
      assert (length (arrivals (taskMessages s relayPubkeys slot parentHash pubkey
                                  (launch s (Relays proposerConfig))) order)
              <= length order)%nat by apply length_arrivals.
      apply submseteq_length in Honce. rewrite length_fmap, length_seq in Honce.
      lia.
  - unfold bestBuilderBid, arrivals. rewrite omap_app. apply fanIn_deadlines.
Qed.

End Auction.

(** C1 as stated fails: of two relays, "a" cannot be reached and "b" bids.
    When the message of the only task launched has arrived, the auction has
    not finished: the count of expected responders is still 2. *)
Lemma C1_count_not_decremented :
  length (blockrelay.launch (fixtures.auctioneer fixtures.unreachableA)
            (blockrelay.Relays fixtures.twoRelays)) = 1%nat
  /\ ~ (exists result unread,
          blockrelay.bestBuilderBid (fixtures.auctioneer fixtures.unreachableA) ∅
            100 [] [] fixtures.twoRelays [Some 0%nat]
          = blockrelay.Finished result unread).
Proof.
  split; [reflexivity|].
  intros (result & unread & Hrun). vm_compute in Hrun. discriminate Hrun.
Qed.

(** C1, as the code has it, on that run: waiting after the message of "b",
    finished with "b" as the winner after the deadlines. *)
Lemma C1_skipped_relays_wait_for_deadline_witness :
  blockrelay.bestBuilderBid (fixtures.auctioneer fixtures.unreachableA) ∅
    100 [] [] fixtures.twoRelays [Some 0%nat]
  = blockrelay.Waiting
  /\ exists result unread,
      blockrelay.bestBuilderBid (fixtures.auctioneer fixtures.unreachableA) ∅
        100 [] [] fixtures.twoRelays [Some 0%nat; None; None]
      = blockrelay.Finished result unread.
Proof.
  apply (C1_skipped_relays_wait_for_deadline
           (fixtures.auctioneer fixtures.unreachableA) ∅ 100 [] []
           fixtures.twoRelays [Some 0%nat]).
  - vm_compute. lia.
  - repeat constructor. by exists 0%nat.
  - vm_compute. reflexivity.
Defined.

(** C3 as stated fails: relay "a" declines (a nil bid, hence a zero-score
    response on the response channel) and relay "b" bids 5; the auction
    finishes with a result whose [values] has no entry for "a". *)
Lemma C3_zero_score_response_not_recorded :
  ~ (forall result unread,
        blockrelay.bestBuilderBid (fixtures.auctioneer fixtures.decliningA) ∅
          100 [] [] fixtures.twoRelays [Some 0%nat; Some 1%nat]
          = blockrelay.Finished (Some result) unread ->
        forall resp,
          blockrelay.FromRespCh resp
            ∈ blockrelay.arrivals
                (blockrelay.taskMessages (fixtures.auctioneer fixtures.decliningA)
                   ∅ 100 [] []
                   (blockrelay.launch (fixtures.auctioneer fixtures.decliningA)
                      (blockrelay.Relays fixtures.twoRelays)))
                [Some 0%nat; Some 1%nat] ->
          is_Some (blockrelay.Values result
                     !! blockrelay.Address (blockrelay.provider resp))).
Proof.
  intros Hclaim.
  destruct (blockrelay.bestBuilderBid (fixtures.auctioneer fixtures.decliningA) ∅
              100 [] [] fixtures.twoRelays [Some 0%nat; Some 1%nat])
    as [|[result|] unread] eqn:Hrun; vm_compute in Hrun; try discriminate Hrun.
  specialize (Hclaim result unread eq_refl
                {| blockrelay.provider := fixtures.relayAt "a" (Go.Ok None);
                   blockrelay.bid := None;
                   blockrelay.score := 0 |}).
  destruct Hclaim as [sc Hentry].
  - vm_compute. apply list_elem_of_here.
  - inversion Hrun; subst result. vm_compute in Hentry. discriminate Hentry.
Qed.

(** C3, as the code has it, on the same run: "b", which bid, has its score
    in [values]. *)
Lemma C3_values_of_responses_with_bids_witness :
  exists result,
    blockrelay.bestBuilderBid (fixtures.auctioneer fixtures.decliningA) ∅
      100 [] [] fixtures.twoRelays [Some 0%nat; Some 1%nat]
      = blockrelay.Finished (Some result) []
    /\ blockrelay.Values result !! "b" = Some 5
    /\ exists resp,
        blockrelay.Address (blockrelay.provider resp) = "b"
        /\ blockrelay.score resp = 5
        /\ is_Some (blockrelay.bid resp).
Proof.
  eexists. split; [vm_compute; reflexivity|].
  split; [vm_compute; reflexivity|].
  edestruct (C3_values_of_responses_with_bids
               (fixtures.auctioneer fixtures.decliningA) ∅ 100 [] []
               fixtures.twoRelays [Some 0%nat; Some 1%nat])
    as (consumed & _ & Hfrom & _); [vm_compute; reflexivity|].
  destruct (Hfrom "b" 5) as (resp & _ & Hbid & Haddr & Hscore);
    [vm_compute; reflexivity|].
  exists resp. auto.
Defined.

(** C6 as stated fails: relay "a" bids 5 with a header whose root cannot be
    computed and relay "b" bids 3; "a" wins and is in the providers list. *)
Lemma C6_winner_without_header_root :
  ~ (forall result unread,
        blockrelay.bestBuilderBid (fixtures.auctioneer fixtures.brokenHeaderA) ∅
          100 [] [] fixtures.twoRelays [Some 0%nat; Some 1%nat]
          = blockrelay.Finished (Some result) unread ->
        forall resp,
          blockrelay.FromRespCh resp
            ∈ blockrelay.arrivals
                (blockrelay.taskMessages
                   (fixtures.auctioneer fixtures.brokenHeaderA) ∅ 100 [] []
                   (blockrelay.launch (fixtures.auctioneer fixtures.brokenHeaderA)
                      (blockrelay.Relays fixtures.twoRelays)))
                [Some 0%nat; Some 1%nat] ->
          blockrelay.provider resp ∈ blockrelay.Providers result ->
          exists respBid root,
            blockrelay.bid resp = Some respBid
            /\ blockrelay.HeaderHashTreeRoot respBid = Go.Ok root).
Proof.
  intros Hclaim.
  destruct (blockrelay.bestBuilderBid (fixtures.auctioneer fixtures.brokenHeaderA) ∅
              100 [] [] fixtures.twoRelays [Some 0%nat; Some 1%nat])
    as [|[result|] unread] eqn:Hrun; vm_compute in Hrun; try discriminate Hrun.
  specialize (Hclaim result unread eq_refl
                {| blockrelay.provider :=
                     fixtures.relayAt "a"
                       (Go.Ok (Some (fixtures.bidOf 5 (Go.Err "no header"))));
                   blockrelay.bid := Some (fixtures.bidOf 5 (Go.Err "no header"));
                   blockrelay.score := 5 |}).
  destruct Hclaim as (respBid & root & Hbid & Hroot).
  - vm_compute. apply list_elem_of_here.
  - inversion Hrun; subst result. vm_compute. apply list_elem_of_here.
  - cbn in Hbid. inversion Hbid; subst respBid. discriminate Hroot.
Qed.

(** C6, as the code has it, when both relays relay the same block for 5:
    the first to arrive is the winner and the second is appended. *)
Lemma C6_providers_of_winning_header_witness :
  exists result winner others,
    blockrelay.bestBuilderBid (fixtures.auctioneer fixtures.sameBlock) ∅
      100 [] [] fixtures.twoRelays [Some 1%nat; Some 0%nat]
      = blockrelay.Finished (Some result) []
    /\ map blockrelay.Address (blockrelay.Providers result) = ["b"; "a"]
    /\ blockrelay.Providers result
       = blockrelay.provider winner :: map blockrelay.provider others
    /\ Forall (fun resp => blockrelay.score resp = blockrelay.score winner) others.
Proof.
  edestruct (C6_providers_of_winning_header
               (fixtures.auctioneer fixtures.sameBlock) ∅ 100 [] []
               fixtures.twoRelays [Some 1%nat; Some 0%nat])
    as (consumed & winning & winner & others & _ & _ & Hlist & _ & _ & _ & Hothers);
    [vm_compute; reflexivity|].
  eexists _, winner, others. split; [vm_compute; reflexivity|].
  split; [vm_compute; reflexivity|]. split; [exact Hlist|].
  eapply Forall_impl; [exact Hothers|]. intros resp (_ & Hscore & _). exact Hscore.
Defined.

(** * Further properties *)

(** ** Bids: equality, validation and the memoised keys *)

Section Bids.
Import blockrelay.
Implicit Types (s : Service) (relayPubkeys : gmap (list Z) (list Z)).
Implicit Types (relayConfig : RelayConfig) (provider : BuilderBidProvider).
Implicit Types (bid : VersionedSignedBuilderBid).

(** X1.  [bidsEqual] looks at the header roots only: it is symmetric and
    transitive, holds of a bid and itself exactly when the header root of
    the bid can be computed, and does not tell apart two bids with the same
    header root result, whatever their values. *)
Theorem bidsEqual_header_equivalence bid1 bid2 bid3 :
  bidsEqual bid1 bid2 = bidsEqual bid2 bid1
  /\ (bidsEqual bid1 bid2 = true -> bidsEqual bid2 bid3 = true ->
      bidsEqual bid1 bid3 = true)
  /\ (bidsEqual bid1 bid1 = true <-> exists root, HeaderHashTreeRoot bid1 = Go.Ok root)
  /\ (HeaderHashTreeRoot bid1 = HeaderHashTreeRoot bid2 ->
      bidsEqual bid1 bid3 = bidsEqual bid2 bid3).
Proof.
  unfold bidsEqual, bytes_Equal. repeat split.
  - destruct (HeaderHashTreeRoot bid1) as [r1|], (HeaderHashTreeRoot bid2) as [r2|];
      try reflexivity.
    apply bool_decide_ext. split; congruence.
  - destruct (HeaderHashTreeRoot bid1) as [r1|]; [|done].
    destruct (HeaderHashTreeRoot bid2) as [r2|]; [|done].
    destruct (HeaderHashTreeRoot bid3) as [r3|]; [|done].
    rewrite !bool_decide_eq_true. congruence.
  - destruct (HeaderHashTreeRoot bid1) as [r1|]; [eauto | done].
  - intros [root ->]. by apply bool_decide_eq_true.
  - intros ->. reflexivity.
Qed.

(** X2.  What [builderBid] sends on the response channel has been checked:
    the response names the provider asked; with a bid, it is the bid the
    provider returned, not empty, of a value that is the score, not zero and
    not below the relay's minimum, with a fee recipient other than the zero
    address, the timestamp of the start of the slot and a signature that
    [verifyBidSignature] accepted without error; without a bid, the score
    is zero, the relay declined or bid below its minimum, and nothing was
    memoised. *)
Theorem builderBid_response_checked s relayPubkeys relayPubkeys' provider slot
    parentHash pubkey relayConfig resp :
  builderBid s relayPubkeys provider slot parentHash pubkey relayConfig
    = (relayPubkeys', OnRespCh resp) ->
  blockrelay.provider resp = provider
  /\ match blockrelay.bid resp with
     | Some bid =>
         BuilderBid provider slot parentHash pubkey = Go.Ok (Some bid)
         /\ IsEmpty bid = false
         /\ Value bid = Go.Ok (score resp)
         /\ score resp <> 0
         /\ MinValue relayConfig <= score resp
         /\ (exists feeRecipient,
               FeeRecipient bid = Go.Ok feeRecipient
               /\ feeRecipient <> zeroExecutionAddress)
         /\ Timestamp bid = Go.Ok (Go.u64 (chainTime_StartOfSlot s slot))
         /\ verifyBidSignature s relayPubkeys relayConfig bid provider
            = (relayPubkeys', (true, None))
     | None =>
         score resp = 0
         /\ relayPubkeys' = relayPubkeys
         /\ (BuilderBid provider slot parentHash pubkey = Go.Ok None
             \/ exists bid value,
                 BuilderBid provider slot parentHash pubkey = Go.Ok (Some bid)
                 /\ Value bid = Go.Ok value
                 /\ value <> 0 /\ value < MinValue relayConfig)
     end.
Proof.
  unfold builderBid. intros Hsent.
  destruct (BuilderBid provider slot parentHash pubkey) as [[bid|]|e] eqn:Hbid;
    [| |discriminate].
  2:{ inversion Hsent; subst. cbn. auto. }
  destruct (if traceEnabled s then MarshalJSON bid else Go.Ok []); [|discriminate].
  destruct (IsEmpty bid) eqn:Hempty; [discriminate|].
  destruct (Value bid) as [value|] eqn:Hvalue; [|discriminate].
  destruct (Z.eqb_spec value 0) as [|Hnz]; [discriminate|].
  destruct (Z.ltb_spec value (MinValue relayConfig)) as [Hlow|Hmin].
  { inversion Hsent; subst. cbn. split; [reflexivity|]. split; [reflexivity|].
    split; [reflexivity|]. right. exists bid, value. auto. }
  destruct (FeeRecipient bid) as [feeRecipient|] eqn:Hfee; [|discriminate].
  unfold bytes_Equal in Hsent.
  destruct (decide (feeRecipient = zeroExecutionAddress)) as [Hz|Hfeenz].
  { rewrite bool_decide_eq_true_2 in Hsent by done. discriminate. }
  rewrite bool_decide_eq_false_2 in Hsent by done.
  destruct (Timestamp bid) as [timestamp|] eqn:Hts; [|discriminate].
  destruct (Z.eqb_spec (Go.u64 (chainTime_StartOfSlot s slot)) timestamp)
    as [Hstart|]; [|discriminate]. cbn [negb] in Hsent.
  destruct (verifyBidSignature s relayPubkeys relayConfig bid provider)
    as [cache [[|] [e|]]] eqn:Hverify; try discriminate Hsent.
  inversion Hsent; subst. cbn.
  repeat split; eauto.
Qed.

(** [verifyBidSignature] only adds to the memoised keys, and what it adds
    is the parse of the key bytes it is stored under. *)
Lemma verifyBidSignature_added s relayPubkeys relayConfig bid provider :
  relayPubkeys ⊆ (verifyBidSignature s relayPubkeys relayConfig bid provider).1
  /\ forall k pubkey,
      (verifyBidSignature s relayPubkeys relayConfig bid provider).1 !! k
        = Some pubkey ->
      relayPubkeys !! k = Some pubkey
      \/ BLSPublicKeyFromBytes (crypto s) k = Go.Ok pubkey.
Proof.
  unfold verifyBidSignature.
  destruct (match PublicKey relayConfig with
            | Some k => Some k
            | None => Pubkey provider
            end) as [k|]; [|by auto].
  destruct (relayPubkeys !! k) as [pubkey|] eqn:Hhit.
  { destruct (MessageHashTreeRoot bid) as [dataRoot|e]; [|by auto].
    destruct (SigningData_HashTreeRoot (crypto s) dataRoot (applicationBuilderDomain s))
      as [signingRoot|e]; [|by auto].
    destruct (Signature bid) as [bidSig|e]; [|by auto].
    destruct (BLSSignatureFromBytes (crypto s) bidSig) as [sig|e]; by auto. }
  destruct (BLSPublicKeyFromBytes (crypto s) k) as [pubkey|e] eqn:Hparse; [|by auto].
  assert (Hgrown :
    relayPubkeys ⊆ <[k := pubkey]> relayPubkeys
    /\ forall k' pubkey',
        <[k := pubkey]> relayPubkeys !! k' = Some pubkey' ->
        relayPubkeys !! k' = Some pubkey'
        \/ BLSPublicKeyFromBytes (crypto s) k' = Go.Ok pubkey').
  { split; [by apply insert_subseteq|].
    intros k' pubkey' Hk'. destruct (decide (k = k')) as [<-|Hne].
    - rewrite lookup_insert_eq in Hk'. inversion Hk'; subst. by right.
    - rewrite lookup_insert_ne in Hk' by done. by left. }
  destruct (MessageHashTreeRoot bid) as [dataRoot|e]; [|exact Hgrown].
  destruct (SigningData_HashTreeRoot (crypto s) dataRoot (applicationBuilderDomain s))
    as [signingRoot|e]; [|exact Hgrown].
  destruct (Signature bid) as [bidSig|e]; [|exact Hgrown].
  destruct (BLSSignatureFromBytes (crypto s) bidSig) as [sig|e]; exact Hgrown.
Qed.

(** X3.  [verifyBidSignature] never reports a bid as verified together with
    an error; it only adds to the memoised keys, and what it adds is the
    parse of the key bytes it is stored under. *)
Theorem verifyBidSignature_memo_grows s relayPubkeys relayPubkeys' relayConfig
    bid provider verified err :
  verifyBidSignature s relayPubkeys relayConfig bid provider
    = (relayPubkeys', (verified, err)) ->
  (err <> None -> verified = false)
  /\ relayPubkeys ⊆ relayPubkeys'
  /\ forall k pubkey,
      relayPubkeys' !! k = Some pubkey ->
      relayPubkeys !! k = Some pubkey
      \/ BLSPublicKeyFromBytes (crypto s) k = Go.Ok pubkey.
Proof.
  intros Hrun.
  pose proof (verifyBidSignature_added s relayPubkeys relayConfig bid provider)
    as Hadded.
  rewrite Hrun in Hadded. cbn [fst] in Hadded. split; [|exact Hadded].
  revert Hrun. unfold verifyBidSignature.
  destruct (match PublicKey relayConfig with
            | Some k => Some k
            | None => Pubkey provider
            end) as [k|]; [|by intros [= _ <- <-]].
  destruct (match relayPubkeys !! k with
            | Some pubkey => (relayPubkeys, Go.Ok pubkey)
            | None => _
            end) as [cache [pubkey|e]]; [|by intros [= _ <- <-]].
  destruct (MessageHashTreeRoot bid) as [dataRoot|e]; [|by intros [= _ <- <-]].
  destruct (SigningData_HashTreeRoot (crypto s) dataRoot (applicationBuilderDomain s))
    as [signingRoot|e]; [|by intros [= _ <- <-]].
  destruct (Signature bid) as [bidSig|e]; [|by intros [= _ <- <-]].
  destruct (BLSSignatureFromBytes (crypto s) bidSig) as [sig|e];
    by intros [= _ <- <-].
Qed.

(** X4.  Memoisation does not change the verdict: when every memoised key
    is the parse of its bytes, [verifyBidSignature] answers as it would
    with nothing memoised, and the memoised keys stay that way. *)
Theorem verifyBidSignature_memo_transparent s relayPubkeys relayConfig bid provider :
  (forall k pubkey,
      relayPubkeys !! k = Some pubkey ->
      BLSPublicKeyFromBytes (crypto s) k = Go.Ok pubkey) ->
  (verifyBidSignature s relayPubkeys relayConfig bid provider).2
  = (verifyBidSignature s ∅ relayConfig bid provider).2
  /\ forall k pubkey,
      (verifyBidSignature s relayPubkeys relayConfig bid provider).1 !! k
        = Some pubkey ->
      BLSPublicKeyFromBytes (crypto s) k = Go.Ok pubkey.
Proof.
  intros Hmemo. split.
  - unfold verifyBidSignature.
    destruct (match PublicKey relayConfig with
              | Some k => Some k
              | None => Pubkey provider
              end) as [k|]; [|reflexivity].
    rewrite lookup_empty.
    destruct (relayPubkeys !! k) as [pubkey|] eqn:Hhit.
    + rewrite (Hmemo k pubkey Hhit).
      destruct (MessageHashTreeRoot bid) as [dataRoot|e]; [|reflexivity].
      destruct (SigningData_HashTreeRoot (crypto s) dataRoot
                  (applicationBuilderDomain s)) as [signingRoot|e]; [|reflexivity].
      destruct (Signature bid) as [bidSig|e]; [|reflexivity].
      by destruct (BLSSignatureFromBytes (crypto s) bidSig).
    + destruct (BLSPublicKeyFromBytes (crypto s) k) as [pubkey|e]; [|reflexivity].
      destruct (MessageHashTreeRoot bid) as [dataRoot|e]; [|reflexivity].
      destruct (SigningData_HashTreeRoot (crypto s) dataRoot
                  (applicationBuilderDomain s)) as [signingRoot|e]; [|reflexivity].
      destruct (Signature bid) as [bidSig|e]; [|reflexivity].
      by destruct (BLSSignatureFromBytes (crypto s) bidSig).
  - intros k pubkey Hk.
    destruct (verifyBidSignature_added s relayPubkeys relayConfig bid provider)
      as [_ Hnew].
    destruct (Hnew k pubkey Hk); auto.
Qed.

End Bids.

(** ** The auction: order of arrival and deadlines *)

Section AuctionOrder.
Import blockrelay auctionlog auctionorder.
Implicit Types (t : tally) (sel consumed unread : list selected).
Implicit Types (resp : builderBidResponse) (seen : list builderBidResponse).

(** A finished auction, step by step. *)
Lemma fanIn_steps requests sel result unread :
  fanIn requests sel = Finished result unread ->
  exists c1 c2,
    sel = (c1 ++ c2) ++ unread
    /\ result = match Bid (res (fold_left (step2 requests) c2
                                  (fold_left (step1 requests) c1 initial))) with
                | None => None
                | Some _ => Some (res (fold_left (step2 requests) c2
                                         (fold_left (step1 requests) c1 initial)))
                end.
Proof.
  unfold fanIn. intros Hrun.
  destruct (loop1 requests initial sel) as [[t1 sel1]|] eqn:Hloop1; [|discriminate].
  destruct (loop2 requests t1 sel1) as [[t2 sel2]|] eqn:Hloop2; [|discriminate].
  destruct (loop1_run _ _ _ _ _ Hloop1) as (c1 & -> & ->).
  destruct (loop2_run _ _ _ _ _ Hloop2) as (c2 & -> & ->).
  exists c1, c2.
  destruct (Bid (res (fold_left (step2 requests) c2
                        (fold_left (step1 requests) c1 initial))));
    inversion Hrun; subst; by rewrite app_assoc.
Qed.

(** A property of the responses seen and of the winner so far that every
    response keeps is kept by the steps of both loops. *)
Lemma steps_keep (P : list builderBidResponse -> Z -> Results -> Prop) requests :
  (forall seen t resp,
      P seen (bestScore t) (res t) ->
      P (seen ++ [resp]) (bestScore (onResponse t resp)) (res (onResponse t resp))) ->
  forall c1 c2 t seen,
    P seen (bestScore t) (res t) ->
    P (seen ++ responsesOf (c1 ++ c2))
      (bestScore (fold_left (step2 requests) c2 (fold_left (step1 requests) c1 t)))
      (res (fold_left (step2 requests) c2 (fold_left (step1 requests) c1 t))).
Proof.
  intros Hresp.
  assert (H2 : forall c2 t seen,
             P seen (bestScore t) (res t) ->
             P (seen ++ responsesOf c2)
               (bestScore (fold_left (step2 requests) c2 t))
               (res (fold_left (step2 requests) c2 t))).
  { induction c2 as [|ev rest IH]; intros t seen Hp; cbn [fold_left].
    - cbn. by rewrite app_nil_r.
    - change (ev :: rest) with ([ev] ++ rest).
      rewrite responsesOf_app, app_assoc. apply IH.
      destruct ev as [resp| |]; cbn; rewrite ?app_nil_r; auto. }
  induction c1 as [|ev rest IH]; intros c2 t seen Hp; cbn [fold_left app].
  - by apply H2.
  - change (ev :: rest ++ c2) with ([ev] ++ (rest ++ c2)).
    rewrite responsesOf_app, app_assoc. apply IH.
    destruct ev as [resp| |]; cbn; rewrite ?app_nil_r; auto.
Qed.

Lemma firstBest_onResponse seen t resp :
  firstBest seen t -> firstBest (seen ++ [resp]) (onResponse t resp).
Proof.
  intros [Hpos Hbest]. unfold firstBest, onResponse.
  destruct (bid resp) as [respBid|] eqn:Hbid.
  2:{ simpl. split; [exact Hpos|].
      destruct (Bid (res t)) as [winning|].
      - destruct Hbest as (earlier & winner & later & -> & Hw & Hs & Hgt & Hlt & Hle).
        exists earlier, winner, (later ++ [resp]).
        split; [by rewrite <- app_assoc|]. repeat split; auto.
        intros r Hr Hrb. apply elem_of_app in Hr as [Hr|Hr]; [by apply Hle|].
        apply list_elem_of_singleton in Hr. subst r. rewrite Hbid in Hrb.
        by destruct Hrb.
      - destruct Hbest as [Hzero Hbest]. split; [exact Hzero|].
        intros r Hr Hrb. apply elem_of_app in Hr as [Hr|Hr]; [by apply Hbest|].
        apply list_elem_of_singleton in Hr. subst r. rewrite Hbid in Hrb.
        by destruct Hrb. }
  rewrite Z.gtb_ltb. destruct (Z.ltb_spec (bestScore t) (score resp)) as [Hhigher|Hlow].
  - simpl. split; [lia|].
    exists seen, resp, []. repeat split; auto; try lia.
    + intros r Hr Hrb. destruct (Bid (res t)) as [winning|].
      * destruct Hbest as (earlier & winner & later & -> & Hw & Hs & Hgt & Hlt & Hle).
        apply elem_of_app in Hr as [Hr|Hr]; [specialize (Hlt r Hr Hrb); lia|].
        apply elem_of_cons in Hr as [->|Hr]; [lia|].
        specialize (Hle r Hr Hrb). lia.
      * destruct Hbest as [Hzero Hbest]. specialize (Hbest r Hr Hrb). lia.
    + intros r Hr. by apply not_elem_of_nil in Hr.
  - destruct (Bid (res t)) as [winning|] eqn:Hwinning.
    + destruct Hbest as (earlier & winner & later & -> & Hw & Hs & Hgt & Hlt & Hle).
      assert (Hkeep : exists earlier0 winner0 later0,
                 (earlier ++ winner :: later) ++ [resp]
                   = earlier0 ++ winner0 :: later0
                 /\ bid winner0 = Some winning
                 /\ score winner0 = bestScore t
                 /\ 0 < score winner0
                 /\ (forall r, r ∈ earlier0 -> is_Some (bid r) ->
                               score r < score winner0)
                 /\ (forall r, r ∈ later0 -> is_Some (bid r) ->
                               score r <= score winner0)).
      { exists earlier, winner, (later ++ [resp]).
        split; [by rewrite <- app_assoc|]. repeat split; auto.
        intros r Hr Hrb. apply elem_of_app in Hr as [Hr|Hr]; [by apply Hle|].
        apply list_elem_of_singleton in Hr. subst r. lia. }
      destruct ((score resp =? bestScore t) && bidsEqual winning respBid);
        simpl; rewrite ?Hwinning; (split; [exact Hpos | exact Hkeep]).
    + simpl. rewrite ?Hwinning. split; [exact Hpos|].
      destruct Hbest as [Hzero Hbest]. split; [exact Hzero|].
      intros r Hr Hrb. apply elem_of_app in Hr as [Hr|Hr]; [by apply Hbest|].
      apply list_elem_of_singleton in Hr. subst r. lia.
Qed.

(** X5.  First seen wins.  A finished [bestBuilderBid] returns a result
    exactly when some response consumed carried a bid scoring above zero,
    and the winning bid is then the bid of the first response, in order of
    arrival, with the highest score: every bid consumed before it scored
    strictly less, none consumed after it scored more.  It returns nil when
    no bid consumed scored above zero. *)
Theorem bestBuilderBid_first_best_wins s relayPubkeys slot parentHash pubkey
    proposerConfig order result unread :
  bestBuilderBid s relayPubkeys slot parentHash pubkey proposerConfig order
    = Finished result unread ->
  exists consumed,
    arrivals (taskMessages s relayPubkeys slot parentHash pubkey
                (launch s (Relays proposerConfig))) order
      = consumed ++ unread
    /\ match result with
       | None =>
           forall resp, FromRespCh resp ∈ consumed -> is_Some (bid resp) ->
                        score resp <= 0
       | Some r =>
           exists earlier winner later,
             responsesOf consumed = earlier ++ winner :: later
             /\ bid winner = Bid r
             /\ is_Some (Bid r)
             /\ 0 < score winner
             /\ (forall resp, resp ∈ earlier -> is_Some (bid resp) ->
                              score resp < score winner)
             /\ (forall resp, resp ∈ later -> is_Some (bid resp) ->
                              score resp <= score winner)
       end.
Proof.
  unfold bestBuilderBid. intros Hrun.
  destruct (fanIn_steps _ _ _ _ Hrun) as (c1 & c2 & Hsel & Hres).
  exists (c1 ++ c2). split; [exact Hsel|].
  pose proof (steps_keep (fun seen best r =>
                firstBest seen {| responded := 0; errored := 0; timedOut := 0;
                                  softTimedOut := 0; bestScore := best; res := r |})
                (len (Relays proposerConfig))) as Hkeep.
  cbn beta in Hkeep.
  specialize (Hkeep (fun seen t resp H => firstBest_onResponse seen _ resp
                       (H : firstBest seen
                              {| responded := responded t; errored := errored t;
                                 timedOut := timedOut t;
                                 softTimedOut := softTimedOut t;
                                 bestScore := bestScore t; res := res t |}))).
  specialize (Hkeep c1 c2 initial []).
  destruct Hkeep as [Hpos Hbest].
  { split; cbn; [lia|]. split; [reflexivity|].
    intros resp Hin. by apply not_elem_of_nil in Hin. }
  cbn [app] in Hbest. simpl in Hbest.
  destruct (Bid (res (fold_left (step2 (len (Relays proposerConfig))) c2
                        (fold_left (step1 (len (Relays proposerConfig))) c1 initial))))
    as [winning|] eqn:Hwinning; subst result.
  - destruct Hbest as (earlier & winner & later & Hseen & Hw & Hs & Hgt & Hlt & Hle).
    exists earlier, winner, later. rewrite Hwinning. repeat split; eauto.
  - destruct Hbest as [_ Hbest].
    intros resp Hin Hb. apply Hbest; [by apply responsesOf_elem | exact Hb].
Qed.

End AuctionOrder.

(** ** The auction: what the deadlines do *)

Section Deadlines.
Import blockrelay auctionlog auctionorder.
Implicit Types (t : tally) (sel pre post rest : list selected).

Lemma step2_message requests t ev :
  isMessage ev = true -> step2 requests t ev = step1 requests t ev.
Proof. by destruct ev. Qed.

Lemma responded_step1 requests t ev :
  isMessage ev = true ->
  responded (step1 requests t ev)
  = responded t + (if isError ev then 0 else 1).
Proof.
  intros Hev. destruct ev as [resp| |]; [| |discriminate]; cbn [step1 isError].
  - unfold onResponse. destruct (bid resp); [|reflexivity].
    destruct (score resp >? bestScore t); [reflexivity|].
    by destruct (match Bid (res t) with Some _ => _ | None => _ end).
  - simpl. lia.
Qed.

(** The counters after a run of messages. *)
Lemma messages_counted requests pre :
  forall t,
    Forall (fun ev => isMessage ev = true) pre ->
    timedOut (fold_left (step1 requests) pre t) = timedOut t
    /\ softTimedOut (fold_left (step1 requests) pre t) = softTimedOut t
    /\ responded (fold_left (step1 requests) pre t)
       + errored (fold_left (step1 requests) pre t)
       = responded t + errored t + len pre
    /\ responded t <= responded (fold_left (step1 requests) pre t)
    /\ ((exists resp, FromRespCh resp ∈ pre) ->
        responded t < responded (fold_left (step1 requests) pre t))
    /\ (Forall (fun ev => isError ev = true) pre ->
        responded (fold_left (step1 requests) pre t) = responded t).
Proof.
  induction pre as [|ev pre IH]; intros t Hmsgs; cbn [fold_left].
  - unfold len. cbn. repeat split; try lia.
    intros (resp & Hin). by apply not_elem_of_nil in Hin.
  - apply Forall_cons in Hmsgs as [Hev Hmsgs].
    destruct (IH (step1 requests t ev) Hmsgs) as (Hto & Hsoft & Hsum & Hle & Hlt & Heq).
    destruct (step1_message requests t ev Hev) as (Hto1 & Hsoft1 & Hsum1).
    pose proof (responded_step1 requests t ev Hev) as Hresp1.
    unfold len in *. cbn [length]. rewrite Nat2Z.inj_succ.
    split; [lia|]. split; [lia|]. split; [lia|].
    split; [destruct (isError ev); lia|]. split.
    + intros (resp & Hin). apply elem_of_cons in Hin as [Hhere|Hin].
      * subst ev. cbn [isError] in Hresp1. lia.
      * specialize (Hlt (ex_intro _ resp Hin)). destruct (isError ev); lia.
    + intros Herrs. apply Forall_cons in Herrs as [Herr Herrs].
      rewrite (Heq Herrs), Hresp1, Herr. lia.
Qed.

(** While fewer messages than expected have arrived, a loop reads on. *)
Lemma loop1_reads requests pre :
  forall t tail,
    Forall (fun ev => isMessage ev = true) pre ->
    responded t + errored t + timedOut t + softTimedOut t + len pre <= requests ->
    loop1 requests t (pre ++ tail)
    = loop1 requests (fold_left (step1 requests) pre t) tail.
Proof.
  induction pre as [|ev pre IH]; intros t tail Hmsgs Hroom; [reflexivity|].
  cbn [app loop1 fold_left]. unfold len in *. cbn [length] in Hroom.
  destruct (Z.eqb_spec (responded t + errored t + timedOut t + softTimedOut t)
              requests); [lia|]. cbn [negb].
  apply Forall_cons in Hmsgs as [Hev Hmsgs].
  destruct (step1_message requests t ev Hev) as (Hto1 & Hsoft1 & Hsum1).
  apply IH; [exact Hmsgs | lia].
Qed.

Lemma loop2_reads requests pre :
  forall t tail,
    Forall (fun ev => isMessage ev = true) pre ->
    responded t + errored t + timedOut t + len pre <= requests ->
    loop2 requests t (pre ++ tail)
    = loop2 requests (fold_left (step1 requests) pre t) tail.
Proof.
  induction pre as [|ev pre IH]; intros t tail Hmsgs Hroom; [reflexivity|].
  cbn [app loop2 fold_left]. unfold len in *. cbn [length] in Hroom.
  destruct (Z.eqb_spec (responded t + errored t + timedOut t) requests); [lia|].
  cbn [negb].
  apply Forall_cons in Hmsgs as [Hev Hmsgs].
  rewrite (step2_message _ _ _ Hev).
  destruct (step1_message requests t ev Hev) as (Hto1 & Hsoft1 & Hsum1).
  apply IH; [exact Hmsgs | lia].
Qed.

(** X6.  The soft deadline ends the auction when there is a response: if
    fewer messages than relays have arrived when it fires and at least one
    of them is a response, [bestBuilderBid]'s loops read nothing more;
    whatever arrives later is left unread. *)
Theorem soft_deadline_ends_with_response requests pre rest :
  Forall (fun ev => isMessage ev = true) pre ->
  len pre < requests ->
  (exists resp, FromRespCh resp ∈ pre) ->
  exists result, fanIn requests (pre ++ CtxDone :: rest) = Finished result rest.
Proof.
  intros Hmsgs Hfew Hresp. unfold fanIn.
  destruct (messages_counted requests pre initial Hmsgs)
    as (Hto & Hsoft & Hsum & _ & Hlt & _).
  specialize (Hlt Hresp). cbn in Hto, Hsoft, Hsum, Hlt.
  rewrite loop1_reads by (try done; cbn; lia).
  set (t := fold_left (step1 requests) pre initial) in *.
  cbn [loop1].
  destruct (Z.eqb_spec (responded t + errored t + timedOut t + softTimedOut t)
              requests); [lia|]. cbn [negb step1].
  assert (Hafter : responded (onSoftTimeout requests t)
                   + errored (onSoftTimeout requests t)
                   + timedOut (onSoftTimeout requests t) = requests
                   /\ softTimedOut (onSoftTimeout requests t) = 0).
  { unfold onSoftTimeout. simpl.
    destruct (Z.gtb_spec (responded t) 0); lia. }
  destruct Hafter as [Hdone Hnosoft].
  rewrite loop1_exit by lia. rewrite loop2_exit by exact Hdone.
  destruct (Bid (res (onSoftTimeout requests t))); eauto.
Qed.

(** X7.  The soft deadline does not end the auction when there is no
    response: if only errors, fewer than relays, have arrived when it
    fires, the auction is still waiting; messages that arrive afterwards are
    read until the hard deadline fires, which ends it. *)
Theorem soft_deadline_waits_without_response requests pre :
  Forall (fun ev => isError ev = true) pre ->
  len pre < requests ->
  fanIn requests (pre ++ [CtxDone]) = Waiting
  /\ forall post rest,
      Forall (fun ev => isMessage ev = true) post ->
      len pre + len post < requests ->
      exists result,
        fanIn requests (pre ++ CtxDone :: post ++ CtxDone :: rest)
        = Finished result rest.
Proof.
  intros Herrs Hfew.
  assert (Hmsgs : Forall (fun ev => isMessage ev = true) pre).
  { eapply Forall_impl; [exact Herrs|]. by intros [| |]. }
  destruct (messages_counted requests pre initial Hmsgs)
    as (Hto & Hsoft & Hsum & _ & _ & Hnone).
  specialize (Hnone Herrs). cbn in Hto, Hsoft, Hsum, Hnone.
  set (t := fold_left (step1 requests) pre initial) in *.
  assert (Hloop1 : forall tail,
             loop1 requests initial (pre ++ CtxDone :: tail)
             = Some (onSoftTimeout requests t, tail)).
  { intros tail. rewrite loop1_reads by (try done; cbn; lia). fold t.
    cbn [loop1].
    destruct (Z.eqb_spec (responded t + errored t + timedOut t + softTimedOut t)
                requests); [lia|]. cbn [negb step1].
    apply loop1_exit. unfold onSoftTimeout. simpl.
    destruct (Z.gtb_spec (responded t) 0); lia. }
  assert (Hafter : responded (onSoftTimeout requests t) = 0
                   /\ errored (onSoftTimeout requests t) = len pre
                   /\ timedOut (onSoftTimeout requests t) = 0).
  { unfold onSoftTimeout. simpl.
    destruct (Z.gtb_spec (responded t) 0); lia. }
  destruct Hafter as (Hr & He & Ht).
  split.
  - unfold fanIn. rewrite Hloop1. cbn [loop2].
    destruct (Z.eqb_spec (responded (onSoftTimeout requests t)
                          + errored (onSoftTimeout requests t)
                          + timedOut (onSoftTimeout requests t)) requests);
      [lia | reflexivity].
  - intros post rest Hpost Hroom. unfold fanIn. rewrite Hloop1.
    rewrite loop2_reads by (try done; lia).
    destruct (messages_counted requests post (onSoftTimeout requests t) Hpost)
      as (Hto2 & _ & Hsum2 & _).
    set (t2 := fold_left (step1 requests) post (onSoftTimeout requests t)) in *.
    cbn [loop2].
    destruct (Z.eqb_spec (responded t2 + errored t2 + timedOut t2) requests); [lia|].
    cbn [negb step2].
    rewrite loop2_exit by (unfold onHardTimeout; simpl; lia).
    destruct (Bid (res (onHardTimeout requests t2))); eauto.
Qed.

End Deadlines.

(** ** The auction: where the values come from *)

Section Provenance.
Import blockrelay auctionlog.
Implicit Types (s : Service) (relayPubkeys : gmap (list Z) (list Z)).

(** A launched task is for a relay of the configuration whose client was
    obtained and supplies bids. *)
Lemma launch_elem s relays provider relay :
  (provider, relay) ∈ launch s relays ->
  relay ∈ relays
  /\ exists client,
      FetchBuilderClient s (relay_Address relay) = Go.Ok client
      /\ asBuilderBidProvider client = Some provider.
Proof.
  induction relays as [|r rest IH]; cbn [launch]; intros Hin.
  - by apply not_elem_of_nil in Hin.
  - assert (Hlater : (provider, relay) ∈ launch s rest ->
                     relay ∈ r :: rest
                     /\ exists client,
                         FetchBuilderClient s (relay_Address relay) = Go.Ok client
                         /\ asBuilderBidProvider client = Some provider).
    { intros H. destruct (IH H) as [Hrel Hclient].
      split; [by apply list_elem_of_further | exact Hclient]. }
    destruct (FetchBuilderClient s (relay_Address r)) as [client|e] eqn:Hfetch;
      [|by apply Hlater].
    destruct (asBuilderBidProvider client) as [p|] eqn:Hprov; [|by apply Hlater].
    apply elem_of_cons in Hin as [Heq|Hin]; [|by apply Hlater].
    inversion Heq; subst. split; [apply list_elem_of_here | eauto].
Qed.

(** Every message is what [builderBid] sent for one of the tasks. *)
Lemma taskMessages_elem s slot parentHash pubkey tasks m :
  forall relayPubkeys,
    m ∈ taskMessages s relayPubkeys slot parentHash pubkey tasks ->
    exists provider relay cache cache',
      (provider, relay) ∈ tasks
      /\ builderBid s cache provider slot parentHash pubkey relay = (cache', m).
Proof.
  induction tasks as [|[provider relay] rest IH]; intros relayPubkeys Hin;
    cbn [taskMessages] in Hin.
  - by apply not_elem_of_nil in Hin.
  - destruct (builderBid s relayPubkeys provider slot parentHash pubkey relay)
      as [cache' m'] eqn:Hsent.
    apply elem_of_cons in Hin as [->|Hin].
    + exists provider, relay, relayPubkeys, cache'.
      split; [apply list_elem_of_here | exact Hsent].
    + destruct (IH _ Hin) as (p & r & c & c' & Htask & Hbid).
      exists p, r, c, c'. split; [by apply list_elem_of_further | exact Hbid].
Qed.

(** A response with a bid carries the value of the bid the provider
    returned, which is not zero and not below the relay's minimum. *)
Lemma builderBid_scored s relayPubkeys relayPubkeys' provider slot parentHash
    pubkey relay resp :
  builderBid s relayPubkeys provider slot parentHash pubkey relay
    = (relayPubkeys', OnRespCh resp) ->
  is_Some (bid resp) ->
  blockrelay.provider resp = provider
  /\ exists b,
      BuilderBid provider slot parentHash pubkey = Go.Ok (Some b)
      /\ Value b = Go.Ok (score resp)
      /\ score resp <> 0
      /\ MinValue relay <= score resp.
Proof.
  unfold builderBid. intros Hsent [b' Hb'].
  destruct (BuilderBid provider slot parentHash pubkey) as [[b|]|e] eqn:Hbid;
    [| |discriminate].
  2:{ inversion Hsent; subst. discriminate Hb'. }
  destruct (if traceEnabled s then MarshalJSON b else Go.Ok []); [|discriminate].
  destruct (IsEmpty b); [discriminate|].
  destruct (Value b) as [value|] eqn:Hvalue; [|discriminate].
  destruct (Z.eqb_spec value 0) as [|Hnz]; [discriminate|].
  destruct (Z.ltb_spec value (MinValue relay)) as [Hlow|Hmin].
  { inversion Hsent; subst. discriminate Hb'. }
  destruct (FeeRecipient b) as [feeRecipient|]; [|discriminate].
  destruct (bytes_Equal feeRecipient zeroExecutionAddress); [discriminate|].
  destruct (Timestamp b) as [timestamp|]; [|discriminate].
  destruct (negb (Go.u64 (chainTime_StartOfSlot s slot) =? timestamp));
    [discriminate|].
  destruct (verifyBidSignature s relayPubkeys relay b provider)
    as [cache [[|] [e|]]]; try discriminate Hsent.
  inversion Hsent; subst. cbn. split; [reflexivity|]. exists b. auto.
Qed.

(** X8.  Every entry of [values] in the result of [bestBuilderBid] comes
    from a relay of the proposer configuration: the relay's builder client
    was obtained and supplies bids, the key is the address of that provider,
    and the entry is the value of the bid the provider returned, which is
    not zero and not below the relay's minimum value. *)
Theorem values_from_configured_relays s relayPubkeys slot parentHash pubkey
    proposerConfig order result unread a sc :
  bestBuilderBid s relayPubkeys slot parentHash pubkey proposerConfig order
    = Finished (Some result) unread ->
  Values result !! a = Some sc ->
  exists relay client provider b,
    relay ∈ Relays proposerConfig
    /\ FetchBuilderClient s (relay_Address relay) = Go.Ok client
    /\ asBuilderBidProvider client = Some provider
    /\ Address provider = a
    /\ BuilderBid provider slot parentHash pubkey = Go.Ok (Some b)
    /\ Value b = Go.Ok sc
    /\ sc <> 0
    /\ MinValue relay <= sc.
Proof.
  unfold bestBuilderBid. intros Hrun Hentry.
  destruct (fanIn_finished _ _ _ _ Hrun) as (consumed & t & Hsel & Hvalues & _ & Hres).
  assert (result = res t) as ->.
  { destruct (Bid (res t)); by inversion Hres. }
  rewrite Hvalues in Hentry.
  destruct (proj1 (recorded_entries (responsesOf consumed)) a sc Hentry)
    as (resp & Hin & Hbid & Haddr & Hscore).
  apply responsesOf_elem in Hin.
  assert (Harrived : FromRespCh resp
                       ∈ arrivals (taskMessages s relayPubkeys slot parentHash pubkey
                                     (launch s (Relays proposerConfig))) order).
  { rewrite Hsel. apply elem_of_app. by left. }
  unfold arrivals in Harrived.
  apply list_elem_of_omap in Harrived as (o & _ & Ho).
  destruct o as [i|]; [|discriminate].
  destruct (taskMessages s relayPubkeys slot parentHash pubkey
              (launch s (Relays proposerConfig)) !! i) as [m|] eqn:Hm;
    [|discriminate].
  cbn in Ho. destruct m as [resp'|err]; inversion Ho; subst resp'.
  apply list_elem_of_lookup_2 in Hm.
  destruct (taskMessages_elem _ _ _ _ _ _ _ Hm)
    as (provider & relay & cache & cache' & Htask & Hsent).
  destruct (launch_elem _ _ _ _ Htask) as (Hrelay & client & Hfetch & Hprov).
  destruct (builderBid_scored _ _ _ _ _ _ _ _ _ Hsent Hbid)
    as (Hp & b & Hb & Hv & Hnz & Hmin).
  exists relay, client, provider, b. subst sc.
  repeat split; auto. by rewrite <- Hp.
Qed.

End Provenance.

(** ** [AuctionBlock]: the cache of winning bids and the metrics *)

Section AuctionBlockProperties.
Import blockrelay auctionlog.
Implicit Types (s : Service) (p : Proposers) (st : AuctionState).
Implicit Types (relayPubkeys : gmap (list Z) (list Z)).

(** A response that arrived was sent by [builderBid] for a launched task. *)
Lemma arrived_from_builderBid s relayPubkeys slot parentHash pubkey tasks order resp :
  FromRespCh resp
    ∈ arrivals (taskMessages s relayPubkeys slot parentHash pubkey tasks) order ->
  exists provider relay cache cache',
    (provider, relay) ∈ tasks
    /\ builderBid s cache provider slot parentHash pubkey relay
       = (cache', OnRespCh resp).
Proof.
  unfold arrivals. intros Harrived.
  apply list_elem_of_omap in Harrived as (o & _ & Ho).
  destruct o as [i|]; [|discriminate].
  destruct (taskMessages s relayPubkeys slot parentHash pubkey tasks !! i)
    as [m|] eqn:Hm; [|discriminate].
  cbn in Ho. destruct m as [resp'|err]; inversion Ho; subst resp'.
  apply list_elem_of_lookup_2 in Hm.
  by apply taskMessages_elem in Hm.
Qed.

(** The winning bid of a finished auction has a value, the highest of all
    recorded values. *)
Lemma winning_value s relayPubkeys slot parentHash pubkey proposerConfig order
    result unread :
  bestBuilderBid s relayPubkeys slot parentHash pubkey proposerConfig order
    = Finished (Some result) unread ->
  exists winning val,
    Bid result = Some winning
    /\ Value winning = Go.Ok val
    /\ forall a sc, Values result !! a = Some sc -> sc <= val.
Proof.
  unfold bestBuilderBid. intros Hrun.
  destruct (fanIn_finished _ _ _ _ Hrun)
    as (consumed & t & Hsel & Hvalues & [Hmax Hselection] & Hres).
  destruct (Bid (res t)) as [winning|] eqn:Hwinning; [|discriminate].
  inversion Hres; subst result.
  destruct Hselection as (winner & others & _ & Hin & Hbid & Hscore & _).
  assert (Harrived : FromRespCh winner
            ∈ arrivals (taskMessages s relayPubkeys slot parentHash pubkey
                          (launch s (Relays proposerConfig))) order).
  { rewrite Hsel. apply elem_of_app. left. by apply responsesOf_elem. }
  destruct (arrived_from_builderBid _ _ _ _ _ _ _ _ Harrived)
    as (provider & relay & cache & cache' & _ & Hsent).
  destruct (builderBid_scored _ _ _ _ _ _ _ _ _ Hsent) as (_ & b & Hb & Hv & _).
  { rewrite Hbid. eauto. }
  exists winning, (score winner). split; [exact Hwinning|]. split.
  - unfold builderBid in Hsent. rewrite Hb in Hsent.
    destruct (if traceEnabled s then MarshalJSON b else Go.Ok []); [|discriminate].
    destruct (IsEmpty b); [discriminate|]. rewrite Hv in Hsent.
    destruct (score winner =? 0); [discriminate|].
    destruct (score winner <? MinValue relay).
    { inversion Hsent as [[Hc Hw]]. rewrite <- Hw in Hbid. discriminate Hbid. }
    destruct (FeeRecipient b) as [feeRecipient|]; [|discriminate].
    destruct (bytes_Equal feeRecipient zeroExecutionAddress); [discriminate|].
    destruct (Timestamp b) as [timestamp|]; [|discriminate].
    destruct (negb (Go.u64 (chainTime_StartOfSlot s slot) =? timestamp));
      [discriminate|].
    destruct (verifyBidSignature s cache relay b provider)
      as [c [[|] [e|]]]; try discriminate Hsent.
    inversion Hsent as [[Hc Hw]]. rewrite <- Hw in Hbid. cbn in Hbid.
    inversion Hbid; subst winning. exact Hv.
  - intros a sc Hentry. rewrite Hvalues in Hentry.
    destruct (proj1 (recorded_entries (responsesOf consumed)) a sc Hentry)
      as (resp & Hresp & Hb' & _ & <-).
    rewrite Hscore. by apply Hmax.
Qed.

(** The metrics loop touches neither the cache nor the lock, and reports
    the delta of exactly the values whose provider is not selected. *)
Lemma reportDeltas_spec p (selected : gset string) val values :
  forall st,
    builderBidsCache (reportDeltas p selected val values st) = builderBidsCache st
    /\ executionConfigReaders (reportDeltas p selected val values st)
       = executionConfigReaders st
    /\ builderBidDeltas (reportDeltas p selected val values st)
       = builderBidDeltas st
         ++ map (fun e => (e.1, val - e.2))
              (filter (fun e => strings_ToLower p e.1 ∉ selected) values).
Proof.
  induction values as [|[provider value] rest IH]; intros st; cbn [reportDeltas].
  - cbn. by rewrite app_nil_r.
  - destruct (decide (strings_ToLower p provider ∈ selected)) as [Hsel|Hnot].
    + rewrite bool_decide_eq_true_2 by done. cbn [negb].
      destruct (IH st) as (-> & -> & ->).
      rewrite filter_cons_False; [done|]. cbn. by intros H.
    + rewrite bool_decide_eq_false_2 by done. cbn [negb].
      match goal with
      | |- context [reportDeltas p selected val rest ?st'] =>
          destruct (IH st') as (-> & -> & ->)
      end.
      rewrite filter_cons_True by done. cbn. by rewrite <- app_assoc.
Qed.

(** X9.  [AuctionBlock] never panics, and it caches exactly when it
    returns a result: without a result the cache and the metrics are as
    before; with a result there is no error, the winning bid of the result
    is in the cache under the keys of the slot and of parent hash and
    public key, and no other cell of the cache has changed. *)
Theorem AuctionBlock_caches_winner s p relayPubkeys st slot parentHash pubkey order :
  match AuctionBlock s p relayPubkeys st slot parentHash pubkey order with
  | AuctionWaiting => True
  | AuctionPanicked _ => False
  | AuctionReturned st' None _ =>
      builderBidsCache st' = builderBidsCache st
      /\ builderBidDeltas st' = builderBidDeltas st
  | AuctionReturned st' (Some result) err =>
      err = None
      /\ exists winning,
          Bid result = Some winning
          /\ (builderBidsCache st' !! cacheKey slot)
               ≫= (fun m => m !! cacheSubKey parentHash pubkey) = Some winning
          /\ forall key subKey,
              (key, subKey) <> (cacheKey slot, cacheSubKey parentHash pubkey) ->
              (builderBidsCache st' !! key) ≫= (fun m => m !! subKey)
              = (builderBidsCache st !! key) ≫= (fun m => m !! subKey)
  end.
Proof.
  unfold AuctionBlock.
  destruct (accountsProvider_AccountByPublicKey p pubkey) as [account|e]; [|done].
  destruct (executionConfig_ProposerConfig p account pubkey) as [proposerConfig|e];
    [|done].
  destruct (len (Relays proposerConfig) =? 0); [done|].
  destruct (bestBuilderBid s relayPubkeys slot parentHash pubkey proposerConfig order)
    as [|[result|] unread] eqn:Hrun; [done| |done].
  destruct (winning_value _ _ _ _ _ _ _ _ _ Hrun) as (winning & val & Hbid & Hval & _).
  rewrite Hbid, Hval.
  destruct (reportDeltas_spec p
              (list_to_set (map (fun provider => strings_ToLower p (Address provider))
                              (Providers result)))
              val (map_to_list (Values result))
              (cacheBid (cacheKey slot) (cacheSubKey parentHash pubkey) winning
                 (rUnlock (rLock st)))) as (Hcache & _ & _).
  split; [reflexivity|]. exists winning. split; [exact Hbid|].
  rewrite Hcache. cbn. split.
  - rewrite lookup_insert_eq. cbn. apply lookup_insert_eq.
  - intros key subKey Hother.
    destruct (decide (key = cacheKey slot)) as [->|Hkey].
    + rewrite lookup_insert_eq. cbn.
      rewrite lookup_insert_ne by congruence.
      by destruct (builderBidsCache st !! cacheKey slot).
    + by rewrite lookup_insert_ne.
Qed.

(** X10.  The read lock on the execution configuration is given back on
    every path of [AuctionBlock] that returns, except the one on which the
    proposer configuration cannot be obtained: there it is left held. *)
Theorem AuctionBlock_read_lock s p relayPubkeys st slot parentHash pubkey order
    st' results err :
  AuctionBlock s p relayPubkeys st slot parentHash pubkey order
    = AuctionReturned st' results err ->
  executionConfigReaders st'
  = match accountsProvider_AccountByPublicKey p pubkey with
    | Go.Err _ => executionConfigReaders st
    | Go.Ok account =>
        match executionConfig_ProposerConfig p account pubkey with
        | Go.Err _ => S (executionConfigReaders st)
        | Go.Ok _ => executionConfigReaders st
        end
    end.
Proof.
  unfold AuctionBlock.
  destruct (accountsProvider_AccountByPublicKey p pubkey) as [account|e];
    [|by intros [= <- _ _]].
  destruct (executionConfig_ProposerConfig p account pubkey) as [proposerConfig|e];
    [|by intros [= <- _ _]].
  destruct (len (Relays proposerConfig) =? 0); [by intros [= <- _ _]|].
  destruct (bestBuilderBid s relayPubkeys slot parentHash pubkey proposerConfig order)
    as [|[result|] unread]; [done| |by intros [= <- _ _]].
  destruct (Bid result) as [winning|]; [|done].
  destruct (Value winning) as [val|e]; [|by intros [= <- _ _]].
  intros [= <- _ _].
  by destruct (reportDeltas_spec p
                 (list_to_set (map (fun provider => strings_ToLower p (Address provider))
                                 (Providers result)))
                 val (map_to_list (Values result))
                 (cacheBid (cacheKey slot) (cacheSubKey parentHash pubkey) winning
                    (rUnlock (rLock st)))) as (_ & -> & _).
Qed.

(** X11.  The bid deltas [AuctionBlock] reports: one for each entry of
    [values] whose provider, compared in lower case, is not among the
    selected providers, and none for the others; each is the value of the
    winning bid less the entry, and none is negative. *)
Theorem AuctionBlock_deltas s p relayPubkeys st slot parentHash pubkey order
    st' result err :
  AuctionBlock s p relayPubkeys st slot parentHash pubkey order
    = AuctionReturned st' (Some result) err ->
  exists winning val new,
    Bid result = Some winning
    /\ Value winning = Go.Ok val
    /\ builderBidDeltas st' = builderBidDeltas st ++ new
    /\ forall a delta,
        (a, delta) ∈ new <->
        exists sc,
          Values result !! a = Some sc
          /\ delta = val - sc
          /\ 0 <= delta
          /\ strings_ToLower p a
               ∉ map (fun provider => strings_ToLower p (Address provider))
                   (Providers result).
Proof.
  unfold AuctionBlock.
  destruct (accountsProvider_AccountByPublicKey p pubkey) as [account|e]; [|done].
  destruct (executionConfig_ProposerConfig p account pubkey) as [proposerConfig|e];
    [|done].
  destruct (len (Relays proposerConfig) =? 0); [done|].
  destruct (bestBuilderBid s relayPubkeys slot parentHash pubkey proposerConfig order)
    as [|[result'|] unread] eqn:Hrun; [done| |done].
  destruct (winning_value _ _ _ _ _ _ _ _ _ Hrun) as (winning & val & Hbid & Hval & Hmax).
  rewrite Hbid, Hval. intros [= <- <- _].
  destruct (reportDeltas_spec p
              (list_to_set (map (fun provider => strings_ToLower p (Address provider))
                              (Providers result')))
              val (map_to_list (Values result'))
              (cacheBid (cacheKey slot) (cacheSubKey parentHash pubkey) winning
                 (rUnlock (rLock st)))) as (_ & _ & Hdeltas).
  exists winning, val. eexists. split; [exact Hbid|]. split; [exact Hval|].
  split; [exact Hdeltas|].
  intros a delta. rewrite list_elem_of_fmap. split.
  - intros ([a' sc] & Heq & Hin). cbn in Heq. inversion Heq; subst a delta.
    apply list_elem_of_filter in Hin as [Hnot Hin]. cbn in Hnot.
    apply elem_of_map_to_list in Hin.
    exists sc. split; [exact Hin|]. split; [reflexivity|].
    split; [specialize (Hmax a' sc Hin); lia|].
    intros Hsel. apply Hnot. by apply elem_of_list_to_set.
  - intros (sc & Hentry & -> & _ & Hnot).
    exists (a, sc). split; [reflexivity|].
    apply list_elem_of_filter. split.
    + cbn. intros Hsel. apply Hnot. by apply elem_of_list_to_set in Hsel.
    + by apply elem_of_map_to_list.
Qed.

End AuctionBlockProperties.

(** ** The keys of the bid cache *)

Section CacheKeys.
Import blockrelay.

Lemma hexDigit_inj a b :
  0 <= a < 16 -> 0 <= b < 16 -> hexDigit a = hexDigit b -> a = b.
Proof.
  intros Ha Hb. unfold hexDigit.
  assert (Hnat : forall n m : nat,
             (n < 16)%nat -> (m < 16)%nat ->
             default Ascii.zero (String.get n "0123456789abcdef")
             = default Ascii.zero (String.get m "0123456789abcdef") ->
             n = m).
  { intros n m Hn Hm.
    do 16 (destruct n as [|n]; [do 16 (destruct m as [|m];
                                       [first [reflexivity | discriminate]|]);
                                exfalso; lia|]).
    exfalso; lia. }
  intros Heq. apply Hnat in Heq; lia.
Qed.

Lemma hex_byte_inj x y :
  isByte x -> isByte y ->
  hexDigit (x / 16) = hexDigit (y / 16) ->
  hexDigit (x mod 16) = hexDigit (y mod 16) ->
  x = y.
Proof.
  unfold isByte. intros Hx Hy Hhi Hlo.
  pose proof (Z.div_mod x 16 ltac:(lia)) as Hxsplit.
  pose proof (Z.div_mod y 16 ltac:(lia)) as Hysplit.
  pose proof (Z.mod_pos_bound x 16 ltac:(lia)) as Hxlo.
  pose proof (Z.mod_pos_bound y 16 ltac:(lia)) as Hylo.
  assert (0 <= x / 16 < 16) as Hxhi.
  { split; [apply Z.div_pos; lia | apply Z.div_lt_upper_bound; lia]. }
  assert (0 <= y / 16 < 16) as Hyhi.
  { split; [apply Z.div_pos; lia | apply Z.div_lt_upper_bound; lia]. }
  apply hexDigit_inj in Hhi; [|done..].
  apply hexDigit_inj in Hlo; [|done..].
  lia.
Qed.

(** Two byte strings of one length are told apart by their hexadecimal
    forms, whatever follows these. *)
Lemma hex_app_inj b :
  forall b' t t',
    Forall isByte b -> Forall isByte b' -> length b = length b' ->
    hex b +:+ t = hex b' +:+ t' ->
    b = b' /\ t = t'.
Proof.
  induction b as [|x rest IH]; intros [|y rest'] t t' Hb Hb' Hlen Heq;
    try discriminate Hlen.
  - by split.
  - apply Forall_cons in Hb as [Hx Hb]. apply Forall_cons in Hb' as [Hy Hb'].
    cbn [hex String.append] in Heq. inversion Heq as [[Hhi Hlo Hrest]].
    destruct (IH rest' t t' Hb Hb') as [-> ->]; [by inversion Hlen | exact Hrest|].
    by rewrite (hex_byte_inj x y Hx Hy Hhi Hlo).
Qed.

Lemma hex_inj b :
  forall b', Forall isByte b -> Forall isByte b' -> hex b = hex b' -> b = b'.
Proof.
  induction b as [|x rest IH]; intros [|y rest'] Hb Hb' Heq;
    try discriminate Heq; [done|].
  apply Forall_cons in Hb as [Hx Hb]. apply Forall_cons in Hb' as [Hy Hb'].
  cbn [hex] in Heq. inversion Heq as [[Hhi Hlo Hrest]].
  rewrite (IH rest' Hb Hb' Hrest).
  by rewrite (hex_byte_inj x y Hx Hy Hhi Hlo).
Qed.

(** X12.  No two auctions share a cell of the bid cache: for parent hashes
    of one length (the type is a 32-byte array), the keys under which
    [AuctionBlock] caches a bid are the same only for the same slot, the
    same parent hash and the same public key. *)
Theorem cache_cells_distinct slot slot' parentHash parentHash' pubkey pubkey' :
  Forall isByte parentHash -> Forall isByte parentHash' ->
  Forall isByte pubkey -> Forall isByte pubkey' ->
  length parentHash = length parentHash' ->
  cacheKey slot = cacheKey slot' ->
  cacheSubKey parentHash pubkey = cacheSubKey parentHash' pubkey' ->
  slot = slot' /\ parentHash = parentHash' /\ pubkey = pubkey'.
Proof.
  unfold cacheKey, cacheSubKey. intros Hh Hh' Hk Hk' Hlen Hkey Hsub.
  split; [by apply (inj pretty)|].
  destruct (hex_app_inj _ _ _ _ Hh Hh' Hlen Hsub) as [-> Htail].
  split; [reflexivity|].
  cbn in Htail. inversion Htail as [Hhex]. by apply hex_inj.
Qed.

End CacheKeys.

(** ** Sync-committee aggregator: what a run reports *)

Section AggregatorReports.
Context {W : Type}.
Import synccommitteeaggregator altair aggregation reporting.
Implicit Types (s : aggregator.Service W) (st : Sys W) (duty : Duty).

(** The inner loop either goes through with calls that all went well, or
    stops at the first call that did not, right after recording "failed". *)
Lemma aggregateSubcommittees_calls s duty root v subs :
  forall batch st,
    let r := aggregator.aggregateSubcommittees s duty root v subs batch st in
    exists calls,
      Forall (fun e => wentWell e = true /\ isSubmission e = false) calls
      /\ match r.2 with
         | Continue => log r.1.1 = log st ++ calls
         | Return_ _ =>
             exists e,
               log r.1.1
               = log st ++ calls
                 ++ [e; MetricSyncCommitteeAggregationsCompleted (Slot_ duty)
                          (len (ValidatorIndices duty)) "failed"]
               /\ isMetric e = false /\ failedCall e = true
               /\ isSubmission e = false
         end.
Proof.
  induction subs as [|c rest IH]; intros batch st; cbn zeta.
  - exists []. split; [constructor|]. cbn. by rewrite app_nil_r.
  - cbn [aggregator.aggregateSubcommittees].
    destruct (aggregator.syncCommitteeContributionProvider s (world st)
                (Slot_ duty) c root) as [w [contribution err]].
    destruct err as [e|].
    { exists []. split; [constructor|]. cbn. eexists.
      split; [by rewrite <- app_assoc|]. done. }
    destruct contribution as [contribution|].
    2:{ exists []. split; [constructor|]. cbn. eexists.
        split; [by rewrite <- app_assoc|]. done. }
    set (fetch := CallSyncCommitteeContribution (Slot_ duty) c root
                    (Some contribution) None).
    match goal with
    | |- context [aggregator.contributionAndProofSigner s ?w' ?a ?cap] =>
        destruct (aggregator.contributionAndProofSigner s w' a cap)
          as [w2 [sig err]];
        set (signing := CallSignContributionAndProof a cap sig err)
    end.
    destruct err as [e|].
    { exists [fetch]. split; [by repeat constructor|]. cbn.
      exists signing. split; [by rewrite <- !app_assoc|]. done. }
    match goal with
    | |- context [aggregator.aggregateSubcommittees s duty root v rest ?b ?st'] =>
        destruct (IH b st') as (calls & Hcalls & Hshape);
        destruct (aggregator.aggregateSubcommittees s duty root v rest b st')
          as [[st'' batch''] [|[]]]
    end.
    + exists (fetch :: signing :: calls). split; [by repeat constructor|].
      cbn in *. rewrite Hshape. by rewrite <- !app_assoc.
    + destruct Hshape as (e & Hlog & Hfacts).
      exists (fetch :: signing :: calls). split; [by repeat constructor|].
      cbn in *. exists e. split; [|exact Hfacts].
      rewrite Hlog. by rewrite <- !app_assoc.
Qed.

Lemma aggregateValidators_calls s duty root indices :
  forall batch st,
    let r := aggregator.aggregateValidators s duty root indices batch st in
    exists calls,
      Forall (fun e => wentWell e = true /\ isSubmission e = false) calls
      /\ match r.2 with
         | Continue => log r.1.1 = log st ++ calls
         | Return_ _ =>
             exists e,
               log r.1.1
               = log st ++ calls
                 ++ [e; MetricSyncCommitteeAggregationsCompleted (Slot_ duty)
                          (len (ValidatorIndices duty)) "failed"]
               /\ isMetric e = false /\ failedCall e = true
               /\ isSubmission e = false
         end.
Proof.
  induction indices as [|v rest IH]; intros batch st; cbn zeta.
  - exists []. split; [constructor|]. cbn. by rewrite app_nil_r.
  - cbn [aggregator.aggregateValidators].
    destruct (aggregateSubcommittees_calls s duty root v
                (aggregator.subcommitteesOf duty v) batch st)
      as (calls & Hcalls & Hshape).
    destruct (aggregator.aggregateSubcommittees s duty root v
                (aggregator.subcommitteesOf duty v) batch st)
      as [[st' batch'] [|[]]]; cbn in Hshape.
    + destruct (IH batch' st') as (calls' & Hcalls' & Hshape').
      exists (calls ++ calls'). split; [by apply Forall_app|].
      destruct (aggregator.aggregateValidators s duty root rest batch' st')
        as [[st'' batch''] [|[]]]; cbn in *.
      * rewrite Hshape', Hshape. by rewrite <- app_assoc.
      * destruct Hshape' as (e & Hlog & Hfacts). exists e.
        split; [|exact Hfacts]. rewrite Hlog, Hshape. by rewrite <- !app_assoc.
    + exists calls. split; [exact Hcalls|]. exact Hshape.
Qed.

(** The shape of what [Aggregate] adds to the log, from the root on. *)
Lemma aggregateWithRoot_report s duty root st :
  exists calls coverages count status,
    log (aggregator.aggregateWithRoot s duty root st)
    = log st ++ calls ++ coverages
      ++ [MetricSyncCommitteeAggregationsCompleted (Slot_ duty) count status]
    /\ ((status = "failed"
         /\ coverages = []
         /\ exists pre e,
             calls = pre ++ [e]
             /\ Forall (fun e => wentWell e = true /\ isSubmission e = false) pre
             /\ isMetric e = false /\ failedCall e = true
             /\ count = match e with
                        | CallSubmitSyncCommitteeContributions batch _ => len batch
                        | _ => len (ValidatorIndices duty)
                        end)
        \/ (status = "succeeded"
            /\ exists pre batch,
                calls = pre ++ [CallSubmitSyncCommitteeContributions batch None]
                /\ Forall (fun e => wentWell e = true /\ isSubmission e = false) pre
                /\ coverages = map aggregator.coverage batch
                /\ count = len batch)).
Proof.
  unfold aggregator.aggregateWithRoot.
  destruct (aggregateValidators_calls s duty root (ValidatorIndices duty) [] st)
    as (calls & Hcalls & Hshape).
  destruct (aggregator.aggregateValidators s duty root (ValidatorIndices duty) [] st)
    as [[st' batch] [|[]]]; cbn in Hshape.
  - destruct (aggregator.syncCommitteeContributionsSubmitter s (world st') batch)
      as [w [e|]].
    + exists (calls ++ [CallSubmitSyncCommitteeContributions batch (Some e)]), [],
        (len batch), "failed".
      split; [cbn; rewrite Hshape; by rewrite <- !app_assoc|].
      left. split; [reflexivity|]. split; [reflexivity|].
      eexists calls, _. split; [reflexivity|]. split; [exact Hcalls|]. done.
    + exists (calls ++ [CallSubmitSyncCommitteeContributions batch None]),
        (map aggregator.coverage batch), (len batch), "succeeded".
      split.
      { rewrite log_emit.
        match goal with
        | |- context [fold_left _ batch ?st0] =>
            destruct (coverage_log batch st0) as [-> _]
        end.
        cbn. rewrite Hshape. by rewrite <- !app_assoc. }
      right. split; [reflexivity|]. exists calls, batch. done.
  - destruct Hshape as (e & Hlog & Hmetric & Hfailed & Hsub).
    exists (calls ++ [e]), [], (len (ValidatorIndices duty)), "failed".
    split; [rewrite Hlog; by rewrite <- !app_assoc|].
    left. split; [reflexivity|]. split; [reflexivity|].
    exists calls, e. split; [reflexivity|]. split; [exact Hcalls|].
    split; [exact Hmetric|]. split; [exact Hfailed|].
    by destruct e.
Qed.

(** X13.  Every [Aggregate] on a duty reports completion once, as the last
    thing it does.  Before that come calls of the collaborators only.  It
    reports "failed" exactly when its last call did not go well, and no
    call before that one failed: the first failure ends the run, with no
    coverage reported; the count is then the number of validators of the
    duty, except after a failed submission, where it is the size of the
    batch.  It reports "succeeded" exactly when all calls went well and
    the last one submitted the batch; the count is the size of the batch,
    and one coverage, of set bits not above total bits, is reported for
    each item of the batch, in order. *)
Theorem Aggregate_reports_once s duty st :
  exists calls coverages count status,
    log (aggregator.Aggregate s (AggregatorDuty (Some duty)) st).1
    = log st ++ calls ++ coverages
      ++ [MetricSyncCommitteeAggregationsCompleted (Slot_ duty) count status]
    /\ Forall (fun e => isMetric e = false) calls
    /\ ((status = "failed"
         /\ coverages = []
         /\ exists pre e,
             calls = pre ++ [e]
             /\ Forall (fun e => failedCall e = false) pre
             /\ failedCall e = true
             /\ count = match e with
                        | CallSubmitSyncCommitteeContributions batch _ => len batch
                        | _ => len (ValidatorIndices duty)
                        end)
        \/ (status = "succeeded"
            /\ Forall (fun e => failedCall e = false) calls
            /\ exists pre batch,
                calls = pre ++ [CallSubmitSyncCommitteeContributions batch None]
                /\ coverages = map aggregator.coverage batch
                /\ count = len batch
                /\ Forall (fun e =>
                     match e with
                     | MetricSyncCommitteeAggregationCoverage setBits totalBits =>
                         0 <= setBits <= totalBits
                     | _ => False
                     end) coverages)).
Proof.
  assert (Hwell : forall l : list Event,
             Forall (fun e => wentWell e = true /\ isSubmission e = false) l ->
             Forall (fun e => isMetric e = false) l
             /\ Forall (fun e => failedCall e = false) l).
  { intros l Hl. split; (eapply Forall_impl; [exact Hl|]);
      intros e [He _]; unfold wentWell in He;
      apply andb_true_iff in He as [Hm Hf];
      first [exact (proj1 (negb_true_iff _) Hm) | exact (proj1 (negb_true_iff _) Hf)]. }
  assert (Hfrom : forall root st0 prefix,
             log st0 = log st ++ prefix ->
             Forall (fun e => wentWell e = true /\ isSubmission e = false) prefix ->
             exists calls coverages count status,
               log (aggregator.aggregateWithRoot s duty root st0)
               = log st ++ calls ++ coverages
                 ++ [MetricSyncCommitteeAggregationsCompleted (Slot_ duty) count
                       status]
               /\ Forall (fun e => isMetric e = false) calls
               /\ ((status = "failed"
                    /\ coverages = []
                    /\ exists pre e,
                        calls = pre ++ [e]
                        /\ Forall (fun e => failedCall e = false) pre
                        /\ failedCall e = true
                        /\ count = match e with
                                   | CallSubmitSyncCommitteeContributions batch _ =>
                                       len batch
                                   | _ => len (ValidatorIndices duty)
                                   end)
                   \/ (status = "succeeded"
                       /\ Forall (fun e => failedCall e = false) calls
                       /\ exists pre batch,
                           calls = pre ++ [CallSubmitSyncCommitteeContributions
                                             batch None]
                           /\ coverages = map aggregator.coverage batch
                           /\ count = len batch
                           /\ Forall (fun e =>
                                match e with
                                | MetricSyncCommitteeAggregationCoverage setBits
                                    totalBits => 0 <= setBits <= totalBits
                                | _ => False
                                end) coverages))).
  { intros root st0 prefix Hprefix Hquiet.
    destruct (aggregateWithRoot_report s duty root st0)
      as (calls & coverages & count & status & Hlog & Hcases).
    exists (prefix ++ calls), coverages, count, status.
    split; [rewrite Hlog, Hprefix; by rewrite <- !app_assoc|].
    destruct (Hwell prefix Hquiet) as [Hpm Hpf].
    destruct Hcases as [(-> & -> & pre & e & -> & Hpre & Hm & Hf & Hcount)
                       |(-> & pre & batch & -> & Hpre & -> & ->)];
      destruct (Hwell pre Hpre) as [Hprem Hpref].
    - split.
      { apply Forall_app. split; [exact Hpm|]. apply Forall_app. split; [exact Hprem|].
        by repeat constructor. }
      left. split; [reflexivity|]. split; [reflexivity|].
      exists (prefix ++ pre), e. split; [by rewrite <- app_assoc|].
      split; [by apply Forall_app|]. done.
    - split.
      { apply Forall_app. split; [exact Hpm|]. apply Forall_app. split; [exact Hprem|].
        by repeat constructor. }
      right. split; [reflexivity|]. split.
      { apply Forall_app. split; [exact Hpf|]. apply Forall_app. split; [exact Hpref|].
        by repeat constructor. }
      exists (prefix ++ pre), batch. split; [by rewrite <- app_assoc|].
      split; [reflexivity|]. split; [reflexivity|].
      apply Forall_forall. intros e He.
      apply list_elem_of_fmap in He as (x & -> & _). unfold aggregator.coverage.
      unfold len. split; [lia|].
      apply inj_le. apply length_filter. }
  unfold aggregator.Aggregate.
  destruct (beaconBlockRoots st !! Slot_ duty) as [tmp|].
  { cbn [fst]. apply (Hfrom tmp _ []); [cbn; by rewrite app_nil_r | constructor]. }
  destruct (aggregator.beaconBlockRootProvider s (world st) "head")
    as [w [beaconBlockRoot err]].
  destruct err as [e|].
  { exists [CallBeaconBlockRoot "head" beaconBlockRoot (Some e)], [],
      (len (ValidatorIndices duty)), "failed".
    split; [cbn; by rewrite <- app_assoc|]. split; [by repeat constructor|].
    left. split; [reflexivity|]. split; [reflexivity|].
    exists [], (CallBeaconBlockRoot "head" beaconBlockRoot (Some e)). done. }
  destruct beaconBlockRoot as [root|].
  2:{ exists [CallBeaconBlockRoot "head" None None], [],
        (len (ValidatorIndices duty)), "failed".
      split; [cbn; by rewrite <- app_assoc|]. split; [by repeat constructor|].
      left. split; [reflexivity|]. split; [reflexivity|].
      exists [], (CallBeaconBlockRoot "head" None None). done. }
  cbn [fst]. apply (Hfrom root _ [CallBeaconBlockRoot "head" (Some root) None]);
    [reflexivity | by repeat constructor].
Qed.

(** X14.  [Aggregate] uses up the cached root of its duty's slot: whatever
    happens in the run, afterwards the cache is the cache from before
    without the entry of that slot; the entries of other slots, which
    [Aggregate] never reads, stay until their own [Aggregate] runs. *)
Theorem Aggregate_consumes_root s duty st :
  beaconBlockRoots (aggregator.Aggregate s (AggregatorDuty (Some duty)) st).1
  = delete (Slot_ duty) (beaconBlockRoots st).
Proof.
  unfold aggregator.Aggregate.
  destruct (beaconBlockRoots st !! Slot_ duty) as [tmp|] eqn:Hhit.
  { cbn [fst].
    destruct (aggregateWithRoot_log s duty tmp
                (setRoots (delete (Slot_ duty) (beaconBlockRoots st)) st))
      as (new & _ & -> & _). reflexivity. }
  rewrite delete_id by exact Hhit.
  destruct (aggregator.beaconBlockRootProvider s (world st) "head")
    as [w [beaconBlockRoot err]].
  destruct err as [e|]; [reflexivity|].
  destruct beaconBlockRoot as [root|]; [|reflexivity].
  cbn [fst].
  destruct (aggregateWithRoot_log s duty root
              (emit (CallBeaconBlockRoot "head" (Some root) None) (setWorld w st)))
    as (new & _ & -> & _). reflexivity.
Qed.

End AggregatorReports.

(** ** Sync-committee messenger: preparing a duty *)

Section Preparing.
Context {W : Type}.
Import synccommitteemessenger altair reporting preparation.
Implicit Types (s : messenger.Service W) (st : Sys W) (d : Duty).

Lemma selectionOf_set d v c sig v' c' :
  selectionOf (SetAggregatorSubcommittees d v c sig) v' c'
  = if decide (v' = v /\ c' = c) then Some sig else selectionOf d v' c'.
Proof.
  unfold selectionOf, SetAggregatorSubcommittees. cbn.
  destruct (decide (v' = v)) as [->|Hv].
  - rewrite lookup_insert_eq. cbn.
    destruct (decide (c' = c)) as [->|Hc].
    + rewrite lookup_insert_eq. by rewrite decide_True.
    + rewrite lookup_insert_ne by done. rewrite decide_False by tauto.
      by destruct (aggregatorSubcommittees d !! v).
  - rewrite lookup_insert_ne by done. by rewrite decide_False by tauto.
Qed.

(** With non-zero divisors [isAggregator] signs once and returns. *)
Lemma isAggregator_signs s account slot c st :
  messenger.syncCommitteeSubnetCount s <> 0 ->
  messenger.targetAggregatorsPerSyncCommittee s <> 0 ->
  messenger.isAggregator s account slot c st
  = (emit (CallSignSyncCommitteeSelection account slot c
             (messenger.syncCommitteeSelectionSigner s (world st) account slot c).2.1
             (messenger.syncCommitteeSelectionSigner s (world st) account slot c).2.2)
       (setWorld
          (messenger.syncCommitteeSelectionSigner s (world st) account slot c).1 st),
     Go.Returned
       match (messenger.syncCommitteeSelectionSigner s (world st) account slot c).2.2
       with
       | Some e =>
           (false, zeroSignature, Go.errors_Wrap (Some e) "failed to sign the slot")
       | None =>
           (Go.LittleEndian_Uint64
              (firstn 8 (sha256.Sum256
                 (messenger.syncCommitteeSelectionSigner s (world st) account
                    slot c).2.1))
            mod modulo s =? 0,
            (messenger.syncCommitteeSelectionSigner s (world st) account slot c).2.1,
            None)
       end).
Proof.
  intros Hsub Htgt. unfold messenger.isAggregator.
  rewrite modulo_defined by done.
  destruct (messenger.syncCommitteeSelectionSigner s (world st) account slot c)
    as [w [sig [e|]]]; [reflexivity|].
  unfold messenger.sigHash_Write. rewrite Z.eqb_refl. reflexivity.
Qed.

(** With a zero divisor [isAggregator] stops before it signs. *)
Lemma isAggregator_divides_by_zero s account slot c st :
  messenger.syncCommitteeSubnetCount s = 0
  \/ messenger.targetAggregatorsPerSyncCommittee s = 0 ->
  messenger.isAggregator s account slot c st
  = (st, Go.Panicked "runtime error: integer divide by zero").
Proof.
  intros Hzero. unfold messenger.isAggregator, Go.udiv, mbind, outcome_bind, Go.bind.
  destruct (Z.eqb_spec (messenger.syncCommitteeSubnetCount s) 0); [reflexivity|].
  destruct (Z.eqb_spec (messenger.targetAggregatorsPerSyncCommittee s) 0);
    [reflexivity|]. tauto.
Qed.

(** The subcommittees of a validator, when the divisions go through. *)
Lemma subcommitteesOf_returns s indices :
  messenger.syncCommitteeSubnetCount s <> 0 ->
  messenger.syncCommitteeSize s / messenger.syncCommitteeSubnetCount s <> 0 ->
  forall subcommittees,
  exists result,
    messenger.subcommitteesOf s indices subcommittees = Go.Returned result
    /\ forall c,
        c ∈ result <->
        c ∈ subcommittees
        \/ exists contributionIndex,
            contributionIndex ∈ indices
            /\ c = contributionIndex
                   / (messenger.syncCommitteeSize s
                      / messenger.syncCommitteeSubnetCount s).
Proof.
  intros Hsub Hper.
  induction indices as [|idx rest IH]; intros acc.
  - exists acc. split; [reflexivity|]. intros c. split; [by left|].
    intros [Hc|(x & Hx & _)]; [exact Hc | by apply not_elem_of_nil in Hx].
  - cbn [messenger.subcommitteesOf].
    unfold Go.udiv, mbind, outcome_bind, Go.bind.
    destruct (Z.eqb_spec (messenger.syncCommitteeSubnetCount s) 0); [done|].
    destruct (Z.eqb_spec (messenger.syncCommitteeSize s
                          / messenger.syncCommitteeSubnetCount s) 0); [done|].
    destruct (IH ({[idx / (messenger.syncCommitteeSize s
                           / messenger.syncCommitteeSubnetCount s)]} ∪ acc))
      as (result & Hrun & Hmem).
    exists result. split; [exact Hrun|].
    intros c. rewrite Hmem, elem_of_union, elem_of_singleton.
    split.
    + intros [[->|Hc]|(x & Hx & ->)].
      * right. exists idx. split; [by left | reflexivity].
      * by left.
      * right. exists x. split; [by right | reflexivity].
    + intros [Hc|(x & Hx & ->)]; [by left; right|].
      apply elem_of_cons in Hx as [->|Hx]; [by left; left|].
      right. by exists x.
Qed.

Lemma subcommitteesOf_divides_by_zero s contributionIndex rest subcommittees :
  messenger.syncCommitteeSubnetCount s = 0
  \/ messenger.syncCommitteeSize s / messenger.syncCommitteeSubnetCount s = 0 ->
  messenger.subcommitteesOf s (contributionIndex :: rest) subcommittees
  = Go.Panicked "runtime error: integer divide by zero".
Proof.
  intros Hzero. cbn [messenger.subcommitteesOf].
  unfold Go.udiv, mbind, outcome_bind, Go.bind.
  destruct (Z.eqb_spec (messenger.syncCommitteeSubnetCount s) 0); [reflexivity|].
  destruct (Z.eqb_spec (messenger.syncCommitteeSize s
                        / messenger.syncCommitteeSubnetCount s) 0); [reflexivity|].
  tauto.
Qed.

Lemma sameDuty_refl d : sameDuty d d.
Proof. by repeat split. Qed.

(** The loop over the subcommittees of one validator, when the divisions
    go through. *)
Lemma prepareSubcommittees_signs s v subs :
  messenger.syncCommitteeSubnetCount s <> 0 ->
  messenger.targetAggregatorsPerSyncCommittee s <> 0 ->
  forall d st,
    let r := messenger.prepareSubcommittees s d v subs st in
    exists new fl,
      r.2 = Go.Returned fl
      /\ log r.1.1 = log st ++ new
      /\ beaconBlockRoots r.1.1 = beaconBlockRoots st
      /\ sameDuty d r.1.2
      /\ Forall (fun e => isSelectionSigning e = true) new
      /\ forall v' c sig,
          selectionOf r.1.2 v' c = Some sig ->
          selectionOf d v' c = Some sig
          \/ (v' = v /\ c ∈ subs
              /\ CallSignSyncCommitteeSelection (accounts d !! v) (slot d) c sig None
                   ∈ new
              /\ drawn s sig).
Proof.
  intros Hsub Htgt.
  induction subs as [|c rest IH]; intros d st; cbn zeta.
  - exists [], Continue. cbn. rewrite app_nil_r.
    repeat split; auto.
  - cbn [messenger.prepareSubcommittees].
    rewrite isAggregator_signs by done.
    destruct (messenger.syncCommitteeSelectionSigner s (world st)
                (accounts d !! v) (slot d) c) as [w [sig [e|]]]; cbn [fst snd].
    { eexists [_], _. cbn. repeat split; auto. }
    set (call := CallSignSyncCommitteeSelection (accounts d !! v) (slot d) c sig None).
    destruct (Go.LittleEndian_Uint64 (firstn 8 (sha256.Sum256 sig)) mod modulo s =? 0)
      eqn:Hdraw.
    + destruct (IH (SetAggregatorSubcommittees d v c sig) (emit call (setWorld w st)))
        as (new & fl & Hout & Hlog & Hroots & Hsame & Hsel & Hprov).
      exists (call :: new), fl. split; [exact Hout|].
      split; [rewrite Hlog; cbn; by rewrite <- app_assoc|].
      split; [exact Hroots|]. split; [exact Hsame|].
      split; [by constructor|].
      intros v' c' sig' Hrec.
      destruct (Hprov v' c' sig' Hrec) as [Hbefore|(-> & Hin & Hcall & Hdrawn)].
      * rewrite selectionOf_set in Hbefore.
        destruct (decide (v' = v /\ c' = c)) as [[-> ->]|_]; [|by left].
        inversion Hbefore; subst sig'. right.
        split; [reflexivity|]. split; [by left|]. split; [by left|].
        by apply Z.eqb_eq.
      * right. split; [reflexivity|]. split; [by right|].
        split; [by right|]. exact Hdrawn.
    + destruct (IH d (emit call (setWorld w st)))
        as (new & fl & Hout & Hlog & Hroots & Hsame & Hsel & Hprov).
      exists (call :: new), fl. split; [exact Hout|].
      split; [rewrite Hlog; cbn; by rewrite <- app_assoc|].
      split; [exact Hroots|]. split; [exact Hsame|].
      split; [by constructor|].
      intros v' c' sig' Hrec.
      destruct (Hprov v' c' sig' Hrec) as [Hbefore|(-> & Hin & Hcall & Hdrawn)];
        [by left|].
      right. split; [reflexivity|]. split; [by right|].
      split; [by right|]. exact Hdrawn.
Qed.

(** The loop over the validators, when the divisions go through. *)
Lemma prepareValidators_signs s indices :
  messenger.syncCommitteeSubnetCount s <> 0 ->
  messenger.syncCommitteeSize s / messenger.syncCommitteeSubnetCount s <> 0 ->
  messenger.targetAggregatorsPerSyncCommittee s <> 0 ->
  forall d st,
    let r := messenger.prepareValidators s d indices st in
    exists new fl,
      r.2 = Go.Returned fl
      /\ log r.1.1 = log st ++ new
      /\ beaconBlockRoots r.1.1 = beaconBlockRoots st
      /\ sameDuty d r.1.2
      /\ Forall (fun e => isSelectionSigning e = true) new
      /\ forall v c sig,
          selectionOf r.1.2 v c = Some sig ->
          selectionOf d v c = Some sig
          \/ (v ∈ indices
              /\ (exists contributionIndex,
                    contributionIndex ∈ default [] (contributionIndices d !! v)
                    /\ c = contributionIndex
                           / (messenger.syncCommitteeSize s
                              / messenger.syncCommitteeSubnetCount s))
              /\ CallSignSyncCommitteeSelection (accounts d !! v) (slot d) c sig None
                   ∈ new
              /\ drawn s sig).
Proof.
  intros Hsub Hper Htgt.
  induction indices as [|v rest IH]; intros d st; cbn zeta.
  - exists [], Continue. cbn. rewrite app_nil_r. repeat split; auto.
  - cbn [messenger.prepareValidators].
    destruct (subcommitteesOf_returns s (default [] (contributionIndices d !! v))
                Hsub Hper ∅) as (subs & -> & Hsubs).
    destruct (prepareSubcommittees_signs s v (elements subs) Hsub Htgt d st)
      as (new & fl & Hout & Hlog & Hroots & Hsame & Hsel & Hprov).
    assert (Hmine : forall v' c sig,
               selectionOf (messenger.prepareSubcommittees s d v (elements subs) st).1.2
                 v' c = Some sig ->
               selectionOf d v' c = Some sig
               \/ (v' ∈ v :: rest
                   /\ (exists contributionIndex,
                         contributionIndex ∈ default [] (contributionIndices d !! v')
                         /\ c = contributionIndex
                                / (messenger.syncCommitteeSize s
                                   / messenger.syncCommitteeSubnetCount s))
                   /\ CallSignSyncCommitteeSelection (accounts d !! v') (slot d) c
                        sig None ∈ new
                   /\ drawn s sig)).
    { intros v' c sig Hrec.
      destruct (Hprov v' c sig Hrec) as [Hbefore|(-> & Hin & Hcall & Hdrawn)];
        [by left|].
      right. split; [by left|]. split; [|by split].
      apply elem_of_elements in Hin. apply Hsubs in Hin as [Hin|Hin]; [|exact Hin].
      by apply not_elem_of_empty in Hin. }
    destruct (messenger.prepareSubcommittees s d v (elements subs) st)
      as [[st' d'] out]. cbn in Hout, Hlog, Hroots, Hsame, Hmine. subst out.
    destruct fl as [|err].
    2:{ exists new, (Return_ err). cbn. repeat split; auto; apply Hsame. }
    destruct (IH d' st') as (new' & fl' & Hout' & Hlog' & Hroots' & Hsame' & Hsel' & Hprov').
    destruct Hsame as (Hslot & Hidx & Hcon & Hacc).
    destruct Hsame' as (Hslot' & Hidx' & Hcon' & Hacc').
    exists (new ++ new'), fl'. split; [exact Hout'|].
    split; [rewrite Hlog', Hlog; by rewrite <- app_assoc|].
    split; [congruence|].
    split; [repeat split; congruence|].
    split; [by apply Forall_app|].
    intros v' c sig Hrec.
    destruct (Hprov' v' c sig Hrec) as [Hbefore|(Hin & Hidx'' & Hcall & Hdrawn)].
    + destruct (Hmine v' c sig Hbefore) as [?|(? & ? & Hcall & ?)]; [by left|].
      right. repeat split; auto. apply elem_of_app. by left.
    + right. split; [by right|]. rewrite Hcon in Hidx''. split; [exact Hidx''|].
      rewrite Hacc, Hslot in Hcall. split; [|exact Hdrawn].
      apply elem_of_app. by right.
Qed.

(** The loop over the validators when a divisor is zero: it stops at the
    first validator with a contribution index, before anything is signed. *)
Lemma prepareValidators_divides_by_zero s d st indices :
  divisorsFail s ->
  messenger.prepareValidators s d indices st
  = (st, d,
     if existsb (hasContributions d) indices
     then Go.Panicked "runtime error: integer divide by zero"
     else Go.Returned Continue).
Proof.
  intros Hfail. induction indices as [|v rest IH]; [reflexivity|].
  cbn [messenger.prepareValidators existsb]. unfold hasContributions at 1.
  destruct (default [] (contributionIndices d !! v)) as [|idx more] eqn:Hidx.
  { cbn. exact IH. }
  replace (negb (len (idx :: more) =? 0)) with true
    by (unfold len; cbn [length]; symmetry; apply negb_true_iff, Z.eqb_neq; lia).
  cbn [orb].
  destruct (decide (messenger.syncCommitteeSubnetCount s = 0
                    \/ messenger.syncCommitteeSize s
                       / messenger.syncCommitteeSubnetCount s = 0)) as [Hzero|Hok].
  { by rewrite subcommitteesOf_divides_by_zero. }
  assert (Htgt : messenger.targetAggregatorsPerSyncCommittee s = 0).
  { destruct Hfail as [?|[?|?]]; tauto. }
  destruct (subcommitteesOf_returns s (idx :: more)) with (subcommittees := (∅ : gset Z))
    as (subs & -> & Hsubs); [tauto..|].
  destruct (elements subs) as [|c cs] eqn:Hel.
  { apply elements_empty_inv in Hel.
    assert (idx / (messenger.syncCommitteeSize s
                   / messenger.syncCommitteeSubnetCount s) ∈ subs) as Hin.
    { apply Hsubs. right. exists idx. split; [by left | reflexivity]. }
    rewrite Hel in Hin. by apply not_elem_of_empty in Hin. }
  cbn [messenger.prepareSubcommittees].
  rewrite isAggregator_divides_by_zero by tauto. reflexivity.
Qed.

(** X15.  [Prepare] on a duty panics exactly when one of its divisions has
    a zero divisor (the subnet count, the committee size over the subnet
    count, or the target number of aggregators) and some validator of the
    duty has a contribution index.  The panic is the division's; nothing has
    been signed and the duty is as it was. *)
Theorem Prepare_panics_iff s d st :
  ((exists why, (messenger.Prepare s (MessengerDuty (Some d)) st).2 = Go.Panicked why)
   <-> divisorsFail s
       /\ exists v, v ∈ validatorIndices d /\ hasContributions d v = true)
  /\ forall why,
      (messenger.Prepare s (MessengerDuty (Some d)) st).2 = Go.Panicked why ->
      messenger.Prepare s (MessengerDuty (Some d)) st
      = (st, MessengerDuty (Some d),
         Go.Panicked "runtime error: integer divide by zero").
Proof.
  unfold messenger.Prepare. cbn [messenger.assertDuty negb].
  destruct (decide (divisorsFail s)) as [Hfail|Hok].
  - rewrite prepareValidators_divides_by_zero by exact Hfail.
    destruct (existsb (hasContributions d) (validatorIndices d)) eqn:Hany; cbn.
    + split; [|reflexivity]. split; [|by eauto].
      intros _. split; [exact Hfail|].
      apply existsb_exists in Hany as (v & Hin & Hv).
      exists v. split; [by apply list_elem_of_In | exact Hv].
    + split; [|by intros why H]. split; [by intros [why H]|].
      intros (_ & v & Hin & Hv).
      assert (existsb (hasContributions d) (validatorIndices d) = true) as Hyes.
      { apply existsb_exists. exists v. split; [by apply list_elem_of_In | exact Hv]. }
      congruence.
  - unfold divisorsFail in Hok.
    destruct (prepareValidators_signs s (validatorIndices d)) with (d := d) (st := st)
      as (new & fl & Hout & _); [tauto..|].
    destruct (messenger.prepareValidators s d (validatorIndices d) st)
      as [[st' d'] out]. cbn in Hout. subst out.
    destruct fl; cbn; (split; [|by intros why H]);
      (split; [by intros [why H] | by intros [H _]]).
Qed.

(** X16.  What [Prepare] leaves in a duty is signed for.  [Prepare] changes
    nothing of the duty but its recorded selection signatures, calls
    nothing but the selection signer and leaves the root cache alone; and
    every selection signature in the duty afterwards was there before or
    is the signer's answer, given without error in this run, for the
    account of a validator of the duty, the duty's slot and the
    subcommittee of one of the validator's contribution indices, on which
    the aggregator draw selected. *)
Theorem Prepare_records_signed_selections s d st :
  exists d' new,
    (messenger.Prepare s (MessengerDuty (Some d)) st).1.2 = MessengerDuty (Some d')
    /\ sameDuty d d'
    /\ log (messenger.Prepare s (MessengerDuty (Some d)) st).1.1 = log st ++ new
    /\ beaconBlockRoots (messenger.Prepare s (MessengerDuty (Some d)) st).1.1
       = beaconBlockRoots st
    /\ Forall (fun e => isSelectionSigning e = true) new
    /\ forall v c sig,
        selectionOf d' v c = Some sig ->
        selectionOf d v c = Some sig \/ signedSelection s d new v c sig.
Proof.
  unfold messenger.Prepare. cbn [messenger.assertDuty negb].
  destruct (decide (divisorsFail s)) as [Hfail|Hok].
  - rewrite prepareValidators_divides_by_zero by exact Hfail.
    exists d, []. rewrite app_nil_r.
    destruct (existsb (hasContributions d) (validatorIndices d)); cbn;
      (split; [reflexivity|]); (split; [apply sameDuty_refl|]);
      repeat split; auto.
  - unfold divisorsFail in Hok.
    destruct (prepareValidators_signs s (validatorIndices d)) with (d := d) (st := st)
      as (new & fl & Hout & Hlog & Hroots & Hsame & Hsel & Hprov); [tauto..|].
    destruct (messenger.prepareValidators s d (validatorIndices d) st)
      as [[st' d'] out]. cbn in Hout, Hlog, Hroots, Hsame, Hprov. subst out.
    exists d', new.
    destruct fl; cbn; (split; [reflexivity|]); (split; [exact Hsame|]);
      (split; [exact Hlog|]); (split; [exact Hroots|]); (split; [exact Hsel|]);
      exact Hprov.
Qed.

End Preparing.

(** ** Sync-committee messenger: the messages of a slot *)

Section Messages.
Context {W : Type}.
Import synccommitteemessenger altair reporting preparation.
Implicit Types (s : messenger.Service W) (st : Sys W) (d : Duty).

(** What the signing tasks add to the log and to the messages. *)
Lemma signAll_log s d root indices :
  forall msgs st,
    let r := messenger.signAll s d root indices msgs st in
    let epoch := messenger.chainTimeService_SlotToEpoch s (Go.u64 (slot d + 1)) in
    exists new signed,
      log r.1 = log st ++ new
      /\ r.2 = msgs ++ signed
      /\ Forall (fun e => isRootSigning e = true) new
      /\ msg_ValidatorIndex <$> signed `sublist_of` indices
      /\ Forall (fun m =>
           msg_Slot m = slot d
           /\ msg_BeaconBlockRoot m = root
           /\ CallSignSyncCommitteeRoot (accounts d !! msg_ValidatorIndex m) epoch
                root (msg_Signature m) None ∈ new) signed
      /\ forall v,
          v ∈ indices ->
          (exists m, m ∈ signed /\ msg_ValidatorIndex m = v)
          \/ exists sig e,
              CallSignSyncCommitteeRoot (accounts d !! v) epoch root sig (Some e)
                ∈ new.
Proof.
  induction indices as [|v rest IH]; intros msgs st; cbn zeta.
  - exists [], []. cbn. rewrite !app_nil_r.
    split; [reflexivity|]. split; [reflexivity|]. split; [constructor|].
    split; [constructor|]. split; [constructor|].
    intros v Hv. by apply not_elem_of_nil in Hv.
  - cbn [messenger.signAll]. unfold messenger.contribute.
    destruct (messenger.syncCommitteeRootSigner s (world st) (accounts d !! v)
                (messenger.chainTimeService_SlotToEpoch s (Go.u64 (slot d + 1)))
                root) as [w [sig [e|]]].
    + match goal with
      | |- context [messenger.signAll s d root rest msgs ?st'] =>
          destruct (IH msgs st')
            as (new & signed & Hlog & Hmsgs & Hnew & Hsub & Hsigned & Hall)
      end.
      eexists (_ :: new), signed.
      split; [rewrite Hlog; cbn; by rewrite <- app_assoc|].
      split; [exact Hmsgs|]. split; [by constructor|].
      split; [by apply sublist_cons|].
      split.
      { eapply Forall_impl; [exact Hsigned|].
        intros m (? & ? & ?). repeat split; auto. by right. }
      intros v' Hv'. apply elem_of_cons in Hv' as [->|Hv'].
      * right. exists sig, e. by left.
      * destruct (Hall v' Hv') as [?|(sig' & e' & ?)]; [by left|].
        right. exists sig', e'. by right.
    + match goal with
      | |- context [messenger.signAll s d root rest (msgs ++ [?m]) ?st'] =>
          destruct (IH (msgs ++ [m]) st')
            as (new & signed & Hlog & Hmsgs & Hnew & Hsub & Hsigned & Hall);
          eexists (_ :: new), (m :: signed)
      end.
      split; [rewrite Hlog; cbn; by rewrite <- app_assoc|].
      split; [rewrite Hmsgs; by rewrite <- app_assoc|].
      split; [by constructor|].
      split; [cbn; by apply sublist_skip|].
      split.
      { constructor.
        - cbn. repeat split. by left.
        - eapply Forall_impl; [exact Hsigned|].
          intros m (? & ? & ?). repeat split; auto. by right. }
      intros v' Hv'. apply elem_of_cons in Hv' as [->|Hv'].
      * left. eexists. split; [by left | reflexivity].
      * destruct (Hall v' Hv') as [(m & ? & ?)|(sig' & e' & ?)].
        -- left. exists m. split; [by right | done].
        -- right. exists sig', e'. by right.
Qed.

(** X17.  The messages [Message] returns.  They are the batch it
    submitted, without error, after fetching the head root without error.
    There is at most one message for a validator; each is for the duty's
    slot and that head root, for a validator with contribution indices in
    the duty, and carries the signature the signer returned for the
    validator's account at the epoch of the following slot.  A validator
    with contribution indices has a message unless its signing failed:
    failed signings are left out and do not fail the call. *)
Theorem Message_messages s d st msgs :
  (messenger.Message s (MessengerDuty (Some d)) st).2
    = Go.Returned (Some msgs, None) ->
  exists root calls,
    log (messenger.Message s (MessengerDuty (Some d)) st).1
    = log st ++ CallBeaconBlockRoot "head" (Some root) None :: calls
      ++ [CallSubmitSyncCommitteeMessages msgs None;
          MetricSyncCommitteeMessagesCompleted (slot d) (len msgs) "succeeded"]
    /\ Forall (fun e => isRootSigning e = true) calls
    /\ NoDup (msg_ValidatorIndex <$> msgs)
    /\ Forall (signedMessage s d root calls) msgs
    /\ forall v,
        is_Some (contributionIndices d !! v) ->
        (exists m, m ∈ msgs /\ msg_ValidatorIndex m = v)
        \/ exists sig e,
            CallSignSyncCommitteeRoot (accounts d !! v)
              (messenger.chainTimeService_SlotToEpoch s (Go.u64 (slot d + 1)))
              root sig (Some e) ∈ calls.
Proof.
  unfold messenger.Message. cbn [messenger.assertDuty negb].
  destruct (messenger.beaconBlockRootProvider s (world st) "head")
    as [w [r err]].
  destruct err as [e|]; [discriminate|].
  destruct r as [root|]; [|discriminate].
  match goal with
  | |- context [messenger.signAll s d root ?indices [] ?st'] =>
      destruct (signAll_log s d root indices [] st')
        as (new & signed & Hlog & Hmsgs & Hnew & Hsub & Hsigned & Hall);
      destruct (messenger.signAll s d root indices [] st') as [st2 msgs2]
  end.
  cbn in Hlog, Hmsgs. subst msgs2.
  destruct (messenger.syncCommitteeMessagesSubmitter s (world st2) signed)
    as [w' [e|]]; [discriminate|].
  cbn. intros [= <-]. exists root, new.
  split; [rewrite Hlog; by rewrite <- !app_assoc|].
  split; [exact Hnew|].
  split; [exact (sublist_NoDup _ _ (NoDup_fst_map_to_list (contributionIndices d))
                   Hsub)|].
  split.
  - apply Forall_forall. intros m Hm.
    pose proof (proj1 (Forall_forall _ _) Hsigned m Hm) as (Hslot & Hroot & Hcall).
    repeat split; auto.
    assert (msg_ValidatorIndex m ∈ (map_to_list (contributionIndices d)).*1) as Hin.
    { eapply elem_of_sublist; [|exact Hsub]. apply list_elem_of_fmap. eauto. }
    apply list_elem_of_fmap in Hin as ([v idx] & -> & Hin).
    apply elem_of_map_to_list in Hin. cbn. by rewrite Hin.
  - intros v [idx Hv]. apply Hall. apply list_elem_of_fmap.
    exists (v, idx). split; [reflexivity|]. by apply elem_of_map_to_list.
Qed.

(** X18.  [Message] caches the head root as soon as it has it, before it
    signs or submits anything: whenever the beacon node answers "head"
    with a root and no error, the cache afterwards maps the duty's slot to
    that root, also when the call then fails to submit and returns an
    error; when the fetch fails or comes back empty the cache is as it
    was. *)
Theorem Message_caches_root_first s d st :
  beaconBlockRoots (messenger.Message s (MessengerDuty (Some d)) st).1
  = match (messenger.beaconBlockRootProvider s (world st) "head").2 with
    | (Some root, None) => <[slot d := root]> (beaconBlockRoots st)
    | _ => beaconBlockRoots st
    end.
Proof.
  unfold messenger.Message. cbn [messenger.assertDuty negb].
  destruct (messenger.beaconBlockRootProvider s (world st) "head")
    as [w [r err]]. cbn [snd].
  destruct err as [e|]; [by destruct r|].
  destruct r as [root|]; [|reflexivity].
  match goal with
  | |- context [messenger.signAll s d root ?indices [] ?st'] =>
      pose proof (signAll_roots s d root indices [] st') as Hroots;
      destruct (messenger.signAll s d root indices [] st') as [st2 msgs2]
  end.
  cbn in Hroots.
  by destruct (messenger.syncCommitteeMessagesSubmitter s (world st2) msgs2)
    as [w' [e|]].
Qed.

(** X19.  Every [Message] on a duty returns, and reports completion once,
    as the last thing it does.  It reports "succeeded" exactly when it
    returns messages, and then no error; the count is the number of
    messages.  Otherwise it reports "failed" and returns no messages: after
    a failed or empty fetch of the head root, which is then its only call,
    with the number of validators of the duty as count; or after a failed
    submission, with the size of the batch as count and the submitter's
    error wrapped.  It returns an error in each of these cases but one:
    after an empty fetch without error it returns neither messages nor
    error. *)
Theorem Message_reports_once s d st :
  exists calls count status result,
    (messenger.Message s (MessengerDuty (Some d)) st).2 = Go.Returned result
    /\ log (messenger.Message s (MessengerDuty (Some d)) st).1
       = log st ++ calls
         ++ [MetricSyncCommitteeMessagesCompleted (slot d) count status]
    /\ Forall (fun e => isMetric e = false) calls
    /\ ((status = "succeeded"
         /\ exists pre msgs,
             result = (Some msgs, None)
             /\ calls = pre ++ [CallSubmitSyncCommitteeMessages msgs None]
             /\ count = len msgs)
        \/ (status = "failed"
            /\ result.1 = None
            /\ ((exists root err,
                   calls = [CallBeaconBlockRoot "head" root err]
                   /\ failedCall (CallBeaconBlockRoot "head" root err) = true
                   /\ count = len (validatorIndices d)
                   /\ (result.2 = None <-> err = None))
                \/ (exists pre batch e,
                      calls = pre ++ [CallSubmitSyncCommitteeMessages batch (Some e)]
                      /\ count = len batch
                      /\ result.2
                         = Some ("failed to submit sync committee messages"
                                 +:+ ": " +:+ e))))).
Proof.
  unfold messenger.Message. cbn [messenger.assertDuty negb].
  destruct (messenger.beaconBlockRootProvider s (world st) "head")
    as [w [r err]].
  destruct err as [e|].
  { eexists [_], _, "failed", _. split; [reflexivity|].
    split; [cbn; by rewrite <- app_assoc|]. split; [by repeat constructor|].
    right. split; [reflexivity|]. split; [reflexivity|]. left.
    exists r, (Some e). repeat split; try done; by destruct r. }
  destruct r as [root|].
  2:{ eexists [_], _, "failed", _. split; [reflexivity|].
      split; [cbn; by rewrite <- app_assoc|]. split; [by repeat constructor|].
      right. split; [reflexivity|]. split; [reflexivity|]. left.
      exists None, None. repeat split; done. }
  match goal with
  | |- context [messenger.signAll s d root ?indices [] ?st'] =>
      destruct (signAll_log s d root indices [] st')
        as (new & signed & Hlog & Hmsgs & Hnew & _);
      destruct (messenger.signAll s d root indices [] st') as [st2 msgs2]
  end.
  cbn in Hlog, Hmsgs. subst msgs2.
  assert (Hquiet : Forall (fun e => isMetric e = false) new).
  { eapply Forall_impl; [exact Hnew|]. by intros []. }
  destruct (messenger.syncCommitteeMessagesSubmitter s (world st2) signed)
    as [w' [e|]].
  - exists (CallBeaconBlockRoot "head" (Some root) None :: new
            ++ [CallSubmitSyncCommitteeMessages signed (Some e)]),
      (len signed), "failed". eexists. split; [reflexivity|].
    split; [cbn; rewrite Hlog; cbn; by rewrite <- !app_assoc|].
    split.
    { constructor; [done|]. apply Forall_app. split; [exact Hquiet|].
      by repeat constructor. }
    right. split; [reflexivity|]. split; [reflexivity|]. right.
    exists (CallBeaconBlockRoot "head" (Some root) None :: new), signed, e.
    done.
  - exists (CallBeaconBlockRoot "head" (Some root) None :: new
            ++ [CallSubmitSyncCommitteeMessages signed None]),
      (len signed), "succeeded". eexists. split; [reflexivity|].
    split; [cbn; rewrite Hlog; cbn; by rewrite <- !app_assoc|].
    split.
    { constructor; [done|]. apply Forall_app. split; [exact Hquiet|].
      by repeat constructor. }
    left. split; [reflexivity|].
    exists (CallBeaconBlockRoot "head" (Some root) None :: new), signed. done.
Qed.

End Messages.

(** ** Building the two sync-committee services *)

Section Construction.
Context {W : Type}.

(** X20.  The messenger and the aggregator are built on the same reading
    of the chain specification.  On the same specification both [New]
    succeed or both fail.  They succeed exactly when each of the four items
    SLOTS_PER_EPOCH, SYNC_COMMITTEE_SIZE, SYNC_COMMITTEE_SUBNET_COUNT and
    TARGET_AGGREGATORS_PER_SYNC_SUBCOMMITTEE is there as a [uint64]; the
    two services then hold the same four values, those of the
    specification, whatever they are (zero is not refused), and the
    aggregator starts with an empty root cache.  Otherwise both return no
    service and an error. *)
Theorem New_services_agree (pm : messenger.Parameters W)
    (pa : aggregator.Parameters W) (spec : gmap string SpecValue) :
  messenger.specProvider_Spec pm = Go.Ok spec ->
  aggregator.specProvider_Spec pa = Go.Ok spec ->
  let items := ["SLOTS_PER_EPOCH"; "SYNC_COMMITTEE_SIZE";
                "SYNC_COMMITTEE_SUBNET_COUNT";
                "TARGET_AGGREGATORS_PER_SYNC_SUBCOMMITTEE"] in
  (exists slots size subnets target sm sa,
      spec !! "SLOTS_PER_EPOCH" = Some (SpecUint64 slots)
      /\ spec !! "SYNC_COMMITTEE_SIZE" = Some (SpecUint64 size)
      /\ spec !! "SYNC_COMMITTEE_SUBNET_COUNT" = Some (SpecUint64 subnets)
      /\ spec !! "TARGET_AGGREGATORS_PER_SYNC_SUBCOMMITTEE" = Some (SpecUint64 target)
      /\ messenger.New (Go.Ok pm) = (Some sm, None)
      /\ aggregator.New (Go.Ok pa) = (Some (sa, ∅), None)
      /\ messenger.slotsPerEpoch _ sm = slots
      /\ aggregator.slotsPerEpoch _ sa = slots
      /\ messenger.syncCommitteeSize sm = size
      /\ aggregator.syncCommitteeSize _ sa = size
      /\ messenger.syncCommitteeSubnetCount sm = subnets
      /\ aggregator.syncCommitteeSubnetCount _ sa = subnets
      /\ messenger.targetAggregatorsPerSyncCommittee sm = target
      /\ aggregator.targetAggregatorsPerSyncSubcommittee _ sa = target)
  \/ (Exists (fun item => forall val, spec !! item <> Some (SpecUint64 val)) items
      /\ exists em ea,
          messenger.New (Go.Ok pm) = (None, Some em)
          /\ aggregator.New (Go.Ok pa) = (None, Some ea)).
Proof.
  intros Hm Ha items.
  unfold messenger.New, aggregator.New. rewrite Hm, Ha.
  unfold messenger.specUint64, aggregator.specItem.
  destruct (spec !! "SLOTS_PER_EPOCH") as [[slots|other]|] eqn:Hslots.
  2,3: right; split;
    [apply Exists_cons_hd; rewrite Hslots; by intros val | cbn; by eauto].
  destruct (spec !! "SYNC_COMMITTEE_SIZE") as [[size|other]|] eqn:Hsize.
  2,3: right; split;
    [apply Exists_cons_tl, Exists_cons_hd; rewrite Hsize; by intros val
    | cbn; by eauto].
  destruct (spec !! "SYNC_COMMITTEE_SUBNET_COUNT") as [[subnets|other]|] eqn:Hsubnets.
  2,3: right; split;
    [apply Exists_cons_tl, Exists_cons_tl, Exists_cons_hd; rewrite Hsubnets;
     by intros val
    | cbn; by eauto].
  destruct (spec !! "TARGET_AGGREGATORS_PER_SYNC_SUBCOMMITTEE")
    as [[target|other]|] eqn:Htarget.
  2,3: right; split;
    [apply Exists_cons_tl, Exists_cons_tl, Exists_cons_tl, Exists_cons_hd;
     rewrite Htarget; by intros val
    | cbn; by eauto].
  left. exists slots, size, subnets, target. eexists _, _.
  repeat split; reflexivity.
Qed.

End Construction.

(** ** Wallet account manager: loading the accounts *)

Section Loading.
Import wallet loading.
Implicit Types (k : Keystore) (wallet : Wallet) (account : WalletAccount).
Implicit Types (accounts : gmap (list Z) WalletAccount).



Lemma verified_spec k verificationRegexes name :
  verified k verificationRegexes name = true <->
  exists verificationRegex,
    verificationRegex ∈ verificationRegexes
    /\ regexp_Match (re k) verificationRegex name = true.
Proof.
  unfold verified. rewrite existsb_exists.
  split; intros (r & Hin & Hr); exists r; (split; [by apply list_elem_of_In | done]).
Qed.

Lemma unlocked_spec k account :
  unlocked k account = true <->
  exists unlock passphrase,
    account_Unlock account = Some unlock
    /\ passphrase ∈ passphrases k
    /\ unlock passphrase = None.
Proof.
  unfold unlocked. destruct (account_Unlock account) as [unlock|].
  - rewrite existsb_exists. split.
    + intros (passphrase & Hin & Hok). exists unlock, passphrase.
      split; [reflexivity|]. split; [by apply list_elem_of_In|].
      by apply bool_decide_eq_true in Hok.
    + intros (unlock' & passphrase & [= <-] & Hin & Hok).
      exists passphrase. split; [by apply list_elem_of_In|].
      by apply bool_decide_eq_true.
  - split; [done|]. by intros (? & ? & ? & _).
Qed.

(** One task adds its account under the account's key, if the account
    passes the checks, and leaves the map alone otherwise. *)
Lemma fetchAccount_spec k wallet verificationRegexes accounts account :
  (accepted k verificationRegexes wallet account
   /\ fetchAccount k wallet verificationRegexes accounts account
      = <[bytesutil_ToBytes48 k (pubKey account) := account]> accounts)
  \/ (~ accepted k verificationRegexes wallet account
      /\ fetchAccount k wallet verificationRegexes accounts account = accounts).
Proof.
  unfold fetchAccount, accepted.
  destruct (verified k verificationRegexes
              (wallet_Name wallet +:+ "/" +:+ account_Name account)) eqn:Hverified.
  - destruct (unlocked k account) eqn:Hunlocked.
    + left. split; [|reflexivity]. split.
      * by apply verified_spec.
      * by apply unlocked_spec.
    + right. split; [|reflexivity]. intros [_ Hu].
      apply unlocked_spec in Hu. congruence.
  - right. split; [|reflexivity]. intros [Hv _].
    apply verified_spec in Hv. congruence.
Qed.

Lemma fetchAccounts_fold k wallet verificationRegexes (fetched : list WalletAccount) :
  forall accounts,
    let result := fold_left (fetchAccount k wallet verificationRegexes) fetched
                    accounts in
    (forall key account,
        result !! key = Some account ->
        accounts !! key = Some account
        \/ (account ∈ fetched
            /\ key = bytesutil_ToBytes48 k (pubKey account)
            /\ accepted k verificationRegexes wallet account))
    /\ (forall account,
          account ∈ fetched ->
          accepted k verificationRegexes wallet account ->
          exists account',
            result !! bytesutil_ToBytes48 k (pubKey account) = Some account'
            /\ (account' = account
                \/ (account' ∈ fetched
                    /\ accepted k verificationRegexes wallet account')))
    /\ (forall key, is_Some (accounts !! key) -> is_Some (result !! key)).
Proof.
  induction fetched as [|a rest IH]; intros accounts; cbn zeta.
  - cbn. split; [by auto|]. split; [|done].
    intros account Hin. by apply not_elem_of_nil in Hin.
  - cbn [fold_left].
    destruct (IH (fetchAccount k wallet verificationRegexes accounts a))
      as (Hsound & Hcomplete & Hkeeps).
    destruct (fetchAccount_spec k wallet verificationRegexes accounts a)
      as [[Hok Hstep]|[Hno Hstep]]; rewrite Hstep in *.
    + split; [|split].
      * intros key account Hentry.
        destruct (Hsound key account Hentry) as [Hbefore|(Hin & Hkey & Hacc)].
        -- destruct (decide (key = bytesutil_ToBytes48 k (pubKey a))) as [->|Hne].
           ++ rewrite lookup_insert_eq in Hbefore. inversion Hbefore; subst account.
              right. split; [by left | done].
           ++ rewrite lookup_insert_ne in Hbefore by done. by left.
        -- right. split; [by right | done].
      * intros account Hin Hacc. apply elem_of_cons in Hin as [->|Hin].
        -- destruct (Hkeeps (bytesutil_ToBytes48 k (pubKey a))) as [account' Hthere].
           { rewrite lookup_insert_eq. eauto. }
           exists account'. split; [exact Hthere|].
           destruct (Hsound _ _ Hthere) as [Hbefore|(Hin' & _ & Hacc')].
           ++ rewrite lookup_insert_eq in Hbefore. left. by inversion Hbefore.
           ++ right. split; [by right | done].
        -- destruct (Hcomplete account Hin Hacc) as (account' & Hthere & Hwho).
           exists account'. split; [exact Hthere|].
           destruct Hwho as [->|[Hin' Hacc']]; [by left|].
           right. split; [by right | done].
      * intros key Hkey. apply Hkeeps.
        destruct (decide (key = bytesutil_ToBytes48 k (pubKey a))) as [->|Hne].
        -- rewrite lookup_insert_eq. eauto.
        -- by rewrite lookup_insert_ne.
    + split; [|split].
      * intros key account Hentry.
        destruct (Hsound key account Hentry) as [Hbefore|(Hin & Hkey & Hacc)];
          [by left|].
        right. split; [by right | done].
      * intros account Hin Hacc. apply elem_of_cons in Hin as [->|Hin]; [done|].
        destruct (Hcomplete account Hin Hacc) as (account' & Hthere & Hwho).
        exists account'. split; [exact Hthere|].
        destruct Hwho as [->|[Hin' Hacc']]; [by left|].
        right. split; [by right | done].
      * exact Hkeeps.
Qed.


Lemma openFirst_opened (available : list Store) name wallet :
  openFirst available name = Some wallet ->
  exists store, store ∈ available /\ OpenWallet store name = Go.Ok wallet.
Proof.
  induction available as [|store rest IH]; [discriminate|].
  cbn [openFirst]. destruct (OpenWallet store name) as [w|e] eqn:Hopen.
  - intros [= <-]. exists store. split; [by left | exact Hopen].
  - intros Hrest. destruct (IH Hrest) as (store' & Hin & Hopen').
    exists store'. split; [by right | exact Hopen'].
Qed.

Lemma findWallets_found k paths :
  forall (wallets : gmap string Wallet) name wallet,
    findWallets k paths wallets !! name = Some wallet ->
    wallets !! name = Some wallet
    \/ exists path,
        path ∈ paths
        /\ openFirst (stores k) (nth 0 (strings_Split path slash) "") = Some wallet.
Proof.
  induction paths as [|path rest IH]; intros wallets name wallet Hfound.
  - by left.
  - cbn [findWallets] in Hfound.
    destruct (openFirst (stores k) (nth 0 (strings_Split path slash) ""))
      as [w|] eqn:Hopen.
    + destruct (IH _ _ _ Hfound) as [Hbefore|(path' & Hin & Hopen')].
      * destruct (decide (name = wallet_Name w)) as [->|Hne].
        -- rewrite lookup_insert_eq in Hbefore. inversion Hbefore; subst w.
           right. exists path. split; [by left | exact Hopen].
        -- rewrite lookup_insert_ne in Hbefore by done. by left.
      * right. exists path'. split; [by right | exact Hopen'].
    + destruct (IH _ _ _ Hfound) as [Hbefore|(path' & Hin & Hopen')]; [by left|].
      right. exists path'. split; [by right | exact Hopen'].
Qed.

(** X23.  [refreshAccounts] loads configured accounts only.  Every account
    it leaves in the service is an account of a wallet that was opened, in
    one of the stores, under the first component of one of the account
    paths; it is held under the 48 bytes of its (composite) public key; its
    name behind the wallet's matches one of the verification regexes made
    from the account paths; and one of the known passphrases unlocks it. *)
Theorem refreshAccounts_only_configured k key account :
  refreshAccounts k !! key = Some account ->
  exists path store wallet,
    path ∈ accountPaths k
    /\ store ∈ stores k
    /\ OpenWallet store (nth 0 (strings_Split path slash) "") = Go.Ok wallet
    /\ account ∈ wallet_Accounts wallet
    /\ key = bytesutil_ToBytes48 k (pubKey account)
    /\ accepted k (accountPathsToVerificationRegexes (re k) (accountPaths k))
         wallet account.
Proof.
  unfold refreshAccounts.
  set (verificationRegexes := accountPathsToVerificationRegexes (re k) (accountPaths k)).
  set (wallets := findWallets k (accountPaths k) ∅).
  assert (Hfold : forall (opened : list Wallet) accounts,
             fold_left (fun accounts wallet =>
                          fetchAccountsForWallet k wallet accounts verificationRegexes)
               opened accounts !! key = Some account ->
             accounts !! key = Some account
             \/ exists wallet,
                 wallet ∈ opened
                 /\ account ∈ wallet_Accounts wallet
                 /\ key = bytesutil_ToBytes48 k (pubKey account)
                 /\ accepted k verificationRegexes wallet account).
  { induction opened as [|w rest IH]; intros accounts Hentry; [by left|].
    cbn [fold_left] in Hentry.
    destruct (IH _ Hentry) as [Hbefore|(w' & Hin & Hrest)].
    - unfold fetchAccountsForWallet in Hbefore.
      destruct (fetchAccounts_fold k w verificationRegexes (wallet_Accounts w)
                  accounts) as (Hsound & _).
      destruct (Hsound key account Hbefore) as [?|Hmine]; [by left|].
      right. exists w. split; [by left | exact Hmine].
    - right. exists w'. split; [by right | exact Hrest]. }
  intros Hentry.
  destruct (Hfold _ _ Hentry) as [Hnone|(wallet & Hin & Hrest)].
  { by rewrite lookup_empty in Hnone. }
  apply list_elem_of_fmap in Hin as ([name w] & -> & Hin).
  apply elem_of_map_to_list in Hin. cbn [snd] in *.
  destruct (findWallets_found k (accountPaths k) ∅ name w Hin)
    as [Hnone|(path & Hpath & Hopen)].
  { by rewrite lookup_empty in Hnone. }
  destruct (openFirst_opened _ _ _ Hopen) as (store & Hstore & Hopened).
  exists path, store, w. split; [exact Hpath|]. split; [exact Hstore|].
  split; [exact Hopened|]. exact Hrest.
Qed.

End Loading.

(** ** Wallet account manager: the two queries and the metrics *)

Section Queries.
Import wallet loading.
Implicit Types (s : Service) (epoch : Epoch).
Implicit Types (validators : list (ValidatorIndex * option Validator)).
Implicit Types (stateCount : ValidatorState -> Z).

Lemma count_below_sum stateCount state :
  (forall st, 0 <= stateCount st) -> stateCount state <= sumCounts stateCount.
Proof.
  intros Hpos. unfold sumCounts, allStates. cbn [foldr].
  pose proof (Hpos ValidatorStateUnknown).
  pose proof (Hpos ValidatorStatePendingInitialized).
  pose proof (Hpos ValidatorStatePendingQueued).
  pose proof (Hpos ValidatorStateActiveOngoing).
  pose proof (Hpos ValidatorStateActiveExiting).
  pose proof (Hpos ValidatorStateActiveSlashed).
  pose proof (Hpos ValidatorStateExitedUnslashed).
  pose proof (Hpos ValidatorStateExitedSlashed).
  pose proof (Hpos ValidatorStateWithdrawalPossible).
  pose proof (Hpos ValidatorStateWithdrawalDone).
  destruct state; lia.
Qed.

(** Counting without wrap-around adds to one state and to the sum. *)
Lemma increment_counts stateCount state by_ :
  (forall st, 0 <= stateCount st) ->
  0 <= by_ ->
  sumCounts stateCount + by_ < 2 ^ 64 ->
  (forall st,
      increment stateCount state by_ st
      = if bool_decide (st = state) then stateCount st + by_ else stateCount st)
  /\ (forall st, 0 <= increment stateCount state by_ st)
  /\ sumCounts (increment stateCount state by_) = sumCounts stateCount + by_.
Proof.
  intros Hpos Hby Hroom.
  assert (Hpoint : forall st,
             increment stateCount state by_ st
             = if bool_decide (st = state) then stateCount st + by_
               else stateCount st).
  { intros st. unfold increment. case_bool_decide as Hst; [|reflexivity].
    subst st. unfold Go.u64. apply Z.mod_small.
    pose proof (count_below_sum stateCount state Hpos). specialize (Hpos state). lia. }
  split; [exact Hpoint|]. split.
  - intros st. rewrite Hpoint. specialize (Hpos st). case_bool_decide; lia.
  - unfold sumCounts, allStates. cbn [foldr]. rewrite !Hpoint.
    destruct state;
      repeat (case_bool_decide; try done; try congruence);
      lia.
Qed.

(** The loop of [ValidatingAccountsForEpoch] counts every validator once,
    and the validating ones as often as it adds accounts. *)
Lemma forEpochLoop_counts s epoch validators :
  forall (validatingAccounts : gmap Z (option Account)) stateCount m stateCount',
    NoDup validators.*1 ->
    (forall i, i ∈ validators.*1 -> validatingAccounts !! i = None) ->
    (forall st, 0 <= stateCount st) ->
    sumCounts stateCount + len validators < 2 ^ 64 ->
    forEpochLoop s epoch validators validatingAccounts stateCount
      = Go.Returned (m, stateCount') ->
    (forall st, 0 <= stateCount' st)
    /\ sumCounts stateCount' = sumCounts stateCount + len validators
    /\ activeCount stateCount' - activeCount stateCount
       = Z.of_nat (size m) - Z.of_nat (size validatingAccounts).
Proof.
  induction validators as [|[index validator] rest IH];
    intros acc sc m sc' Hnodup Hfresh Hpos Hroom Hrun.
  - cbn in Hrun. inversion Hrun; subst. unfold len. cbn. split; [exact Hpos|]. lia.
  - cbn [forEpochLoop] in Hrun. cbn in Hnodup.
    apply NoDup_cons in Hnodup as [Hnew Hnodup].
    unfold len in Hroom. cbn [length] in Hroom.
    set (state := api_ValidatorToState s validator epoch (farFutureEpoch s)) in *.
    destruct (increment_counts sc state 1 Hpos) as (Hpoint & Hpos1 & Hsum1); [lia..|].
    assert (Hstep :
      forall acc1,
        (forall i, i ∈ rest.*1 -> acc1 !! i = None) ->
        forEpochLoop s epoch rest acc1 (increment sc state 1) = Go.Returned (m, sc') ->
        activeCount (increment sc state 1) - activeCount sc
        = Z.of_nat (size acc1) - Z.of_nat (size acc) ->
        (forall st, 0 <= sc' st)
        /\ sumCounts sc' = sumCounts sc + len ((index, validator) :: rest)
        /\ activeCount sc' - activeCount sc = Z.of_nat (size m) - Z.of_nat (size acc)).
    { intros acc1 Hfresh1 Hrun1 Hactive.
      destruct (IH acc1 (increment sc state 1) m sc' Hnodup Hfresh1 Hpos1) as
        (Hpos' & Hsum' & Hactive'); [unfold len; lia | exact Hrun1 |].
      split; [exact Hpos'|]. unfold len in *. cbn [length]. lia. }
    destruct (isValidating state) eqn:Hstate.
    + destruct validator as [v|]; [|discriminate].
      destruct (accounts s !! PublicKey v) as [account|]; [|discriminate].
      apply (Hstep (<[index := Some account]> acc)); [|exact Hrun|].
      * intros i Hi. rewrite lookup_insert_ne; [apply Hfresh; by right|].
        intros <-. contradiction.
      * rewrite map_size_insert_None by (apply Hfresh; by left).
        unfold activeCount. rewrite !Hpoint.
        apply isValidating_spec in Hstate as [->| ->];
          repeat (case_bool_decide; try done; try congruence);
          lia.
    + apply (Hstep acc); [|exact Hrun|].
      * intros i Hi. apply Hfresh. by right.
      * unfold activeCount. rewrite !Hpoint.
        assert (state <> ValidatorStateActiveOngoing
                /\ state <> ValidatorStateActiveExiting) as [Hne1 Hne2].
        { split; intros Heq;
            assert (isValidating state = true) as Hyes
              by (apply isValidating_spec; auto); congruence. }
        rewrite !bool_decide_eq_false_2 by congruence. lia.
Qed.

(** X24.  The metrics of [ValidatingAccountsForEpoch].  When the validators
    manager knows no more validators than the service has accounts, a call
    that returns has reported nothing if the epoch is not the current one;
    for the current epoch it has reported one count for each of the ten
    validator states, none negative, the counts add up to the number of
    accounts of the service, and the counts of the two validating states
    add up to the number of accounts returned. *)
Theorem ValidatingAccountsForEpoch_counts_accounts s epoch m metrics :
  (size (validatorsManager_ValidatorsByPubKey s (pubKeysOf s))
   <= size (accounts s))%nat ->
  Z.of_nat (size (accounts s)) < 2 ^ 64 ->
  ValidatingAccountsForEpoch s epoch = Go.Returned (m, metrics) ->
  if epoch =? currentEpochProvider_CurrentEpoch s then
    exists stateCount,
      metrics = map (fun state => (stateName state, stateCount state)) allStates
      /\ (forall state, 0 <= stateCount state)
      /\ sumCounts stateCount = Z.of_nat (size (accounts s))
      /\ activeCount stateCount = Z.of_nat (size m)
  else metrics = [].
Proof.
  intros Hknown Hroom. unfold ValidatingAccountsForEpoch.
  set (known := validatorsManager_ValidatorsByPubKey s (pubKeysOf s)) in *.
  destruct (forEpochLoop s epoch (map_to_list known) ∅ (fun _ => 0))
    as [[m' sc]|why] eqn:Hloop; [|discriminate].
  unfold mbind, outcome_bind, Go.bind.
  destruct (forEpochLoop_counts s epoch (map_to_list known) ∅ (fun _ => 0) m' sc)
    as (Hpos & Hsum & Hactive).
  { apply NoDup_fst_map_to_list. }
  { intros i _. apply lookup_empty. }
  { intros st. lia. }
  { unfold len. rewrite length_map_to_list. unfold sumCounts. cbn. lia. }
  { exact Hloop. }
  unfold len in Hsum. rewrite length_map_to_list in Hsum.
  replace (sumCounts (fun _ => 0)) with 0 in Hsum by reflexivity.
  replace (activeCount (fun _ => 0)) with 0 in Hactive by reflexivity.
  rewrite map_size_empty in Hactive.
  destruct (epoch =? currentEpochProvider_CurrentEpoch s).
  2:{ by intros [= _ <-]. }
  intros [= <- <-].
  assert (Hby : Go.u64 (Z.of_nat (size (accounts s)) - Z.of_nat (size known))
                = Z.of_nat (size (accounts s)) - Z.of_nat (size known)).
  { unfold Go.u64. apply Z.mod_small. lia. }
  destruct (increment_counts sc ValidatorStateUnknown
              (Go.u64 (Z.of_nat (size (accounts s)) - Z.of_nat (size known))) Hpos)
    as (Hpoint & Hpos' & Hsum'); [rewrite Hby; lia..|].
  exists (increment sc ValidatorStateUnknown
            (Go.u64 (Z.of_nat (size (accounts s)) - Z.of_nat (size known)))).
  split; [reflexivity|]. split; [exact Hpos'|].
  split; [rewrite Hsum', Hby; lia|].
  unfold activeCount in *. rewrite !Hpoint.
  rewrite !bool_decide_eq_false_2 by discriminate. lia.
Qed.

(** The loop of [ValidatingAccountsForEpochByIndex] does what the loop of
    [ValidatingAccountsForEpoch] does, on the indices asked for. *)
Lemma byIndexLoop_restricts s epoch (indices : list ValidatorIndex) validators :
  forall (validatingAccounts : gmap Z (option Account)) stateCount m stateCount',
    forEpochLoop s epoch validators validatingAccounts stateCount
      = Go.Returned (m, stateCount') ->
    byIndexLoop s epoch (list_to_set indices) validators
      (filter (fun entry => entry.1 ∈ indices) validatingAccounts)
    = Go.Returned (filter (fun entry => entry.1 ∈ indices) m).
Proof.
  induction validators as [|[index validator] rest IH]; intros acc sc m sc' Hrun.
  - cbn in Hrun. by inversion Hrun.
  - cbn [forEpochLoop byIndexLoop] in *.
    destruct (decide (index ∈ indices)) as [Hin|Hout].
    + rewrite bool_decide_eq_true_2 by (by apply elem_of_list_to_set).
      cbn [negb].
      destruct (isValidating (api_ValidatorToState s validator epoch (farFutureEpoch s)));
        [|by eapply IH].
      destruct validator as [v|]; [|discriminate].
      destruct (accounts s !! PublicKey v) as [account|]; [|discriminate].
      rewrite <- (map_filter_insert_True (fun entry => entry.1 ∈ indices))
        by exact Hin.
      by eapply IH.
    + rewrite bool_decide_eq_false_2
        by (intros Hin; by apply elem_of_list_to_set in Hin).
      cbn [negb].
      destruct (isValidating (api_ValidatorToState s validator epoch (farFutureEpoch s)));
        [|by eapply IH].
      destruct validator as [v|]; [|discriminate].
      destruct (accounts s !! PublicKey v) as [account|]; [|discriminate].
      rewrite <- (map_filter_insert_not (fun entry => entry.1 ∈ indices) acc index
                    (Some account)) by (by intros y).
      by eapply IH.
Qed.

(** X25.  The two queries agree.  Whenever [ValidatingAccountsForEpoch]
    returns, [ValidatingAccountsForEpochByIndex] for the same epoch returns
    the same accounts, restricted to the indices asked for; asking for an
    index twice or for an unknown index changes nothing. *)
Theorem ByIndex_restricts_ForEpoch s epoch indices m metrics :
  ValidatingAccountsForEpoch s epoch = Go.Returned (m, metrics) ->
  ValidatingAccountsForEpochByIndex s epoch indices
  = Go.Returned (filter (fun entry => entry.1 ∈ indices) m).
Proof.
  unfold ValidatingAccountsForEpoch, ValidatingAccountsForEpochByIndex.
  destruct (forEpochLoop s epoch
              (map_to_list (validatorsManager_ValidatorsByPubKey s (pubKeysOf s)))
              ∅ (fun _ => 0)) as [[m' sc]|why] eqn:Hloop; [|discriminate].
  cbn. intros Hret.
  assert (m' = m) as ->.
  { by destruct (epoch =? currentEpochProvider_CurrentEpoch s); inversion Hret. }
  rewrite <- (byIndexLoop_restricts s epoch indices _ _ _ _ _ Hloop).
  by rewrite map_filter_empty.
Qed.

(** X26.  The accounts [ValidatingAccountsForEpoch] returns are accounts
    of the service: none is nil, and [AccountByPublicKey] finds each of
    them under the public key of its validator. *)
Theorem validating_accounts_are_found s epoch m metrics i a :
  ValidatingAccountsForEpoch s epoch = Go.Returned (m, metrics) ->
  m !! i = Some a ->
  exists account v,
    a = Some account
    /\ validatorsManager_ValidatorsByPubKey s (pubKeysOf s) !! i = Some (Some v)
    /\ AccountByPublicKey s (PublicKey v) = (Some account, None).
Proof.
  unfold ValidatingAccountsForEpoch.
  destruct (forEpochLoop s epoch
              (map_to_list (validatorsManager_ValidatorsByPubKey s (pubKeysOf s)))
              ∅ (fun _ => 0)) as [[m' sc]|why] eqn:Hloop; [|discriminate].
  cbn. intros Hret Hentry.
  assert (m' = m) as ->.
  { by destruct (epoch =? currentEpochProvider_CurrentEpoch s); inversion Hret. }
  assert (Hsome : forall validators (acc : gmap Z (option Account)) sc0 m0 sc1,
             forEpochLoop s epoch validators acc sc0 = Go.Returned (m0, sc1) ->
             (forall j b, acc !! j = Some b -> is_Some b) ->
             forall j b, m0 !! j = Some b -> is_Some b).
  { induction validators as [|[index validator] rest IH];
      intros acc sc0 m0 sc1 Hrun Hacc j b Hb.
    - cbn in Hrun. inversion Hrun; subst. by eapply Hacc.
    - cbn [forEpochLoop] in Hrun.
      destruct (isValidating (api_ValidatorToState s validator epoch (farFutureEpoch s)));
        [|by eapply IH].
      destruct validator as [v|]; [|discriminate].
      destruct (accounts s !! PublicKey v) as [account|]; [|discriminate].
      eapply IH; [exact Hrun| |exact Hb].
      intros j' b' Hj'. destruct (decide (index = j')) as [<-|Hne].
      + rewrite lookup_insert_eq in Hj'. inversion Hj'. eauto.
      + rewrite lookup_insert_ne in Hj' by done. by eapply Hacc. }
  destruct (Hsome _ _ _ _ _ Hloop) with (j := i) (b := a) as [account ->];
    [by intros j b Hj; rewrite lookup_empty in Hj | exact Hentry |].
  destruct (forEpochLoop_sound s epoch _ _ _ _ _ Hloop i (Some account) Hentry)
    as [Hnone|(v & Hin & _ & Hacc)].
  { by rewrite lookup_empty in Hnone. }
  exists account, v. split; [reflexivity|].
  split; [by apply elem_of_map_to_list|].
  unfold AccountByPublicKey. by rewrite <- Hacc.
Qed.

End Queries.

(** ** Messenger and aggregator of one slot *)

Section SlotPair.
Context {W : Type}.
Import synccommitteeaggregator synccommitteemessenger altair aggregation.
Implicit Types (sm : messenger.Service W) (sa : aggregator.Service W).
Implicit Types (st : Sys W).

(** X27.  [Message] and then [Aggregate] for one slot, whatever becomes of
    the messages.  After the pair the root cache is as it was before, less
    the entry of the slot: the pair leaves nothing behind.  And whenever
    [Message] got a head root, also when some signing failed or the
    submission failed, [Aggregate] asks the beacon node for no root and
    requests contributions for that root only. *)
Theorem Message_then_Aggregate sm sa d duty st :
  Slot_ duty = slot d ->
  let st1 := (messenger.Message sm (MessengerDuty (Some d)) st).1 in
  let st2 := (aggregator.Aggregate sa (AggregatorDuty (Some duty)) st1).1 in
  beaconBlockRoots st2 = delete (slot d) (beaconBlockRoots st)
  /\ forall w root,
      messenger.beaconBlockRootProvider sm (world st) "head"
        = (w, (Some root, None)) ->
      exists new,
        log st2 = log st1 ++ new
        /\ Forall (fun e => isHeadFetch e = false) new
        /\ Forall (fun e => forall r, requestedRoot e = Some r -> r = root) new.
Proof.
  intros Hslot st1 st2.
  assert (Hst1 : beaconBlockRoots st1
                 = match (messenger.beaconBlockRootProvider sm (world st) "head").2
                   with
                   | (Some root, None) => <[slot d := root]> (beaconBlockRoots st)
                   | _ => beaconBlockRoots st
                   end).
  { subst st1. unfold messenger.Message. cbn [messenger.assertDuty negb].
    destruct (messenger.beaconBlockRootProvider sm (world st) "head")
      as [w [r err]]. cbn [snd].
    destruct err as [e|]; [by destruct r|].
    destruct r as [root|]; [|reflexivity].
    match goal with
    | |- context [messenger.signAll sm d root ?indices [] ?st'] =>
        pose proof (signAll_roots sm d root indices [] st') as Hroots;
        destruct (messenger.signAll sm d root indices [] st') as [signed msgs]
    end.
    cbn in Hroots.
    by destruct (messenger.syncCommitteeMessagesSubmitter sm (world signed) msgs)
      as [w' [e|]]. }
  assert (Hst2 : beaconBlockRoots st2 = delete (Slot_ duty) (beaconBlockRoots st1)).
  { subst st2.
    destruct (beaconBlockRoots st1 !! Slot_ duty) as [tmp|] eqn:Hhit.
    - rewrite (Aggregate_cached _ _ _ _ Hhit). cbn [fst].
      by destruct (aggregateWithRoot_log sa duty tmp
                     (setRoots (delete (Slot_ duty) (beaconBlockRoots st1)) st1))
        as (new & _ & -> & _).
    - rewrite delete_id by exact Hhit.
      destruct (aggregator.beaconBlockRootProvider sa (world st1) "head")
        as [w [r err]] eqn:Hhead.
      rewrite (Aggregate_uncached _ _ _ _ _ _ Hhit Hhead). cbn [fst].
      destruct err as [e|]; [by destruct r|].
      destruct r as [root|]; [|reflexivity].
      by destruct (aggregateWithRoot_log sa duty root
                     (emit (CallBeaconBlockRoot "head" (Some root) None)
                        (setWorld w st1))) as (new & _ & -> & _). }
  split.
  - rewrite Hst2, Hst1, Hslot.
    destruct (messenger.beaconBlockRootProvider sm (world st) "head")
      as [w [[root|] [e|]]]; cbn [snd]; try reflexivity.
    apply delete_insert_eq.
  - intros w root Hhead. rewrite Hhead in Hst1. cbn [snd] in Hst1.
    assert (Hhit : beaconBlockRoots st1 !! Slot_ duty = Some root).
    { rewrite Hst1, Hslot. apply lookup_insert_eq. }
    subst st2. rewrite (Aggregate_cached _ _ _ _ Hhit). cbn [fst].
    destruct (aggregateWithRoot_log sa duty root
                (setRoots (delete (Slot_ duty) (beaconBlockRoots st1)) st1))
      as (new & Hlog & _ & Hnohead & Hroot & _).
    exists new. split; [exact Hlog|]. split; [exact Hnohead | exact Hroot].
Qed.

End SlotPair.

(** * Worked examples of the further properties *)

(** X2 on relay "a" bidding 5 for slot 100: the response carries the bid
    and its value as score. *)
Lemma builderBid_response_checked_witness :
  blockrelay.Value scenarios.bidA = Go.Ok (blockrelay.score scenarios.respA)
  /\ blockrelay.MinValue (fixtures.relayConfigAt "a")
     <= blockrelay.score scenarios.respA.
Proof.
  destruct (builderBid_response_checked (fixtures.auctioneer fixtures.sameBlock) ∅ ∅
              scenarios.relayA 100 [] [] (fixtures.relayConfigAt "a") scenarios.respA)
    as (_ & _ & _ & Hvalue & _ & Hmin & _); [vm_compute; reflexivity|].
  split; [exact Hvalue | exact Hmin].
Defined.

(** X3 on a relay configured with a key: the run memoises the key, which is
    the parse of its bytes. *)
Lemma verifyBidSignature_memo_grows_witness :
  blockrelay.BLSPublicKeyFromBytes fixtures.strictCrypto scenarios.relayKey
  = Go.Ok scenarios.relayKey.
Proof.
  destruct (verifyBidSignature_memo_grows (fixtures.auctioneer fixtures.sameBlock) ∅
              {[ scenarios.relayKey := scenarios.relayKey ]}
              scenarios.keyedRelay scenarios.bidA scenarios.relayA false None)
    as (_ & _ & Hnew); [vm_compute; reflexivity|].
  destruct (Hnew scenarios.relayKey scenarios.relayKey) as [Hold|Hparse].
  - apply lookup_singleton_eq.
  - rewrite lookup_empty in Hold. discriminate Hold.
  - exact Hparse.
Defined.

(** X4 with the key of the relay memoised: the verdict is that of a run
    with nothing memoised. *)
Lemma verifyBidSignature_memo_transparent_witness :
  (blockrelay.verifyBidSignature (fixtures.auctioneer fixtures.sameBlock)
     {[ scenarios.relayKey := scenarios.relayKey ]}
     scenarios.keyedRelay scenarios.bidA scenarios.relayA).2
  = (blockrelay.verifyBidSignature (fixtures.auctioneer fixtures.sameBlock) ∅
       scenarios.keyedRelay scenarios.bidA scenarios.relayA).2.
Proof.
  apply (verifyBidSignature_memo_transparent
           (fixtures.auctioneer fixtures.sameBlock)
           {[ scenarios.relayKey := scenarios.relayKey ]}).
  intros k pubkey Hk. apply lookup_singleton_Some in Hk as [<- <-]. reflexivity.
Defined.

(** X5 on two relays with the same block for 5: the first response wins. *)
Lemma bestBuilderBid_first_best_wins_witness :
  exists result,
    blockrelay.bestBuilderBid (fixtures.auctioneer fixtures.sameBlock) ∅ 100 [] []
      fixtures.twoRelays [Some 0%nat; Some 1%nat]
    = blockrelay.Finished (Some result) []
    /\ exists winner,
        blockrelay.bid winner = blockrelay.Bid result
        /\ 0 < blockrelay.score winner.
Proof.
  assert (exists result,
             blockrelay.bestBuilderBid (fixtures.auctioneer fixtures.sameBlock) ∅
               100 [] [] fixtures.twoRelays [Some 0%nat; Some 1%nat]
             = blockrelay.Finished (Some result) []) as [result Hrun].
  { eexists. vm_compute. reflexivity. }
  exists result. split; [exact Hrun|].
  destruct (bestBuilderBid_first_best_wins (fixtures.auctioneer fixtures.sameBlock)
              ∅ 100 [] [] fixtures.twoRelays [Some 0%nat; Some 1%nat]
              (Some result) [] Hrun)
    as (consumed & _ & earlier & winner & later & _ & Hbid & _ & Hscore & _).
  exists winner. split; [exact Hbid | exact Hscore].
Defined.

(** X6 with two relays: one response, then the soft deadline; the response
    that arrives later is left unread. *)
Lemma soft_deadline_ends_with_response_witness :
  exists result,
    blockrelay.fanIn 2
      ([blockrelay.FromRespCh scenarios.respA]
       ++ blockrelay.CtxDone :: [blockrelay.FromRespCh scenarios.respA])
    = blockrelay.Finished result [blockrelay.FromRespCh scenarios.respA].
Proof.
  apply (soft_deadline_ends_with_response 2 [blockrelay.FromRespCh scenarios.respA]).
  - repeat constructor.
  - vm_compute. reflexivity.
  - exists scenarios.respA. by left.
Defined.

(** X7 with two relays: one error, then the soft deadline: the auction
    waits, and ends at the hard deadline. *)
Lemma soft_deadline_waits_without_response_witness :
  blockrelay.fanIn 2 ([blockrelay.FromErrCh "no such host"] ++ [blockrelay.CtxDone])
  = blockrelay.Waiting
  /\ exists result,
      blockrelay.fanIn 2
        ([blockrelay.FromErrCh "no such host"]
         ++ blockrelay.CtxDone :: [] ++ blockrelay.CtxDone :: [])
      = blockrelay.Finished result [].
Proof.
  destruct (soft_deadline_waits_without_response 2
              [blockrelay.FromErrCh "no such host"]) as [Hwaits Hends].
  - repeat constructor.
  - vm_compute. reflexivity.
  - split; [exact Hwaits|]. apply (Hends [] []); [constructor|].
    vm_compute. reflexivity.
Defined.

(** X8 on a declining relay "a" and relay "b" bidding 5: the entry of "b"
    comes from a configured relay whose minimum it meets. *)
Lemma values_from_configured_relays_witness :
  exists relay,
    relay ∈ blockrelay.Relays fixtures.twoRelays
    /\ blockrelay.MinValue relay <= 5.
Proof.
  edestruct (values_from_configured_relays (fixtures.auctioneer fixtures.decliningA)
               ∅ 100 [] [] fixtures.twoRelays [Some 0%nat; Some 1%nat])
    with (a := "b") (sc := 5)
    as (relay & client & provider & b & Hin & _ & _ & _ & _ & _ & _ & Hmin);
    [vm_compute; reflexivity | vm_compute; reflexivity|].
  exists relay. split; [exact Hin | exact Hmin].
Defined.

(** X10 when the proposer configuration cannot be obtained: the call
    returns with the read lock still held. *)
Lemma AuctionBlock_read_lock_witness :
  exists st' err,
    blockrelay.AuctionBlock (fixtures.auctioneer fixtures.sameBlock)
      scenarios.unconfigured ∅ scenarios.idle 100 [] [] []
    = blockrelay.AuctionReturned st' None (Some err)
    /\ blockrelay.executionConfigReaders st' = 1%nat.
Proof.
  eexists _, _. split; [reflexivity|].
  rewrite (AuctionBlock_read_lock (fixtures.auctioneer fixtures.sameBlock)
             scenarios.unconfigured ∅ scenarios.idle 100 [] [] [] _ None _ eq_refl).
  reflexivity.
Defined.

(** X11 on relay "a" bidding 5 and relay "b" bidding 3: "a" wins, and the
    delta 2 is reported for "b". *)
Lemma AuctionBlock_deltas_witness :
  exists st' result,
    blockrelay.AuctionBlock (fixtures.auctioneer fixtures.brokenHeaderA)
      scenarios.proposers ∅ scenarios.idle 100 [] [] [Some 0%nat; Some 1%nat]
    = blockrelay.AuctionReturned st' (Some result) None
    /\ ("b", 2) ∈ blockrelay.builderBidDeltas st'.
Proof.
  eexists _, _. split; [vm_compute; reflexivity|].
  edestruct (AuctionBlock_deltas (fixtures.auctioneer fixtures.brokenHeaderA)
               scenarios.proposers ∅ scenarios.idle 100 [] []
               [Some 0%nat; Some 1%nat])
    as (winning & val & new & Hbid & Hval & Hdeltas & Hnew);
    [vm_compute; reflexivity|].
  rewrite Hdeltas. apply elem_of_app. right. apply Hnew.
  exists 3. split; [vm_compute; reflexivity|].
  vm_compute in Hbid. injection Hbid as <-.
  vm_compute in Hval. injection Hval as <-.
  split; [reflexivity|]. split; [lia|].
  vm_compute. intros Hin. apply list_elem_of_singleton in Hin. discriminate Hin.
Defined.

(** X12: one parent hash, two public keys, two cells. *)
Lemma cache_cells_distinct_witness :
  blockrelay.cacheSubKey [1; 2] [3] <> blockrelay.cacheSubKey [1; 2] [4].
Proof.
  intros Hsame.
  destruct (cache_cells_distinct 100 100 [1; 2] [1; 2] [3] [4]) as (_ & _ & Hkeys);
    [repeat constructor; unfold blockrelay.isByte; lia ..
    | reflexivity | reflexivity | exact Hsame |].
  discriminate Hkeys.
Defined.

(** X17 on slot 100 with two validators: two messages, for distinct
    validators. *)
Lemma Message_messages_witness :
  exists msgs,
    (messenger.Message (fixtures.messengerWith (Some fixtures.headRoot))
       (MessengerDuty (Some fixtures.messengerDuty)) fixtures.emptySys).2
    = Go.Returned (Some msgs, None)
    /\ length msgs = 2%nat
    /\ NoDup (altair.msg_ValidatorIndex <$> msgs).
Proof.
  eexists. split; [vm_compute; reflexivity|]. split; [reflexivity|].
  edestruct (Message_messages (fixtures.messengerWith (Some fixtures.headRoot))
               fixtures.messengerDuty fixtures.emptySys)
    as (root & calls & _ & _ & Hnodup & _); [vm_compute; reflexivity|].
  exact Hnodup.
Defined.

(** X20 on the mainnet specification: both services are built, with a
    committee size of 512. *)
Lemma New_services_agree_witness :
  exists sm sa,
    messenger.New (Go.Ok scenarios.messengerParameters) = (Some sm, None)
    /\ aggregator.New (Go.Ok scenarios.aggregatorParameters) = (Some (sa, ∅), None)
    /\ messenger.syncCommitteeSize sm = 512
    /\ aggregator.syncCommitteeSize _ sa = 512.
Proof.
  destruct (New_services_agree scenarios.messengerParameters
              scenarios.aggregatorParameters scenarios.mainnet eq_refl eq_refl)
    as [(slots & size & subnets & target & sm & sa & _ & Hsize & _ & _ & Hm & Ha
         & _ & _ & Hsm & Hsa & _)
       |[Hmissing _]].
  - exists sm, sa. vm_compute in Hsize. injection Hsize as <-. auto.
  - exfalso.
    repeat (apply Exists_cons in Hmissing as [Hmissing|Hmissing];
            [eapply Hmissing; vm_compute; reflexivity|]).
    by apply Exists_nil in Hmissing.
Defined.


(** X23 on a wallet with one account that unlocks and one that does not:
    the account loaded comes from a configured path and an opened wallet. *)
Lemma refreshAccounts_only_configured_witness :
  exists path store opened,
    path ∈ wallet.accountPaths scenarios.keystore
    /\ store ∈ wallet.stores scenarios.keystore
    /\ scenarios.first ∈ wallet.wallet_Accounts opened.
Proof.
  destruct (refreshAccounts_only_configured scenarios.keystore (repeat 1 48%nat)
              scenarios.first)
    as (path & store & opened & Hpath & Hstore & _ & Hin & _);
    [vm_compute; reflexivity|].
  exists path, store, opened. auto.
Defined.

(** X24 at the current epoch on three accounts, one of them validating. *)
Lemma ValidatingAccountsForEpoch_counts_accounts_witness :
  exists m metrics stateCount,
    wallet.ValidatingAccountsForEpoch fixtures.walletService 10
    = Go.Returned (m, metrics)
    /\ metrics = map (fun state => (wallet.stateName state, stateCount state))
                   wallet.allStates
    /\ loading.sumCounts stateCount = 3
    /\ loading.activeCount stateCount = 1.
Proof.
  destruct (wallet.ValidatingAccountsForEpoch fixtures.walletService 10)
    as [[m metrics]|why] eqn:Hrun; [|vm_compute in Hrun; discriminate Hrun].
  pose proof (ValidatingAccountsForEpoch_counts_accounts fixtures.walletService 10
                m metrics) as Hcounts.
  destruct Hcounts as (stateCount & Hmetrics & _ & Hsum & Hactive);
    [vm_compute; lia | vm_compute; reflexivity | exact Hrun |].
  exists m, metrics, stateCount. split; [reflexivity|]. split; [exact Hmetrics|].
  split; [exact Hsum|]. rewrite Hactive.
  vm_compute in Hrun. injection Hrun as <- _. reflexivity.
Defined.

(** X25 at epoch 10, asking for validators 1 and 2. *)
Lemma ByIndex_restricts_ForEpoch_witness :
  exists m metrics,
    wallet.ValidatingAccountsForEpoch fixtures.walletService 10
    = Go.Returned (m, metrics)
    /\ wallet.ValidatingAccountsForEpochByIndex fixtures.walletService 10 [1; 2]
       = Go.Returned (filter (fun entry => entry.1 ∈ [1; 2]) m).
Proof.
  destruct (wallet.ValidatingAccountsForEpoch fixtures.walletService 10)
    as [[m metrics]|why] eqn:Hrun; [|vm_compute in Hrun; discriminate Hrun].
  exists m, metrics. split; [reflexivity|].
  exact (ByIndex_restricts_ForEpoch fixtures.walletService 10 [1; 2] m metrics Hrun).
Defined.

(** X26 at epoch 10: the account of validator 1 is found under the
    validator's key. *)
Lemma validating_accounts_are_found_witness :
  exists v, wallet.AccountByPublicKey fixtures.walletService (wallet.PublicKey v)
            = (Some "w1", None).
Proof.
  edestruct (validating_accounts_are_found fixtures.walletService 10)
    with (i := 1) (a := Some "w1")
    as (account & v & Haccount & _ & Hfound);
    [vm_compute; reflexivity | vm_compute; reflexivity|].
  injection Haccount as <-. exists v. exact Hfound.
Defined.

(** X27 on slot 100: [Message] caches the head root, [Aggregate] uses it
    up, and the cache is empty as before. *)
Lemma Message_then_Aggregate_witness :
  beaconBlockRoots
    (aggregator.Aggregate (fixtures.aggregatorWith (Some fixtures.otherRoot) 9)
       (AggregatorDuty (Some fixtures.aggregatorDuty))
       (messenger.Message (fixtures.messengerWith (Some fixtures.headRoot))
          (MessengerDuty (Some fixtures.messengerDuty)) fixtures.emptySys).1).1
  = ∅.
Proof.
  destruct (Message_then_Aggregate (fixtures.messengerWith (Some fixtures.headRoot))
              (fixtures.aggregatorWith (Some fixtures.otherRoot) 9)
              fixtures.messengerDuty fixtures.aggregatorDuty fixtures.emptySys
              eq_refl) as [Hroots _].
  rewrite Hroots. apply delete_empty.
Defined.
